(** * A shallow embedding of the PCAP table function of duckdb_pcap

    The development follows [src/pcap_reader.c] and [src/include/pcap_reader.h]:
    the byte-order helper [swap32], the three callbacks [PcapReaderBind],
    [PcapReaderInit] and [PcapReaderFunction], and the destructor
    [PcapReaderInitDataFree].  Unsigned C integers are natural numbers of
    type [N] with their wrap-around written out; a [FILE] is the list of
    bytes not read yet together with its end-of-file indicator. *)

From Stdlib Require Import String Ascii NArith ZArith List Bool Lia.
From Stdlib Require Import Init.Byte.
Import ListNotations.

Local Open Scope N_scope.

(** ** Machine integers *)

Definition wrap32 (n : N) : N := n mod 2 ^ 32.
Definition wrap64 (n : N) : N := n mod 2 ^ 64.

(** Byte order of the machine the reader runs on: the structs are filled by
    [fread], so a field holds the bytes of the file in host order. *)
Inductive endianness : Type := LittleEndian | BigEndian.

Definition other_order (host : endianness) : endianness :=
  match host with
  | LittleEndian => BigEndian
  | BigEndian => LittleEndian
  end.

Definition byte_val (b : byte) : N := Byte.to_N b.

(** The value of four bytes with the least significant one first. *)
Definition le32 (b0 b1 b2 b3 : byte) : N :=
  N.lor (N.lor (N.lor (byte_val b0) (N.shiftl (byte_val b1) 8))
               (N.shiftl (byte_val b2) 16))
        (N.shiftl (byte_val b3) 24).

Definition le16 (b0 b1 : byte) : N :=
  N.lor (byte_val b0) (N.shiftl (byte_val b1) 8).

Definition x00 : byte := Byte.x00.

(** A [uint32_t] field at byte offset [off] of a block filled by [fread]. *)
Definition load32 (host : endianness) (block : list byte) (off : nat) : N :=
  let b0 := nth off block x00 in
  let b1 := nth (off + 1) block x00 in
  let b2 := nth (off + 2) block x00 in
  let b3 := nth (off + 3) block x00 in
  match host with
  | LittleEndian => le32 b0 b1 b2 b3
  | BigEndian => le32 b3 b2 b1 b0
  end.

Definition load16 (host : endianness) (block : list byte) (off : nat) : N :=
  let b0 := nth off block x00 in
  let b1 := nth (off + 1) block x00 in
  match host with
  | LittleEndian => le16 b0 b1
  | BigEndian => le16 b1 b0
  end.

(** An [int32_t] field: the two's complement reading of the same bytes. *)
Definition load32s (host : endianness) (block : list byte) (off : nat) : Z :=
  let u := Z.of_N (load32 host block off) in
  if (u <? 2 ^ 31)%Z then u else (u - 2 ^ 32)%Z.

(** ** pcap_reader.h *)

Definition PCAP_MAGIC_NATIVE : N := 0xa1b2c3d4.
Definition PCAP_MAGIC_SWAPPED : N := 0xd4c3b2a1.
Definition PCAP_MAGIC_NANO_NATIVE : N := 0xa1b23c4d.
Definition PCAP_MAGIC_NANO_SWAPPED : N := 0x4d3cb2a1.

Record pcap_file_header_t : Type := mk_file_header {
  magic_number : N;
  version_major : N;
  version_minor : N;
  thiszone : Z;
  sigfigs : N;
  snaplen : N;
  network : N
}.

Record pcap_packet_header_t : Type := mk_packet_header {
  ts_sec : N;
  ts_usec : N;
  caplen : N;
  len : N
}.

Definition sizeof_pcap_file_header_t : N := 24.
Definition sizeof_pcap_packet_header_t : N := 16.

(** ** swap32 *)

Definition swap32 (value : N) : N :=
  N.lor (N.lor (N.lor (N.shiftr (N.land value 0xFF000000) 24)
                      (N.shiftr (N.land value 0x00FF0000) 8))
               (wrap32 (N.shiftl (N.land value 0x0000FF00) 8)))
        (wrap32 (N.shiftl (N.land value 0x000000FF) 24)).

(** ** The C library: streams and strings *)

(** A stream opened for reading: the bytes not consumed yet and the
    end-of-file indicator that [feof] tests.  Read errors are not modelled. *)
Record FILE : Type := mk_FILE {
  unread : list byte;
  at_eof : bool
}.

Definition feof (f : FILE) : bool := at_eof f.

(** [fread(ptr, size, nmemb, f)]: the bytes stored at [ptr], the number of
    complete items read, and the stream afterwards.  A request of zero bytes
    returns zero and leaves the stream as it is; a request for more than is
    left consumes what is left and sets the end-of-file indicator. *)
Definition fread (size nmemb : N) (f : FILE) : list byte * N * FILE :=
  let want := size * nmemb in
  if want =? 0 then ([], 0, f)
  else if want <=? N.of_nat (length (unread f))
  then (firstn (N.to_nat want) (unread f), nmemb,
        {| unread := skipn (N.to_nat want) (unread f); at_eof := at_eof f |})
  else (unread f, N.of_nat (length (unread f)) / size,
        {| unread := []; at_eof := true |}).

(** C strings: a [string] read up to its first NUL character. *)
Definition is_nul (c : ascii) : bool := N_of_ascii c =? 0.

Definition c_head (s : string) : ascii :=
  match s with
  | EmptyString => Ascii.zero
  | String c _ => c
  end.

Definition c_tail (s : string) : string :=
  match s with
  | EmptyString => EmptyString
  | String _ r => r
  end.

Fixpoint strncmp (s1 s2 : string) (n : nat) : Z :=
  match n with
  | O => 0%Z
  | S n' =>
      let c1 := c_head s1 in
      let c2 := c_head s2 in
      if N_of_ascii c1 =? N_of_ascii c2 then
        if is_nul c1 then 0%Z else strncmp (c_tail s1) (c_tail s2) n'
      else (Z.of_N (N_of_ascii c1) - Z.of_N (N_of_ascii c2))%Z
  end.

Fixpoint strlen (s : string) : N :=
  match s with
  | EmptyString => 0
  | String c r => if is_nul c then 0 else 1 + strlen r
  end.

(** A [string] that is a C string as it stands: no NUL inside. *)
Fixpoint nul_free (s : string) : bool :=
  match s with
  | EmptyString => true
  | String c r => negb (is_nul c) && nul_free r
  end.

(** ** The reader state *)

Record pcap_reader_state_t : Type := mk_state {
  file : option FILE;                       (* NULL or an open stream *)
  file_header : option pcap_file_header_t;  (* None: not filled yet *)
  needs_swap : bool;
  is_nanosecond : bool;
  filename : string;
  is_stdin : bool;
  packet_buffer : option (list byte);       (* NULL, or the bytes written so far *)
  buffer_size : N
}.

Definition set_file (st : pcap_reader_state_t) (f : FILE) : pcap_reader_state_t :=
  mk_state (Some f) (file_header st) (needs_swap st) (is_nanosecond st)
           (filename st) (is_stdin st) (packet_buffer st) (buffer_size st).

Definition set_buffer (st : pcap_reader_state_t) (buf : option (list byte)) (size : N)
  : pcap_reader_state_t :=
  mk_state (file st) (file_header st) (needs_swap st) (is_nanosecond st)
           (filename st) (is_stdin st) buf size.

(** One output row: the four columns declared by [PcapReaderBind]. *)
Record row : Type := mk_row {
  timestamp_ns : N;
  original_len : N;
  capture_len : N;
  data : list byte
}.

(** The errors the callbacks report, by the kind the design names for them. *)
Inductive reader_error : Type :=
| MissingInput
| StateAllocationFailure
| FilenameAllocationFailure
| OpenFailure
| TruncatedHeader
| UnsupportedMagic
| AllocationFailure.

Definition bind_error_message (e : reader_error) : string :=
  match e with
  | MissingInput => "Filename parameter is required"
  | StateAllocationFailure => "Failed to allocate memory for pcap reader state"
  | FilenameAllocationFailure => "Failed to allocate memory for filename"
  | _ => EmptyString
  end%string.

Definition init_error_message (e : reader_error) : string :=
  match e with
  | StateAllocationFailure => "Failed to allocate memory for init state"
  | OpenFailure => "Failed to open pcap file"
  | TruncatedHeader => "Failed to read pcap file header"
  | UnsupportedMagic => "Invalid pcap file magic number"
  | AllocationFailure => "Failed to allocate packet buffer"
  | _ => EmptyString
  end%string.

(** What a destructor or an error path does to the resources it holds. *)
Inductive release : Type :=
| Fclose
| FreePacketBuffer
| FreeState.

Inductive bind_result : Type :=
| BindError (e : reader_error)
| BindData (st : pcap_reader_state_t).

(** [InitError e closed]: the error set, and whether the stream was closed. *)
Inductive init_result : Type :=
| InitError (e : reader_error) (closed : bool)
| InitData (st : pcap_reader_state_t).

Definition parse_file_header (host : endianness) (block : list byte) : pcap_file_header_t :=
  {| magic_number := load32 host block 0;
     version_major := load16 host block 4;
     version_minor := load16 host block 6;
     thiszone := load32s host block 8;
     sigfigs := load32 host block 12;
     snaplen := load32 host block 16;
     network := load32 host block 20 |}.

Definition parse_packet_header (host : endianness) (block : list byte) : pcap_packet_header_t :=
  {| ts_sec := load32 host block 0;
     ts_usec := load32 host block 4;
     caplen := load32 host block 8;
     len := load32 host block 12 |}.

Definition swap_packet_header (h : pcap_packet_header_t) : pcap_packet_header_t :=
  {| ts_sec := swap32 (ts_sec h);
     ts_usec := swap32 (ts_usec h);
     caplen := swap32 (caplen h);
     len := swap32 (len h) |}.

(** Lines 182-205 of [PcapReaderInit]: the flags and the snapshot length the
    magic number selects, or nothing for a magic number that is not one of
    the four. *)
Definition negotiate (hdr : pcap_file_header_t) : option (bool * bool * N) :=
  if magic_number hdr =? PCAP_MAGIC_NATIVE then Some (false, false, snaplen hdr)
  else if magic_number hdr =? PCAP_MAGIC_SWAPPED then Some (true, false, swap32 (snaplen hdr))
  else if magic_number hdr =? PCAP_MAGIC_NANO_NATIVE then Some (false, true, snaplen hdr)
  else if magic_number hdr =? PCAP_MAGIC_NANO_SWAPPED then Some (true, true, swap32 (snaplen hdr))
  else None.

Definition with_snaplen (hdr : pcap_file_header_t) (n : N) : pcap_file_header_t :=
  mk_file_header (magic_number hdr) (version_major hdr) (version_minor hdr)
                 (thiszone hdr) (sigfigs hdr) n (network hdr).

(** Lines 253-258 of [PcapReaderFunction]: the header as [fread] left it,
    with its four fields swapped when the file is in the other byte order. *)
Definition decode_packet_header (host : endianness) (swap : bool) (block : list byte)
  : pcap_packet_header_t :=
  let raw := parse_packet_header host block in
  if swap then swap_packet_header raw else raw.

(** Lines 261-270 of [PcapReaderFunction]. *)
Definition convert_timestamp (nano : bool) (h : pcap_packet_header_t) : N :=
  if nano
  then wrap64 (wrap64 (ts_sec h * 1000000000) + ts_usec h)
  else wrap64 (wrap64 (ts_sec h * 1000000000) + wrap64 (ts_usec h * 1000)).

Definition buffer_bytes (st : pcap_reader_state_t) : list byte :=
  match packet_buffer st with
  | Some written => written
  | None => []
  end.

Section Reader.

(** The environment of the callbacks. *)
Variable host : endianness.
(** [duckdb_malloc]: whether the request number [n] of the run, for [size]
    bytes, returns a block rather than NULL. *)
Variable duckdb_malloc : nat -> N -> bool.
(** [fopen(name, "rb")]: the content of the file, or NULL. *)
Variable fopen : string -> option (list byte).
(** What standard input delivers. *)
Variable stdin : list byte.
(** [duckdb_vector_size()]. *)
Variable duckdb_vector_size : nat.
(** [sizeof(pcap_reader_state_t)]. *)
Variable sizeof_state : N.

(** [PcapReaderBind]; [heap] counts the allocation requests made so far. *)
Definition PcapReaderBind (filename_value : option string) (heap : nat)
  : bind_result * nat :=
  match filename_value with
  | None => (BindError MissingInput, heap)
  | Some name =>
      if negb (duckdb_malloc heap sizeof_state)
      then (BindError StateAllocationFailure, S heap)
      else
        let filename_len := strlen name + 1 in
        if negb (duckdb_malloc (S heap) filename_len)
        then (BindError FilenameAllocationFailure, S (S heap))
        else
          (BindData
             {| file := None;
                file_header := None;
                needs_swap := false;
                is_nanosecond := false;
                filename := name;
                is_stdin := (strncmp name "/dev/stdin"%string 11 =? 0)%Z
                            || (strncmp name "-"%string 2 =? 0)%Z;
                packet_buffer := None;
                buffer_size := 0 |},
           S (S heap))
  end.

(** Lines 147-169: standard input, or the named file. *)
Definition open_input (bind_state : pcap_reader_state_t) : option FILE :=
  if is_stdin bind_state
  then Some {| unread := stdin; at_eof := false |}
  else match fopen (filename bind_state) with
       | Some content => Some {| unread := content; at_eof := false |}
       | None => None
       end.

Definition PcapReaderInit (bind_state : pcap_reader_state_t) (heap : nat)
  : init_result * nat :=
  if negb (duckdb_malloc heap sizeof_state)
  then (InitError StateAllocationFailure false, S heap)
  else
    match open_input bind_state with
    | None => (InitError OpenFailure false, S heap)
    | Some f =>
        let '(block, items, f1) := fread sizeof_pcap_file_header_t 1 f in
        if negb (items =? 1)
        then (InitError TruncatedHeader (negb (is_stdin bind_state)), S heap)
        else
          let hdr := parse_file_header host block in
          match negotiate hdr with
          | None => (InitError UnsupportedMagic (negb (is_stdin bind_state)), S heap)
          | Some (swap, nano, snap) =>
              if negb (duckdb_malloc (S heap) snap)
              then (InitError AllocationFailure (negb (is_stdin bind_state)), S (S heap))
              else
                (InitData
                   {| file := Some f1;
                      file_header := Some (with_snaplen hdr snap);
                      needs_swap := swap;
                      is_nanosecond := nano;
                      filename := filename bind_state;
                      is_stdin := is_stdin bind_state;
                      packet_buffer := Some [];
                      buffer_size := snap |},
                 S (S heap))
          end
    end.

(** [PcapReaderInitDataFree]. *)
Definition PcapReaderInitDataFree (data : option pcap_reader_state_t) : list release :=
  match data with
  | None => []
  | Some st =>
      (match file st with
       | Some _ => if negb (is_stdin st) then [Fclose] else []
       | None => []
       end)
      ++ (match packet_buffer st with
          | Some _ => [FreePacketBuffer]
          | None => []
          end)
      ++ [FreeState]
  end.

(** One turn of the loop of [PcapReaderFunction], lines 245-296: the row
    it stores, or nothing where the C code leaves the loop. *)
Definition read_packet (st : pcap_reader_state_t) (f : FILE) (heap : nat)
  : option row * pcap_reader_state_t * nat :=
  let '(block, items, f1) := fread sizeof_pcap_packet_header_t 1 f in
  if negb (items =? 1) then (None, set_file st f1, heap)
  else
    let packet_header := decode_packet_header host (needs_swap st) block in
    let ts := convert_timestamp (is_nanosecond st) packet_header in
    let grown :=
      if buffer_size st <? caplen packet_header
      then if duckdb_malloc heap (caplen packet_header)
           then Some (set_buffer st (Some []) (caplen packet_header), S heap)
           else None
      else Some (st, heap) in
    match grown with
    | None => (None, set_file st f1, S heap)
    | Some (st1, heap1) =>
        let '(bytes, got, f2) := fread 1 (caplen packet_header) f1 in
        let written := bytes ++ skipn (length bytes) (buffer_bytes st1) in
        let st2 := set_file (set_buffer st1 (Some written) (buffer_size st1)) f2 in
        if negb (got =? caplen packet_header) then (None, st2, heap1)
        else
          (Some {| timestamp_ns := ts;
                   original_len := len packet_header;
                   capture_len := caplen packet_header;
                   data := firstn (N.to_nat (caplen packet_header)) written |},
           st2, heap1)
    end.

(** The [while] loop, with [todo = max_rows - row_count] turns left. *)
Fixpoint read_loop (todo : nat) (st : pcap_reader_state_t) (heap : nat)
  : list row * pcap_reader_state_t * nat :=
  match todo with
  | O => ([], st, heap)
  | S todo' =>
      match file st with
      | None => ([], st, heap)
      | Some f =>
          if feof f then ([], st, heap)
          else
            match read_packet st f heap with
            | (None, st1, heap1) => ([], st1, heap1)
            | (Some r, st1, heap1) =>
                let '(rows, st2, heap2) := read_loop todo' st1 heap1 in
                (r :: rows, st2, heap2)
            end
      end
  end.

(** [PcapReaderFunction]: the rows of the chunk, in order. *)
Definition PcapReaderFunction (init_data : option pcap_reader_state_t) (heap : nat)
  : list row * option pcap_reader_state_t * nat :=
  match init_data with
  | None => ([], None, heap)
  | Some st =>
      match file st with
      | None => ([], Some st, heap)
      | Some _ =>
          let '(rows, st1, heap1) := read_loop duckdb_vector_size st heap in
          (rows, Some st1, heap1)
      end
  end.

(** The host calls the function until it hands back an empty chunk. *)
Fixpoint scan (fuel : nat) (init_data : option pcap_reader_state_t) (heap : nat)
  : option (list row) :=
  match fuel with
  | O => None
  | S fuel' =>
      match PcapReaderFunction init_data heap with
      | ([], _, _) => Some []
      | (chunk, data1, heap1) =>
          match scan fuel' data1 heap1 with
          | Some rows => Some (chunk ++ rows)
          | None => None
          end
      end
  end.

(** The whole query: bind, init, then chunks until the empty one. *)
Definition read_pcap (filename_value : option string) (fuel : nat)
  : reader_error + option (list row) :=
  match PcapReaderBind filename_value 0 with
  | (BindError e, _) => inl e
  | (BindData bind_state, heap) =>
      match PcapReaderInit bind_state heap with
      | (InitError e _, _) => inl e
      | (InitData st, heap1) => inr (scan fuel (Some st) heap1)
      end
  end.

End Reader.

(** ** States the loop passes through *)

(** The state once the buffer holds [c] bytes at least. *)
Definition after_growth (st : pcap_reader_state_t) (c : N) : pcap_reader_state_t :=
  if buffer_size st <? c then set_buffer st (Some []) c else st.

(** The state once [bytes] were read into the buffer and the stream is [f]. *)
Definition after_payload (st : pcap_reader_state_t) (bytes : list byte) (f : FILE)
  : pcap_reader_state_t :=
  set_file
    (set_buffer st (Some (bytes ++ skipn (length bytes) (buffer_bytes st)))
                (buffer_size st))
    f.

Definition exhausted : FILE := {| unread := []; at_eof := true |}.

(** The bytes a reader has not consumed. *)
Definition unread_of (data : option pcap_reader_state_t) : list byte :=
  match data with
  | Some st =>
      match file st with
      | Some f => unread f
      | None => []
      end
  | None => []
  end.

(** Once the end-of-file indicator is set, nothing is left to read. *)
Definition stream_ok (f : FILE) : Prop := at_eof f = true -> unread f = [].

(** An allocator that grants the first [n] requests only. *)
Definition granted_before (n : nat) : nat -> N -> bool := fun k _ => Nat.ltb k n.

(** ** Describing capture files *)

(** A complete record as it lies in the file: the 16 bytes of its header
    and the bytes of its payload. *)
Definition record_bytes : Type := (list byte * list byte)%type.

Definition layout (recs : list record_bytes) : list byte :=
  concat (map (fun r => fst r ++ snd r) recs).

(** The header is whole and announces as many bytes as the payload has. *)
Definition complete_record (host : endianness) (swap : bool) (r : record_bytes) : Prop :=
  length (fst r) = 16%nat /\
  caplen (decode_packet_header host swap (fst r)) = N.of_nat (length (snd r)).

(** The row a complete record stands for. *)
Definition row_of (host : endianness) (swap nano : bool) (r : record_bytes) : row :=
  let h := decode_packet_header host swap (fst r) in
  {| timestamp_ns := convert_timestamp nano h;
     original_len := len h;
     capture_len := caplen h;
     data := snd r |}.

(** How a file can end after its last complete record: at once, inside a
    record header, or inside a payload. *)
Inductive stream_end (host : endianness) (swap : bool) : list byte -> Prop :=
| clean_end : stream_end host swap []
| partial_header : forall t,
    (1 <= length t <= 15)%nat -> stream_end host swap t
| partial_payload : forall h p,
    length h = 16%nat ->
    N.of_nat (length p) < caplen (decode_packet_header host swap h) ->
    stream_end host swap (h ++ p).

(** The same file written in the other byte order. *)
Definition rev4 (bs : list byte) (off : nat) : list byte :=
  [nth (off + 3) bs x00; nth (off + 2) bs x00; nth (off + 1) bs x00; nth off bs x00].

Definition rev2 (bs : list byte) (off : nat) : list byte :=
  [nth (off + 1) bs x00; nth off bs x00].

Definition swap_file_header_bytes (h : list byte) : list byte :=
  rev4 h 0 ++ rev2 h 4 ++ rev2 h 6 ++ rev4 h 8 ++ rev4 h 12 ++ rev4 h 16 ++ rev4 h 20.

Definition swap_packet_header_bytes (h : list byte) : list byte :=
  rev4 h 0 ++ rev4 h 4 ++ rev4 h 8 ++ rev4 h 12.

(** Record by record: the header fields are reversed, the payload is kept.
    What is left after the last complete record is kept as it is, but for
    the header of a record whose payload is cut short. *)
Fixpoint swap_records (host : endianness) (swap : bool) (fuel : nat) (bs : list byte)
  : list byte :=
  match fuel with
  | O => bs
  | S fuel' =>
      if N.of_nat (length bs) <? 16 then bs
      else
        let h := firstn 16 bs in
        let rest := skipn 16 bs in
        let c := caplen (decode_packet_header host swap h) in
        if N.of_nat (length rest) <? c
        then swap_packet_header_bytes h ++ rest
        else swap_packet_header_bytes h
             ++ firstn (N.to_nat c) rest
             ++ swap_records host swap fuel' (skipn (N.to_nat c) rest)
  end.

Definition byte_swap_header_and_records (host : endianness) (bs : list byte) : list byte :=
  if N.of_nat (length bs) <? 24 then bs
  else
    let h := firstn 24 bs in
    let rest := skipn 24 bs in
    match negotiate (parse_file_header host h) with
    | Some (swap, _, _) =>
        swap_file_header_bytes h ++ swap_records host swap (length rest) rest
    | None => swap_file_header_bytes h ++ rest
    end.

(** The environment in which every file, and standard input, is written in
    the other byte order. *)
Definition swapped_fopen (host : endianness) (fopen : string -> option (list byte))
  : string -> option (list byte) :=
  fun name => option_map (byte_swap_header_and_records host) (fopen name).

(** Two streams at the same place of a capture and of its swapped form. *)
Definition twin_files (host : endianness) (swap : bool) (f1 f2 : FILE) : Prop :=
  at_eof f2 = at_eof f1 /\
  exists k, (length (unread f1) <= k)%nat /\
            unread f2 = swap_records host swap k (unread f1).

(** Two readers at the same place of a capture and of its swapped form:
    they differ by the swap flag and by the bytes still to read. *)
Definition twin_core (st1 st2 : pcap_reader_state_t) : Prop :=
  needs_swap st2 = negb (needs_swap st1) /\
  is_nanosecond st2 = is_nanosecond st1 /\
  buffer_size st2 = buffer_size st1 /\
  packet_buffer st2 = packet_buffer st1.

Definition twin_states (host : endianness) (st1 st2 : pcap_reader_state_t) : Prop :=
  twin_core st1 st2 /\
  exists f1 f2,
    file st1 = Some f1 /\ file st2 = Some f2 /\
    twin_files host (needs_swap st1) f1 f2.

(** Writing test files: the bytes of a value in host order. *)
Definition byte_of (n : N) : byte :=
  match Byte.of_N (n mod 256) with
  | Some b => b
  | None => x00
  end.

Definition store32 (host : endianness) (n : N) : list byte :=
  let b0 := byte_of n in
  let b1 := byte_of (N.shiftr n 8) in
  let b2 := byte_of (N.shiftr n 16) in
  let b3 := byte_of (N.shiftr n 24) in
  match host with
  | LittleEndian => [b0; b1; b2; b3]
  | BigEndian => [b3; b2; b1; b0]
  end.

Definition store16 (host : endianness) (n : N) : list byte :=
  let b0 := byte_of n in
  let b1 := byte_of (N.shiftr n 8) in
  match host with
  | LittleEndian => [b0; b1]
  | BigEndian => [b1; b0]
  end.

(** A version 2.4 capture header with the given magic number and snapshot
    length, link type Ethernet. *)
Definition file_header_bytes (host : endianness) (magic snap : N) : list byte :=
  store32 host magic ++ store16 host 2 ++ store16 host 4
  ++ store32 host 0 ++ store32 host 0 ++ store32 host snap ++ store32 host 1.

Definition packet_header_bytes (host : endianness) (sec usec cap orig : N) : list byte :=
  store32 host sec ++ store32 host usec ++ store32 host cap ++ store32 host orig.

(** [PcapReaderInit] came back with init data carrying these flags. *)
Definition init_selects (result : init_result) (swap nano : bool) : Prop :=
  exists st, result = InitData st /\ needs_swap st = swap /\ is_nanosecond st = nano.

(** Bind data as [PcapReaderBind] leaves it for a named file. *)
Definition bind_state_of (name : string) (from_stdin : bool) : pcap_reader_state_t :=
  {| file := None;
     file_header := None;
     needs_swap := false;
     is_nanosecond := false;
     filename := name;
     is_stdin := from_stdin;
     packet_buffer := None;
     buffer_size := 0 |}.

(** Init data reading [content] with the given flags and an empty buffer
    of [size] bytes. *)
Definition init_data_of (content : list byte) (swap nano : bool) (size : N)
  : pcap_reader_state_t :=
  {| file := Some {| unread := content; at_eof := false |};
     file_header := None;
     needs_swap := swap;
     is_nanosecond := nano;
     filename := "capture.pcap";
     is_stdin := false;
     packet_buffer := Some [];
     buffer_size := size |}.

Definition one_file (content : list byte) : string -> option (list byte) :=
  fun _ => Some content.

Definition no_file : string -> option (list byte) := fun _ => None.
Definition always_granted : nat -> N -> bool := fun _ _ => true.

(** ** Writing captures *)

(** A captured frame as the capturing program holds it: the two fields of
    its timestamp, its length on the wire and the bytes that were saved. *)
Record packet : Type := mk_packet {
  pk_sec : N;
  pk_usec : N;
  pk_len : N;
  pk_data : list byte
}.

(** The fields fit the [uint32_t] members of [pcap_packet_header_t]. *)
Definition packet_ok (pk : packet) : Prop :=
  pk_sec pk < 2 ^ 32 /\ pk_usec pk < 2 ^ 32 /\ pk_len pk < 2 ^ 32 /\
  N.of_nat (length (pk_data pk)) < 2 ^ 32.

(** The bytes of a [pcap_file_header_t] in the memory of a machine of byte
    order [w], field after field. *)
Definition write_file_header (w : endianness) (hdr : pcap_file_header_t) : list byte :=
  store32 w (magic_number hdr) ++ store16 w (version_major hdr)
  ++ store16 w (version_minor hdr)
  ++ store32 w (Z.to_N (thiszone hdr mod 2 ^ 32))
  ++ store32 w (sigfigs hdr) ++ store32 w (snaplen hdr) ++ store32 w (network hdr).

(** The bytes of the [pcap_packet_header_t] of a frame, [caplen] being the
    number of bytes saved. *)
Definition write_packet_header (w : endianness) (pk : packet) : list byte :=
  store32 w (pk_sec pk) ++ store32 w (pk_usec pk)
  ++ store32 w (N.of_nat (length (pk_data pk))) ++ store32 w (pk_len pk).

Definition write_packet (w : endianness) (pk : packet) : record_bytes :=
  (write_packet_header w pk, pk_data pk).

(** A capture written on a machine of byte order [w]. *)
Definition write_capture (w : endianness) (hdr : pcap_file_header_t) (pks : list packet)
  : list byte :=
  write_file_header w hdr ++ layout (map (write_packet w) pks).

(** The row a frame is expected to come back as. *)
Definition row_of_packet (nano : bool) (pk : packet) : row :=
  {| timestamp_ns :=
       pk_sec pk * 1000000000 + (if nano then pk_usec pk else pk_usec pk * 1000);
     original_len := pk_len pk;
     capture_len := N.of_nat (length (pk_data pk));
     data := pk_data pk |}.

Definition same_order (a b : endianness) : bool :=
  match a, b with
  | LittleEndian, LittleEndian | BigEndian, BigEndian => true
  | _, _ => false
  end.

(** ** Readers that differ by what the loop does not look at *)

(** The members of the state the loop reads or writes are the same. *)
Definition same_reader (st1 st2 : pcap_reader_state_t) : Prop :=
  file st1 = file st2 /\
  needs_swap st1 = needs_swap st2 /\
  is_nanosecond st1 = is_nanosecond st2 /\
  packet_buffer st1 = packet_buffer st2 /\
  buffer_size st1 = buffer_size st2.

(** The members of the state that [PcapReaderInit] sets once and for all. *)
Definition same_context (st1 st2 : pcap_reader_state_t) : Prop :=
  file_header st1 = file_header st2 /\
  needs_swap st1 = needs_swap st2 /\
  is_nanosecond st1 = is_nanosecond st2 /\
  filename st1 = filename st2 /\
  is_stdin st1 = is_stdin st2.

(** The capture header with its informational fields (version, time zone,
    accuracy, link type) left out: the magic number and the snapshot
    length. *)
Definition decisive_bytes (hd : list byte) : list byte :=
  firstn 4 hd ++ firstn 4 (skipn 16 hd).

(** The bytes of [whole] that come before its suffix [rest]. *)
Definition is_suffix (rest whole : list byte) : Prop :=
  exists consumed, whole = consumed ++ rest.

(** A row fits the columns [PcapReaderBind] declares: a BLOB of exactly
    [capture_len] bytes, two UINTEGER values and a UBIGINT value. *)
Definition row_ok (r : row) : Prop :=
  N.of_nat (length (data r)) = capture_len r /\
  capture_len r < 2 ^ 32 /\
  original_len r < 2 ^ 32 /\
  timestamp_ns r < 2 ^ 64.

(** The bytes a query on [name] reads: standard input for the two names
    that stand for it, the content [fopen] gives otherwise. *)
Definition input_of (fopen : string -> option (list byte)) (stdin : list byte)
           (name : string) : option (list byte) :=
  if (String.eqb name "-" || String.eqb name "/dev/stdin")%bool
  then Some stdin
  else fopen name.

(** ** Growths the loop asks for *)

Definition payload_length (r : record_bytes) : N := N.of_nat (length (snd r)).

(** The allocator grants each growth of the buffer that the loop asks for
    when it reads, one after the other, headers announcing the captured
    lengths [wanted], with a buffer of [size] bytes to start with and [heap]
    requests made before: a length above the size of the buffer is a
    request, for that length, and the buffer has that size afterwards. *)
Fixpoint growths_granted (duckdb_malloc : nat -> N -> bool) (heap : nat) (size : N)
         (wanted : list N) : Prop :=
  match wanted with
  | [] => True
  | c :: more =>
      if size <? c
      then duckdb_malloc heap c = true /\ growths_granted duckdb_malloc (S heap) c more
      else growths_granted duckdb_malloc heap size more
  end.

(** How the stream goes on after its last complete record, with the
    captured length its cut record announces, if it announces one: the
    stream ends there or inside a record header, or inside a payload. *)
Definition cut (host : endianness) (swap : bool) (tail : list byte) (extra : list N) : Prop :=
  (length tail <= 15)%nat /\ extra = [] \/
  exists h p,
    tail = h ++ p /\ length h = 16%nat /\
    N.of_nat (length p) < caplen (decode_packet_header host swap h) /\
    extra = [caplen (decode_packet_header host swap h)].

(** * Properties *)

(** ** Byte order *)

Example swap32_magic : swap32 PCAP_MAGIC_NATIVE = PCAP_MAGIC_SWAPPED.
Proof. reflexivity. Qed.

Example swap32_nano_magic :
  swap32 PCAP_MAGIC_NANO_NATIVE = PCAP_MAGIC_NANO_SWAPPED.
Proof. reflexivity. Qed.

(** Decides an equation between disjunctions of the same bits. *)
Ltac bool_atoms :=
  repeat match goal with
         | |- context [N.testbit ?a ?b] => destruct (N.testbit a b)
         end;
  reflexivity.

Lemma swap32_lor a b : swap32 (N.lor a b) = N.lor (swap32 a) (swap32 b).
Proof.
  unfold swap32, wrap32.
  rewrite <- !N.land_ones.
  rewrite !N.land_lor_distr_l, !N.shiftr_lor, !N.shiftl_lor, !N.land_lor_distr_l.
  apply N.bits_inj; intro n.
  rewrite !N.lor_spec.
  bool_atoms.
Qed.

Lemma swap32_byte0 b : swap32 (byte_val b) = N.shiftl (byte_val b) 24.
Proof. destruct b; reflexivity. Qed.

Lemma swap32_byte1 b : swap32 (N.shiftl (byte_val b) 8) = N.shiftl (byte_val b) 16.
Proof. destruct b; reflexivity. Qed.

Lemma swap32_byte2 b : swap32 (N.shiftl (byte_val b) 16) = N.shiftl (byte_val b) 8.
Proof. destruct b; reflexivity. Qed.

Lemma swap32_byte3 b : swap32 (N.shiftl (byte_val b) 24) = byte_val b.
Proof. destruct b; reflexivity. Qed.

Lemma swap32_le32 b0 b1 b2 b3 : swap32 (le32 b0 b1 b2 b3) = le32 b3 b2 b1 b0.
Proof.
  unfold le32.
  rewrite !swap32_lor, swap32_byte0, swap32_byte1, swap32_byte2, swap32_byte3.
  apply N.bits_inj; intro n.
  rewrite !N.lor_spec.
  bool_atoms.
Qed.

Lemma lor_lt_pow2 n a b : a < 2 ^ n -> b < 2 ^ n -> N.lor a b < 2 ^ n.
Proof.
  intros Ha Hb.
  rewrite <- (N.mod_small a (2 ^ n)), <- (N.mod_small b (2 ^ n)) by assumption.
  rewrite <- !N.land_ones, <- N.land_lor_distr_l, N.land_ones.
  apply N.mod_lt, N.pow_nonzero; discriminate.
Qed.

Lemma byte_val_lt b : byte_val b < 256.
Proof. destruct b; reflexivity. Qed.

Lemma le32_lt b0 b1 b2 b3 : le32 b0 b1 b2 b3 < 2 ^ 32.
Proof.
  pose proof (byte_val_lt b0); pose proof (byte_val_lt b1).
  pose proof (byte_val_lt b2); pose proof (byte_val_lt b3).
  unfold le32.
  repeat apply lor_lt_pow2; rewrite ?N.shiftl_mul_pow2;
    change (2 ^ 32) with 4294967296; change (2 ^ 8) with 256;
    change (2 ^ 16) with 65536; change (2 ^ 24) with 16777216; lia.
Qed.

Lemma load32_lt host block off : load32 host block off < 2 ^ 32.
Proof. unfold load32; destruct host; apply le32_lt. Qed.

Lemma swap32_load32 host block off :
  swap32 (load32 host block off) = load32 (other_order host) block off.
Proof. unfold load32; destruct host; apply swap32_le32. Qed.

Lemma swap32_involutive_load32 host block off :
  swap32 (swap32 (load32 host block off)) = load32 host block off.
Proof. rewrite !swap32_load32; destruct host; reflexivity. Qed.

Lemma decode_packet_header_bounds host swap block :
  let h := decode_packet_header host swap block in
  ts_sec h < 2 ^ 32 /\ ts_usec h < 2 ^ 32 /\ caplen h < 2 ^ 32 /\ len h < 2 ^ 32.
Proof.
  unfold decode_packet_header, parse_packet_header, swap_packet_header.
  destruct swap; cbn [ts_sec ts_usec caplen len];
    rewrite ?swap32_load32; repeat split; apply load32_lt.
Qed.

(** ** Streams *)

Lemma fread_enough size nmemb f :
  size * nmemb <> 0 ->
  size * nmemb <= N.of_nat (length (unread f)) ->
  fread size nmemb f =
    (firstn (N.to_nat (size * nmemb)) (unread f), nmemb,
     {| unread := skipn (N.to_nat (size * nmemb)) (unread f); at_eof := at_eof f |}).
Proof.
  intros Hnz Hle. unfold fread.
  destruct (N.eqb_spec (size * nmemb) 0) as [E | _]; [contradiction |].
  destruct (N.leb_spec (size * nmemb) (N.of_nat (length (unread f)))) as [_ | Hlt];
    [reflexivity | lia].
Qed.

Lemma fread_short size nmemb f :
  N.of_nat (length (unread f)) < size * nmemb ->
  fread size nmemb f =
    (unread f, N.of_nat (length (unread f)) / size, {| unread := []; at_eof := true |}).
Proof.
  intros Hlt. unfold fread.
  destruct (N.eqb_spec (size * nmemb) 0) as [E | _]; [lia |].
  destruct (N.leb_spec (size * nmemb) (N.of_nat (length (unread f)))) as [Hle | _];
    [lia | reflexivity].
Qed.

Lemma fread_nothing size f : fread size 0 f = ([], 0, f).
Proof. unfold fread. rewrite N.mul_0_r. reflexivity. Qed.

(** ** Opening a capture *)

Section Init.

Variable host : endianness.
Variable duckdb_malloc : nat -> N -> bool.
Variable fopen : string -> option (list byte).
Variable stdin : list byte.
Variable duckdb_vector_size : nat.
Variable sizeof_state : N.

Local Abbreviation Init := (PcapReaderInit host duckdb_malloc fopen stdin sizeof_state).

Lemma open_input_fresh bind_state f :
  open_input fopen stdin bind_state = Some f -> at_eof f = false.
Proof.
  unfold open_input.
  destruct (is_stdin bind_state); [| destruct (fopen _)];
    intros E; inversion E; reflexivity.
Qed.

(** The result of [PcapReaderInit] once the state is allocated and the
    stream is open with a whole header in it. *)
Lemma PcapReaderInit_header bind_state heap f :
  duckdb_malloc heap sizeof_state = true ->
  open_input fopen stdin bind_state = Some f ->
  (24 <= length (unread f))%nat ->
  Init bind_state heap =
    let hdr := parse_file_header host (firstn 24 (unread f)) in
    match negotiate hdr with
    | None => (InitError UnsupportedMagic (negb (is_stdin bind_state)), S heap)
    | Some (swap, nano, snap) =>
        if duckdb_malloc (S heap) snap
        then (InitData
                {| file := Some {| unread := skipn 24 (unread f); at_eof := false |};
                   file_header := Some (with_snaplen hdr snap);
                   needs_swap := swap;
                   is_nanosecond := nano;
                   filename := filename bind_state;
                   is_stdin := is_stdin bind_state;
                   packet_buffer := Some [];
                   buffer_size := snap |},
              S (S heap))
        else (InitError AllocationFailure (negb (is_stdin bind_state)), S (S heap))
    end.
Proof.
  intros Hstate Hopen Hlen.
  unfold PcapReaderInit.
  rewrite Hstate, Hopen. cbn [negb].
  rewrite fread_enough by (unfold sizeof_pcap_file_header_t; lia).
  rewrite (open_input_fresh _ _ Hopen).
  cbn [N.eqb Pos.eqb negb].
  change (N.to_nat (sizeof_pcap_file_header_t * 1)) with 24%nat.
  cbv zeta.
  destruct (negotiate _) as [[[swap nano] snap] |]; [| reflexivity].
  destruct (duckdb_malloc (S heap) snap); reflexivity.
Qed.

Lemma PcapReaderInit_truncated bind_state heap f :
  duckdb_malloc heap sizeof_state = true ->
  open_input fopen stdin bind_state = Some f ->
  (length (unread f) < 24)%nat ->
  Init bind_state heap =
    (InitError TruncatedHeader (negb (is_stdin bind_state)), S heap).
Proof.
  intros Hstate Hopen Hlen.
  unfold PcapReaderInit.
  rewrite Hstate, Hopen. cbn [negb].
  rewrite fread_short by (unfold sizeof_pcap_file_header_t; lia).
  rewrite N.div_small by (unfold sizeof_pcap_file_header_t; lia).
  reflexivity.
Qed.

End Init.

Lemma negotiate_cases hdr :
  (magic_number hdr = 0xa1b2c3d4 -> negotiate hdr = Some (false, false, snaplen hdr)) /\
  (magic_number hdr = 0xd4c3b2a1 ->
   negotiate hdr = Some (true, false, swap32 (snaplen hdr))) /\
  (magic_number hdr = 0xa1b23c4d -> negotiate hdr = Some (false, true, snaplen hdr)) /\
  (magic_number hdr = 0x4d3cb2a1 ->
   negotiate hdr = Some (true, true, swap32 (snaplen hdr))) /\
  (magic_number hdr <> 0xa1b2c3d4 -> magic_number hdr <> 0xd4c3b2a1 ->
   magic_number hdr <> 0xa1b23c4d -> magic_number hdr <> 0x4d3cb2a1 ->
   negotiate hdr = None).
Proof.
  unfold negotiate, PCAP_MAGIC_NATIVE, PCAP_MAGIC_SWAPPED,
    PCAP_MAGIC_NANO_NATIVE, PCAP_MAGIC_NANO_SWAPPED.
  repeat split.
  - intros ->; reflexivity.
  - intros ->; reflexivity.
  - intros ->; reflexivity.
  - intros ->; reflexivity.
  - intros H1 H2 H3 H4.
    apply N.eqb_neq in H1, H2, H3, H4.
    rewrite H1, H2, H3, H4. reflexivity.
Qed.

(** C1: for a whole 24-byte capture header, [PcapReaderInit] selects
    (no swap, microseconds) for the magic number 0xa1b2c3d4, (swap,
    microseconds) for 0xd4c3b2a1, (no swap, nanoseconds) for 0xa1b23c4d and
    (swap, nanoseconds) for 0x4d3cb2a1, the packet buffer being granted; for
    every other magic number it fails with the invalid-magic error, and the
    query ends with that error instead of rows. *)
Theorem magic_selects_order_and_unit :
  forall host duckdb_malloc fopen stdin duckdb_vector_size sizeof_state
         bind_state heap f,
    duckdb_malloc heap sizeof_state = true ->
    open_input fopen stdin bind_state = Some f ->
    (24 <= length (unread f))%nat ->
    let hdr := parse_file_header host (firstn 24 (unread f)) in
    let result :=
      fst (PcapReaderInit host duckdb_malloc fopen stdin sizeof_state bind_state heap) in
    (magic_number hdr = 0xa1b2c3d4 ->
     duckdb_malloc (S heap) (snaplen hdr) = true ->
     init_selects result false false) /\
    (magic_number hdr = 0xd4c3b2a1 ->
     duckdb_malloc (S heap) (swap32 (snaplen hdr)) = true ->
     init_selects result true false) /\
    (magic_number hdr = 0xa1b23c4d ->
     duckdb_malloc (S heap) (snaplen hdr) = true ->
     init_selects result false true) /\
    (magic_number hdr = 0x4d3cb2a1 ->
     duckdb_malloc (S heap) (swap32 (snaplen hdr)) = true ->
     init_selects result true true) /\
    (magic_number hdr <> 0xa1b2c3d4 -> magic_number hdr <> 0xd4c3b2a1 ->
     magic_number hdr <> 0xa1b23c4d -> magic_number hdr <> 0x4d3cb2a1 ->
     result = InitError UnsupportedMagic (negb (is_stdin bind_state)) /\
     forall filename_value fuel,
       PcapReaderBind duckdb_malloc sizeof_state filename_value 0
       = (BindData bind_state, heap) ->
       read_pcap host duckdb_malloc fopen stdin duckdb_vector_size sizeof_state
                 filename_value fuel
       = inl UnsupportedMagic).
Proof.
  intros host duckdb_malloc fopen stdin vs sizeof_state bind_state heap f
         Hstate Hopen Hlen hdr result.
  pose proof (PcapReaderInit_header host duckdb_malloc fopen stdin sizeof_state
                bind_state heap f Hstate Hopen Hlen) as Hinit.
  cbv zeta in Hinit. fold hdr in Hinit.
  destruct (negotiate_cases hdr) as (N1 & N2 & N3 & N4 & N5).
  assert (Hsel : forall swap nano hint,
             negotiate hdr = Some (swap, nano, hint) ->
             duckdb_malloc (S heap) hint = true ->
             init_selects result swap nano).
  { intros swap nano hint Hneg Hbuf.
    subst result. rewrite Hinit, Hneg, Hbuf.
    eexists; repeat split. }
  repeat split.
  - intros Hm Hbuf. exact (Hsel _ _ _ (N1 Hm) Hbuf).
  - intros Hm Hbuf. exact (Hsel _ _ _ (N2 Hm) Hbuf).
  - intros Hm Hbuf. exact (Hsel _ _ _ (N3 Hm) Hbuf).
  - intros Hm Hbuf. exact (Hsel _ _ _ (N4 Hm) Hbuf).
  - subst result. rewrite Hinit, (N5 H H0 H1 H2). reflexivity.
  - intros filename_value fuel Hbind.
    unfold read_pcap. rewrite Hbind, Hinit, (N5 H H0 H1 H2). reflexivity.
Qed.

Lemma magic_selects_order_and_unit_witness :
  let content := file_header_bytes LittleEndian PCAP_MAGIC_SWAPPED 0 in
  let bind_state := bind_state_of "capture.pcap" false in
  open_input (one_file content) [] bind_state
  = Some {| unread := content; at_eof := false |} /\
  init_selects
    (fst (PcapReaderInit LittleEndian always_granted (one_file content) [] 80
            bind_state 2))
    true false.
Proof.
  intros content bind_state.
  split; [reflexivity |].
  pose proof (magic_selects_order_and_unit
                LittleEndian always_granted (one_file content) [] 2048%nat 80
                bind_state 2 {| unread := content; at_eof := false |}
                eq_refl eq_refl) as H.
  cbv zeta in H.
  destruct H as (_ & H & _).
  - vm_compute. lia.
  - apply H; reflexivity.
Defined.

(** C9: when the stream holds fewer than the 24 bytes of the capture
    header, [PcapReaderInit] fails with the header-read error, there is no
    init data to decode records from, and the query ends with that error. *)
Theorem short_header_is_fatal :
  forall host duckdb_malloc fopen stdin duckdb_vector_size sizeof_state
         bind_state heap f,
    duckdb_malloc heap sizeof_state = true ->
    open_input fopen stdin bind_state = Some f ->
    (length (unread f) < 24)%nat ->
    PcapReaderInit host duckdb_malloc fopen stdin sizeof_state bind_state heap
    = (InitError TruncatedHeader (negb (is_stdin bind_state)), S heap) /\
    forall filename_value fuel,
      PcapReaderBind duckdb_malloc sizeof_state filename_value 0
      = (BindData bind_state, heap) ->
      read_pcap host duckdb_malloc fopen stdin duckdb_vector_size sizeof_state
                filename_value fuel
      = inl TruncatedHeader.
Proof.
  intros host duckdb_malloc fopen stdin vs sizeof_state bind_state heap f
         Hstate Hopen Hlen.
  pose proof (PcapReaderInit_truncated host duckdb_malloc fopen stdin sizeof_state
                bind_state heap f Hstate Hopen Hlen) as Hinit.
  split; [exact Hinit |].
  intros filename_value fuel Hbind.
  unfold read_pcap. rewrite Hbind, Hinit. reflexivity.
Qed.

Lemma short_header_is_fatal_witness :
  let content := firstn 23 (file_header_bytes LittleEndian PCAP_MAGIC_NATIVE 65535) in
  (length content < 24)%nat /\
  read_pcap LittleEndian always_granted (one_file content) [] 2048 80
            (Some "capture.pcap"%string) 1
  = inl TruncatedHeader.
Proof.
  intros content.
  split; [vm_compute; lia |].
  apply (short_header_is_fatal
           LittleEndian always_granted (one_file content) [] 2048%nat 80
           (bind_state_of "capture.pcap" false) 2
           {| unread := content; at_eof := false |}).
  - reflexivity.
  - reflexivity.
  - vm_compute. lia.
  - reflexivity.
Defined.

(** ** One record *)

Section Packet.

Variable host : endianness.
Variable duckdb_malloc : nat -> N -> bool.

(** [read_packet] without the C library: what one turn of the loop does,
    by the number of bytes the stream still has. *)
Lemma read_packet_eq st f heap :
  read_packet host duckdb_malloc st f heap =
    if N.of_nat (length (unread f)) <? 16
    then (None, set_file st exhausted, heap)
    else
      let h := decode_packet_header host (needs_swap st) (firstn 16 (unread f)) in
      let rest := skipn 16 (unread f) in
      let c := caplen h in
      if (buffer_size st <? c) && negb (duckdb_malloc heap c)
      then (None, set_file st {| unread := rest; at_eof := at_eof f |}, S heap)
      else
        let st1 := after_growth st c in
        let heap1 := if buffer_size st <? c then S heap else heap in
        if N.of_nat (length rest) <? c
        then (None, after_payload st1 rest exhausted, heap1)
        else
          (Some {| timestamp_ns := convert_timestamp (is_nanosecond st) h;
                   original_len := len h;
                   capture_len := c;
                   data := firstn (N.to_nat c) rest |},
           after_payload st1 (firstn (N.to_nat c) rest)
                         {| unread := skipn (N.to_nat c) rest; at_eof := at_eof f |},
           heap1).
Proof.
  unfold read_packet.
  destruct (N.ltb_spec (N.of_nat (length (unread f))) 16) as [Hshort | Hlong].
  - rewrite fread_short by (unfold sizeof_pcap_packet_header_t; lia).
    rewrite N.div_small by (unfold sizeof_pcap_packet_header_t; lia).
    reflexivity.
  - rewrite fread_enough by (unfold sizeof_pcap_packet_header_t; lia).
    change (N.to_nat (sizeof_pcap_packet_header_t * 1)) with 16%nat.
    cbn [N.eqb Pos.eqb negb]. cbv zeta.
    set (h := decode_packet_header host (needs_swap st) (firstn 16 (unread f))).
    set (rest := skipn 16 (unread f)).
    set (f1 := {| unread := rest; at_eof := at_eof f |}).
    unfold after_growth.
    destruct (buffer_size st <? caplen h) eqn:Hgrow; cbn [andb];
      [destruct (duckdb_malloc heap (caplen h)); cbn [negb]; [| reflexivity] |].
    all: destruct (N.eqb_spec (caplen h) 0) as [Hzero | Hpos].
    all: try (rewrite Hzero; rewrite fread_nothing;
              cbn [N.eqb negb N.to_nat firstn skipn length app N.of_nat];
              rewrite (proj2 (N.ltb_ge _ _)) by lia;
              subst f1; destruct rest; reflexivity).
    all: destruct (N.ltb_spec (N.of_nat (length rest)) (caplen h)) as [Hcut | Hfull].
    all: try (rewrite fread_short by (cbn [unread f1]; lia);
              cbn [unread f1]; rewrite N.div_1_r;
              rewrite (proj2 (N.eqb_neq _ _)) by lia;
              reflexivity).
    all: rewrite fread_enough by (cbn [unread f1]; lia);
      rewrite N.mul_1_l, N.eqb_refl; cbn [negb unread at_eof f1];
      unfold after_payload;
      rewrite firstn_app, length_firstn, Nat.min_l, Nat.sub_diag by lia;
      cbn [firstn]; rewrite app_nil_r, firstn_firstn, Nat.min_id;
      reflexivity.
Qed.

End Packet.

Section PacketFacts.

Variable host : endianness.
Variable duckdb_malloc : nat -> N -> bool.

(** What is known when a turn of the loop stores a row. *)
Lemma read_packet_Some st f heap r st' heap' :
  read_packet host duckdb_malloc st f heap = (Some r, st', heap') ->
  let h := decode_packet_header host (needs_swap st) (firstn 16 (unread f)) in
  let rest := skipn 16 (unread f) in
  16 <= N.of_nat (length (unread f)) /\
  caplen h <= N.of_nat (length rest) /\
  (buffer_size st < caplen h -> duckdb_malloc heap (caplen h) = true) /\
  r = {| timestamp_ns := convert_timestamp (is_nanosecond st) h;
         original_len := len h;
         capture_len := caplen h;
         data := firstn (N.to_nat (caplen h)) rest |} /\
  st' = after_payload (after_growth st (caplen h)) (firstn (N.to_nat (caplen h)) rest)
          {| unread := skipn (N.to_nat (caplen h)) rest; at_eof := at_eof f |} /\
  heap' = (if buffer_size st <? caplen h then S heap else heap).
Proof.
  rewrite read_packet_eq. cbv zeta.
  set (h := decode_packet_header host (needs_swap st) (firstn 16 (unread f))).
  set (rest := skipn 16 (unread f)).
  destruct (N.ltb_spec (N.of_nat (length (unread f))) 16) as [? | Hlong];
    [discriminate |].
  destruct (N.ltb_spec (buffer_size st) (caplen h)) as [Hgrow | Hfit]; cbn [andb].
  - destruct (duckdb_malloc heap (caplen h)) eqn:Hgrant; cbn [negb]; [| discriminate].
    destruct (N.ltb_spec (N.of_nat (length rest)) (caplen h)) as [? | Hfull];
      [discriminate |].
    intros E; inversion E; subst. repeat split; auto.
  - destruct (N.ltb_spec (N.of_nat (length rest)) (caplen h)) as [? | Hfull];
      [discriminate |].
    intros E; inversion E; subst. repeat split; auto. lia.
Qed.

End PacketFacts.

(** ** Timestamps *)

Lemma convert_timestamp_mod nano h :
  convert_timestamp nano h =
    (ts_sec h * 1000000000 + (if nano then ts_usec h else ts_usec h * 1000)) mod 2 ^ 64.
Proof.
  unfold convert_timestamp, wrap64.
  destruct nano.
  - apply N.Div0.add_mod_idemp_l.
  - symmetry. apply N.Div0.add_mod.
Qed.

Lemma convert_timestamp_exact nano h :
  ts_sec h < 2 ^ 32 -> ts_usec h < 2 ^ 32 ->
  convert_timestamp nano h =
    ts_sec h * 1000000000 + (if nano then ts_usec h else ts_usec h * 1000).
Proof.
  intros Hs Hu.
  rewrite convert_timestamp_mod.
  apply N.mod_small.
  change (2 ^ 32) with 4294967296 in *.
  change (2 ^ 64) with 18446744073709551616.
  destruct nano; lia.
Qed.

(** C3: the timestamp of every row the loop stores is seconds times
    1_000_000_000 plus the fraction in a nanosecond file, and seconds times
    1_000_000_000 plus the fraction times 1_000 in a microsecond file,
    taken modulo 2^64 without any overflow check (with 32-bit fields the sum
    stays below 2^64); seconds 1 and fraction 500000 in microseconds give
    1_500_000_000, seconds 1 and fraction 500 in nanoseconds give
    1_000_000_500. *)
Theorem timestamp_is_nanoseconds :
  forall host duckdb_malloc st f heap,
    let h := decode_packet_header host (needs_swap st) (firstn 16 (unread f)) in
    let total :=
      if is_nanosecond st
      then ts_sec h * 1000000000 + ts_usec h
      else ts_sec h * 1000000000 + ts_usec h * 1000 in
    (forall r st' heap',
        read_packet host duckdb_malloc st f heap = (Some r, st', heap') ->
        timestamp_ns r = total mod 2 ^ 64 /\ timestamp_ns r = total) /\
    (forall cap orig,
        convert_timestamp false
          {| ts_sec := 1; ts_usec := 500000; caplen := cap; len := orig |}
        = 1500000000) /\
    (forall cap orig,
        convert_timestamp true
          {| ts_sec := 1; ts_usec := 500; caplen := cap; len := orig |}
        = 1000000500).
Proof.
  intros host duckdb_malloc st f heap h total.
  split; [| split; reflexivity].
  intros r st' heap' Hread.
  apply read_packet_Some in Hread. cbv zeta in Hread.
  destruct Hread as (_ & _ & _ & -> & _).
  cbn [timestamp_ns]. fold h.
  destruct (decode_packet_header_bounds host (needs_swap st) (firstn 16 (unread f)))
    as (Hs & Hu & _).
  fold h in Hs, Hu.
  split.
  - rewrite convert_timestamp_mod. subst total. destruct (is_nanosecond st); reflexivity.
  - rewrite convert_timestamp_exact by assumption.
    subst total. destruct (is_nanosecond st); reflexivity.
Qed.

Lemma timestamp_is_nanoseconds_witness :
  let content :=
    packet_header_bytes LittleEndian 1 500000 2 60 ++ ["a"; "b"]%byte in
  match read_packet LittleEndian always_granted
          (init_data_of content false false 65535)
          {| unread := content; at_eof := false |} 4 with
  | (Some r, _, _) => timestamp_ns r = 1500000000
  | (None, _, _) => False
  end.
Proof.
  intros content.
  destruct (read_packet LittleEndian always_granted
              (init_data_of content false false 65535)
              {| unread := content; at_eof := false |} 4)
    as [[[r |] st'] heap'] eqn:E.
  - destruct (timestamp_is_nanoseconds LittleEndian always_granted
                (init_data_of content false false 65535)
                {| unread := content; at_eof := false |} 4) as [H _].
    destruct (H r st' heap' E) as [_ H'].
    rewrite H'. reflexivity.
  - vm_compute in E. discriminate.
Defined.

(** ** Choosing standard input *)

Lemma N_of_ascii_inj c1 c2 : N_of_ascii c1 = N_of_ascii c2 -> c1 = c2.
Proof.
  intros E. rewrite <- (ascii_N_embedding c1), <- (ascii_N_embedding c2), E.
  reflexivity.
Qed.

(** With a bound past the end of [s2], [strncmp] is zero for equal C strings
    only. *)
Lemma strncmp_zero_iff n :
  forall s1 s2,
    nul_free s1 = true -> nul_free s2 = true ->
    (String.length s2 < n)%nat ->
    (strncmp s1 s2 n = 0%Z <-> s1 = s2).
Proof.
  induction n as [| n IH]; intros s1 s2 H1 H2 Hlen; [inversion Hlen |].
  destruct s1 as [| c1 r1], s2 as [| c2 r2]; cbn [strncmp c_head c_tail].
  - cbn. tauto.
  - cbn [nul_free] in H2. apply andb_prop in H2 as [Hc2 _].
    unfold is_nul in Hc2. apply negb_true_iff, N.eqb_neq in Hc2.
    change (N_of_ascii zero) with 0.
    destruct (N.eqb_spec 0 (N_of_ascii c2)) as [E | _]; [congruence |].
    split; [lia | discriminate].
  - cbn [nul_free] in H1. apply andb_prop in H1 as [Hc1 _].
    unfold is_nul in Hc1. apply negb_true_iff, N.eqb_neq in Hc1.
    change (N_of_ascii zero) with 0.
    destruct (N.eqb_spec (N_of_ascii c1) 0) as [E | _]; [congruence |].
    split; [lia | discriminate].
  - cbn [nul_free] in H1, H2.
    apply andb_prop in H1 as [Hc1 Hr1]. apply andb_prop in H2 as [_ Hr2].
    apply negb_true_iff in Hc1.
    cbn [String.length] in Hlen.
    destruct (N.eqb_spec (N_of_ascii c1) (N_of_ascii c2)) as [E | NE].
    + apply N_of_ascii_inj in E. subst c2. rewrite Hc1.
      rewrite (IH r1 r2 Hr1 Hr2) by lia.
      split; [intros -> | intros E; inversion E]; reflexivity.
    + split; [lia | intros E; inversion E; congruence].
Qed.

Lemma is_stdin_flag_iff name :
  nul_free name = true ->
  ((strncmp name "/dev/stdin" 11 =? 0)%Z || (strncmp name "-" 2 =? 0)%Z = true
   <-> name = "-"%string \/ name = "/dev/stdin"%string).
Proof.
  intros Hname.
  rewrite orb_true_iff, !Z.eqb_eq.
  rewrite (strncmp_zero_iff 11 name "/dev/stdin" Hname eq_refl) by (cbn; lia).
  rewrite (strncmp_zero_iff 2 name "-" Hname eq_refl) by (cbn; lia).
  tauto.
Qed.

Lemma PcapReaderInit_keeps_is_stdin
      host duckdb_malloc fopen stdin sizeof_state bind_state heap st heap' :
  PcapReaderInit host duckdb_malloc fopen stdin sizeof_state bind_state heap
  = (InitData st, heap') ->
  is_stdin st = is_stdin bind_state /\ file st <> None.
Proof.
  unfold PcapReaderInit.
  destruct (duckdb_malloc heap sizeof_state); cbn [negb]; [| discriminate].
  destruct (open_input fopen stdin bind_state) as [f |]; [| discriminate].
  destruct (fread sizeof_pcap_file_header_t 1 f) as [[block items] f1].
  destruct (items =? 1); cbn [negb]; [| discriminate].
  destruct (negotiate _) as [[[swap nano] snap] |]; [| discriminate].
  destruct (duckdb_malloc (S heap) snap); cbn [negb]; [| discriminate].
  intros E; inversion E; subst; cbn. split; [reflexivity | discriminate].
Qed.

(** C10: the bind data is marked as standard input exactly when the file
    name is the whole string "-" or the whole string "/dev/stdin"; a marked
    reader takes its bytes from standard input and any other name, such as
    "/dev/stdin2", goes to [fopen]; the init data keeps the mark, and the
    destructor of a marked reader does not close the stream, while the one
    of a reader with an opened file does. *)
Theorem stdin_only_for_dash_or_dev_stdin :
  forall host duckdb_malloc fopen stdin sizeof_state name heap,
    nul_free name = true ->
    duckdb_malloc heap sizeof_state = true ->
    duckdb_malloc (S heap) (strlen name + 1) = true ->
    exists bind_state,
      PcapReaderBind duckdb_malloc sizeof_state (Some name) heap
      = (BindData bind_state, S (S heap)) /\
      filename bind_state = name /\
      (is_stdin bind_state = true <-> name = "-"%string \/ name = "/dev/stdin"%string) /\
      (is_stdin bind_state = true ->
       open_input fopen stdin bind_state = Some {| unread := stdin; at_eof := false |}) /\
      (is_stdin bind_state = false ->
       open_input fopen stdin bind_state
       = option_map (fun content => {| unread := content; at_eof := false |})
                    (fopen name)) /\
      (forall st heap1 heap2,
          PcapReaderInit host duckdb_malloc fopen stdin sizeof_state bind_state heap1
          = (InitData st, heap2) ->
          is_stdin st = is_stdin bind_state /\
          (is_stdin st = true -> ~ In Fclose (PcapReaderInitDataFree (Some st))) /\
          (is_stdin st = false -> In Fclose (PcapReaderInitDataFree (Some st)))).
Proof.
  intros host duckdb_malloc fopen stdin sizeof_state name heap Hname Hstate Hcopy.
  unfold PcapReaderBind. rewrite Hstate, Hcopy. cbn [negb].
  eexists. split; [reflexivity |].
  cbn [filename is_stdin].
  split; [reflexivity |].
  split; [apply is_stdin_flag_iff; assumption |].
  unfold open_input. cbn [filename is_stdin].
  split; [intros ->; reflexivity |].
  split; [intros ->; destruct (fopen name); reflexivity |].
  intros st heap1 heap2 Hinit.
  apply PcapReaderInit_keeps_is_stdin in Hinit as [Hmark Hfile].
  cbn [is_stdin] in Hmark.
  split; [exact Hmark |].
  unfold PcapReaderInitDataFree.
  destruct (file st) as [f |]; [| congruence].
  split; intros Hs; rewrite Hs; cbn [negb].
  - destruct (packet_buffer st); cbn; intuition discriminate.
  - cbn. auto.
Qed.

Lemma stdin_only_for_dash_or_dev_stdin_witness :
  nul_free "/dev/stdin2" = true /\
  exists bind_state,
    PcapReaderBind always_granted 80 (Some "/dev/stdin2"%string) 0
    = (BindData bind_state, 2%nat) /\
    is_stdin bind_state = false /\
    open_input (one_file [x00]) [] bind_state
    = Some {| unread := [x00]; at_eof := false |}.
Proof.
  split; [reflexivity |].
  destruct (stdin_only_for_dash_or_dev_stdin
              LittleEndian always_granted (one_file [x00]) [] 80
              "/dev/stdin2"%string 0 eq_refl eq_refl eq_refl)
    as (bind_state & Hbind & _ & Hiff & _ & Hfile & _).
  exists bind_state.
  assert (Hmark : is_stdin bind_state = false).
  { destruct (is_stdin bind_state); [| reflexivity].
    destruct (proj1 Hiff eq_refl); discriminate. }
  split; [exact Hbind |].
  split; [exact Hmark |].
  rewrite (Hfile Hmark). reflexivity.
Defined.

(** ** The loop over complete records *)

Lemma after_growth_flags st c :
  needs_swap (after_growth st c) = needs_swap st /\
  is_nanosecond (after_growth st c) = is_nanosecond st.
Proof. unfold after_growth. destruct (buffer_size st <? c); split; reflexivity. Qed.

Lemma after_growth_size st c :
  buffer_size (after_growth st c) = N.max (buffer_size st) c.
Proof.
  unfold after_growth.
  destruct (N.ltb_spec (buffer_size st) c); cbn [set_buffer buffer_size]; lia.
Qed.

Section Loop.

Variable host : endianness.
Variable duckdb_malloc : nat -> N -> bool.
Variable duckdb_vector_size : nat.

Local Abbreviation Packet := (read_packet host duckdb_malloc).
Local Abbreviation Loop := (read_loop host duckdb_malloc).
Local Abbreviation Function := (PcapReaderFunction host duckdb_malloc duckdb_vector_size).
Local Abbreviation Scan := (scan host duckdb_malloc duckdb_vector_size).

Lemma read_loop_S todo st heap :
  Loop (S todo) st heap =
    match file st with
    | None => ([], st, heap)
    | Some f =>
        if feof f then ([], st, heap)
        else
          match Packet st f heap with
          | (None, st1, heap1) => ([], st1, heap1)
          | (Some r, st1, heap1) =>
              let '(rows, st2, heap2) := Loop todo st1 heap1 in
              (r :: rows, st2, heap2)
          end
    end.
Proof. reflexivity. Qed.

(** A complete record at the front of the stream is stored as its row. *)
Lemma read_packet_complete st f heap h p rest :
  unread f = h ++ p ++ rest ->
  complete_record host (needs_swap st) (h, p) ->
  (buffer_size st < N.of_nat (length p) ->
   duckdb_malloc heap (N.of_nat (length p)) = true) ->
  Packet st f heap =
    (Some (row_of host (needs_swap st) (is_nanosecond st) (h, p)),
     after_payload (after_growth st (N.of_nat (length p))) p
                   {| unread := rest; at_eof := at_eof f |},
     if buffer_size st <? N.of_nat (length p) then S heap else heap).
Proof.
  intros Hbytes [Hh Hcap] Hgrant. cbn [fst snd] in Hh, Hcap.
  rewrite read_packet_eq, Hbytes.
  rewrite (proj2 (N.ltb_ge _ _)) by (rewrite length_app; lia).
  rewrite firstn_app, firstn_all2, Hh, Nat.sub_diag by lia.
  cbn [firstn]. rewrite app_nil_r.
  rewrite skipn_app, skipn_all2, Hh, Nat.sub_diag by lia.
  cbn [skipn app]. cbv zeta. rewrite Hcap.
  destruct (N.ltb_spec (buffer_size st) (N.of_nat (length p))) as [Hgrow | Hfit];
    cbn [andb]; [rewrite (Hgrant Hgrow); cbn [negb] |].
  all: rewrite (proj2 (N.ltb_ge _ _)) by (rewrite length_app; lia).
  all: rewrite Nat2N.id, firstn_app, firstn_all2, Nat.sub_diag by lia.
  all: cbn [firstn]; rewrite app_nil_r.
  all: rewrite skipn_app, skipn_all2, Nat.sub_diag by lia.
  all: cbn [skipn app].
  all: unfold row_of; cbn [fst snd]; rewrite Hcap; reflexivity.
Qed.

(** Where the stream ends, the turn stores nothing and the stream is
    exhausted, the growth it may need being granted. *)
Lemma read_packet_end st f heap :
  stream_end host (needs_swap st) (unread f) ->
  (forall c, buffer_size st < c -> duckdb_malloc heap c = true) ->
  exists st' heap',
    Packet st f heap = (None, st', heap') /\
    file st' = Some exhausted /\
    needs_swap st' = needs_swap st /\
    is_nanosecond st' = is_nanosecond st /\
    buffer_size st <= buffer_size st'.
Proof.
  intros Hend Hgrant. rewrite read_packet_eq.
  inversion Hend as [E | t Ht E | h p Hh Hp E].
  - cbn. do 2 eexists. repeat split; reflexivity.
  - rewrite (proj2 (N.ltb_lt _ _)) by lia.
    do 2 eexists. repeat split; reflexivity.
  - rewrite (proj2 (N.ltb_ge _ _)) by (rewrite length_app; lia).
    rewrite firstn_app, firstn_all2, Hh, Nat.sub_diag by lia.
    cbn [firstn]. rewrite app_nil_r.
    rewrite skipn_app, skipn_all2, Hh, Nat.sub_diag by lia.
    cbn [skipn app]. cbv zeta.
    set (c := caplen (decode_packet_header host (needs_swap st) h)) in *.
    destruct (N.ltb_spec (buffer_size st) c) as [Hgrow | Hfit]; cbn [andb];
      [rewrite (Hgrant c Hgrow); cbn [negb] |].
    all: rewrite (proj2 (N.ltb_lt _ _)) by lia.
    all: do 2 eexists; split; [reflexivity |].
    all: unfold after_payload; cbn [set_file set_buffer file needs_swap
                                     is_nanosecond buffer_size].
    all: pose proof (after_growth_flags st c) as [? ?].
    all: pose proof (after_growth_size st c).
    all: repeat split; auto; lia.
Qed.

Hypothesis granted : forall n size, duckdb_malloc n size = true.

(** The loop over a stream of complete records followed by its end. *)
Lemma read_loop_records recs :
  forall todo st heap f tail,
    file st = Some f ->
    at_eof f = false ->
    unread f = layout recs ++ tail ->
    Forall (complete_record host (needs_swap st)) recs ->
    stream_end host (needs_swap st) tail ->
    exists st' heap',
      Loop todo st heap =
        (map (row_of host (needs_swap st) (is_nanosecond st)) (firstn todo recs),
         st', heap') /\
      needs_swap st' = needs_swap st /\
      is_nanosecond st' = is_nanosecond st /\
      ((todo <= length recs)%nat /\
       file st' = Some {| unread := layout (skipn todo recs) ++ tail; at_eof := false |}
       \/ (length recs < todo)%nat /\ file st' = Some exhausted).
Proof.
  induction recs as [| [h p] recs IH]; intros todo st heap f tail Hfile Heof Hbytes Hall Hend.
  - destruct todo as [| todo]; [cbn [read_loop] | rewrite read_loop_S].
    + do 2 eexists. repeat split. left. split; [cbn; lia |].
      rewrite Hfile. destruct f; cbn in *; subst; reflexivity.
    + rewrite Hfile. unfold feof. rewrite Heof.
      cbn [layout map concat app] in Hbytes.
      destruct (read_packet_end st f heap) as (st' & heap' & Hread & Hf & Hs & Hn & _).
      { rewrite Hbytes. exact Hend. }
      { intros; apply granted. }
      rewrite Hread.
      do 2 eexists. repeat split; auto. right. split; [cbn; lia | exact Hf].
  - destruct todo as [| todo]; [cbn [read_loop] | rewrite read_loop_S].
    + do 2 eexists. repeat split. left. split; [cbn; lia |].
      rewrite Hfile. destruct f; cbn in *; subst; reflexivity.
    + rewrite Hfile. unfold feof. rewrite Heof.
      inversion Hall as [| r rs Hrec Hrest]; subst r rs.
      cbn [layout map concat fst snd] in Hbytes. rewrite <- !app_assoc in Hbytes.
      pose proof (read_packet_complete st f heap h p _ Hbytes Hrec
                    (fun _ => granted _ _)) as Hread.
      rewrite Hread.
      set (st1 := after_payload _ _ _).
      set (heap1 := if _ <? _ then _ else _).
      assert (Hs1 : needs_swap st1 = needs_swap st).
      { subst st1. unfold after_payload. cbn. apply after_growth_flags. }
      assert (Hn1 : is_nanosecond st1 = is_nanosecond st).
      { subst st1. unfold after_payload. cbn. apply after_growth_flags. }
      destruct (IH todo st1 heap1 {| unread := concat (map (fun r => fst r ++ snd r) recs)
                                                 ++ tail;
                                     at_eof := at_eof f |} tail)
        as (st' & heap' & Hloop & Hs & Hn & Hwhere).
      { reflexivity. }
      { exact Heof. }
      { reflexivity. }
      { rewrite Hs1. exact Hrest. }
      { rewrite Hs1. exact Hend. }
      rewrite Hloop.
      do 2 eexists. split; [| split; [| split]].
      * cbn [firstn map]. rewrite Hs1, Hn1. reflexivity.
      * congruence.
      * congruence.
      * cbn [length skipn]. destruct Hwhere as [[? ?] | [? ?]]; [left | right];
          (split; [lia | assumption]).
Qed.

Lemma PcapReaderFunction_open st heap f :
  file st = Some f ->
  Function (Some st) heap =
    let '(rows, st1, heap1) := Loop duckdb_vector_size st heap in
    (rows, Some st1, heap1).
Proof. intros Hfile. unfold PcapReaderFunction. rewrite Hfile. reflexivity. Qed.

Lemma scan_S fuel init_data heap :
  Scan (S fuel) init_data heap =
    match Function init_data heap with
    | ([], _, _) => Some []
    | (chunk, data1, heap1) =>
        match Scan fuel data1 heap1 with
        | Some rows => Some (chunk ++ rows)
        | None => None
        end
    end.
Proof. reflexivity. Qed.

(** Once the end-of-file indicator is set, the next chunk is empty. *)
Lemma scan_at_eof fuel st heap :
  file st = Some exhausted -> Scan (S fuel) (Some st) heap = Some [].
Proof.
  intros Hfile. rewrite scan_S.
  unfold PcapReaderFunction. rewrite Hfile.
  destruct duckdb_vector_size; cbn [read_loop]; [reflexivity |].
  rewrite Hfile. reflexivity.
Qed.

Hypothesis room : (0 < duckdb_vector_size)%nat.

(** The whole scan of a stream of complete records followed by its end. *)
Lemma scan_records fuel :
  forall recs st heap f tail,
    (length recs < fuel)%nat ->
    file st = Some f ->
    at_eof f = false ->
    unread f = layout recs ++ tail ->
    Forall (complete_record host (needs_swap st)) recs ->
    stream_end host (needs_swap st) tail ->
    Scan fuel (Some st) heap
    = Some (map (row_of host (needs_swap st) (is_nanosecond st)) recs).
Proof.
  induction fuel as [| fuel IH]; intros recs st heap f tail Hfuel Hfile Heof Hbytes Hall Hend;
    [inversion Hfuel |].
  destruct (read_loop_records recs duckdb_vector_size st heap f tail
              Hfile Heof Hbytes Hall Hend)
    as (st' & heap' & Hloop & Hs & Hn & Hwhere).
  rewrite scan_S.
  rewrite (PcapReaderFunction_open st heap f Hfile), Hloop.
  destruct recs as [| r recs].
  { rewrite firstn_nil. reflexivity. }
  assert (Hne : firstn duckdb_vector_size (r :: recs) <> []).
  { destruct duckdb_vector_size; [inversion room | discriminate]. }
  destruct (firstn duckdb_vector_size (r :: recs)) as [| r0 chunk] eqn:Hchunk;
    [congruence |].
  cbn [map].
  destruct Hwhere as [[Hle Hf'] | [Hgt Hf']].
  - erewrite (IH (skipn duckdb_vector_size (r :: recs)) st' heap').
    + rewrite Hs, Hn.
      rewrite <- (map_cons (row_of host (needs_swap st) (is_nanosecond st))).
      rewrite <- map_app, <- Hchunk, firstn_skipn. reflexivity.
    + rewrite length_skipn. cbn [length] in *. lia.
    + exact Hf'.
    + reflexivity.
    + reflexivity.
    + rewrite Hs. apply Forall_forall. intros x Hx.
      rewrite Forall_forall in Hall. apply Hall.
      rewrite <- (firstn_skipn duckdb_vector_size (r :: recs)).
      apply in_or_app. right. exact Hx.
    + rewrite Hs. exact Hend.
  - destruct fuel as [| fuel]; [cbn [length] in Hfuel; lia |].
    rewrite (scan_at_eof fuel st' heap' Hf').
    rewrite app_nil_r.
    rewrite <- (map_cons (row_of host (needs_swap st) (is_nanosecond st))).
    rewrite <- Hchunk, firstn_all2 by lia.
    reflexivity.
Qed.

End Loop.

(** ** Truncated captures *)

Lemma firstn_app_exact {A} (a b : list A) n :
  length a = n -> firstn n (a ++ b) = a.
Proof.
  intros <-. rewrite firstn_app, firstn_all, Nat.sub_diag. cbn. apply app_nil_r.
Qed.

Lemma skipn_app_exact {A} (a b : list A) n :
  length a = n -> skipn n (a ++ b) = b.
Proof.
  intros <-. rewrite skipn_app, skipn_all, Nat.sub_diag. reflexivity.
Qed.

Section Truncated.

Variable host : endianness.
Variable duckdb_malloc : nat -> N -> bool.
Variable duckdb_vector_size : nat.

Local Abbreviation Packet := (read_packet host duckdb_malloc).
Local Abbreviation Loop := (read_loop host duckdb_malloc).
Local Abbreviation Scan := (scan host duckdb_malloc duckdb_vector_size).

Lemma growths_granted_all heap size wanted :
  (forall n c, duckdb_malloc n c = true) ->
  growths_granted duckdb_malloc heap size wanted.
Proof.
  intros Hall. revert heap size.
  induction wanted as [| c more IH]; intros heap size; cbn [growths_granted];
    [exact I |].
  destruct (size <? c); [split; [apply Hall | apply IH] | apply IH].
Qed.

(** At the cut the turn stores nothing and the stream is exhausted. *)
Lemma read_packet_cut st f heap extra :
  cut host (needs_swap st) (unread f) extra ->
  growths_granted duckdb_malloc heap (buffer_size st) extra ->
  exists st' heap',
    Packet st f heap = (None, st', heap') /\
    file st' = Some exhausted /\
    needs_swap st' = needs_swap st /\
    is_nanosecond st' = is_nanosecond st.
Proof.
  intros [[Hshort _] | (h & p & Hbytes & Hh & Hp & ->)] Hgrant;
    rewrite read_packet_eq.
  - rewrite (proj2 (N.ltb_lt _ _)) by lia.
    do 2 eexists. repeat split; reflexivity.
  - rewrite Hbytes.
    assert (E16 : (N.of_nat (length (h ++ p)) <? 16) = false)
      by (apply N.ltb_ge; rewrite length_app; lia).
    rewrite E16, firstn_app_exact, skipn_app_exact by exact Hh.
    cbv zeta.
    set (c := caplen (decode_packet_header host (needs_swap st) h)) in *.
    cbn [growths_granted] in Hgrant.
    destruct (buffer_size st <? c) eqn:Hgrow; cbn [andb];
      [rewrite (proj1 Hgrant); cbn [negb] |].
    all: rewrite (proj2 (N.ltb_lt _ _) Hp).
    all: do 2 eexists; split; [reflexivity |].
    all: unfold after_payload; cbn [set_file set_buffer file needs_swap is_nanosecond].
    all: pose proof (after_growth_flags st c) as [? ?].
    all: repeat split; assumption.
Qed.

(** The loop over complete records followed by the cut, the growths it asks
    for being granted. *)
Lemma read_loop_wanted recs :
  forall todo st heap f tail extra,
    file st = Some f ->
    at_eof f = false ->
    unread f = layout recs ++ tail ->
    Forall (complete_record host (needs_swap st)) recs ->
    cut host (needs_swap st) tail extra ->
    growths_granted duckdb_malloc heap (buffer_size st)
                    (map payload_length recs ++ extra) ->
    exists st' heap',
      Loop todo st heap =
        (map (row_of host (needs_swap st) (is_nanosecond st)) (firstn todo recs),
         st', heap') /\
      needs_swap st' = needs_swap st /\
      is_nanosecond st' = is_nanosecond st /\
      ((todo <= length recs)%nat /\
       file st' = Some {| unread := layout (skipn todo recs) ++ tail; at_eof := false |} /\
       growths_granted duckdb_malloc heap' (buffer_size st')
                       (map payload_length (skipn todo recs) ++ extra)
       \/ (length recs < todo)%nat /\ file st' = Some exhausted).
Proof.
  induction recs as [| [h p] recs IH];
    intros todo st heap f tail extra Hfile Heof Hbytes Hall Hcut Hgrant.
  - destruct todo as [| todo]; [cbn [read_loop] | rewrite read_loop_S].
    + do 2 eexists. repeat split. left. split; [cbn; lia |].
      split; [| exact Hgrant].
      rewrite Hfile. destruct f; cbn in *; subst; reflexivity.
    + rewrite Hfile. unfold feof. rewrite Heof.
      cbn [layout map concat app] in Hbytes, Hgrant.
      destruct (read_packet_cut st f heap extra) as (st' & heap' & Hread & Hf & Hs & Hn).
      { rewrite Hbytes. exact Hcut. }
      { exact Hgrant. }
      rewrite Hread.
      do 2 eexists. repeat split; auto. right. split; [cbn; lia | exact Hf].
  - destruct todo as [| todo]; [cbn [read_loop] | rewrite read_loop_S].
    + do 2 eexists. repeat split. left. split; [cbn; lia |].
      split; [| exact Hgrant].
      rewrite Hfile. destruct f; cbn in *; subst; reflexivity.
    + rewrite Hfile. unfold feof. rewrite Heof.
      inversion Hall as [| r rs Hrec Hrest]; subst r rs.
      cbn [layout map concat fst snd] in Hbytes. rewrite <- !app_assoc in Hbytes.
      cbn [map app growths_granted] in Hgrant.
      unfold payload_length at 1 2 3 in Hgrant. cbn [snd] in Hgrant.
      assert (Hneed : buffer_size st < N.of_nat (length p) ->
                      duckdb_malloc heap (N.of_nat (length p)) = true).
      { intros Hlt. rewrite (proj2 (N.ltb_lt _ _) Hlt) in Hgrant. apply Hgrant. }
      rewrite (read_packet_complete host duckdb_malloc st f heap h p _ Hbytes Hrec Hneed).
      set (st1 := after_payload _ _ _).
      set (heap1 := if _ <? _ then _ else _).
      assert (Hs1 : needs_swap st1 = needs_swap st).
      { subst st1. unfold after_payload. cbn. apply after_growth_flags. }
      assert (Hn1 : is_nanosecond st1 = is_nanosecond st).
      { subst st1. unfold after_payload. cbn. apply after_growth_flags. }
      assert (Hgrant1 : growths_granted duckdb_malloc heap1 (buffer_size st1)
                          (map payload_length recs ++ extra)).
      { subst st1 heap1. unfold after_payload, after_growth.
        destruct (buffer_size st <? N.of_nat (length p));
          cbn [set_file set_buffer buffer_size]; apply Hgrant. }
      destruct (IH todo st1 heap1
                   {| unread := concat (map (fun r => fst r ++ snd r) recs) ++ tail;
                      at_eof := at_eof f |} tail extra)
        as (st' & heap' & Hloop & Hs & Hn & Hwhere).
      { reflexivity. }
      { exact Heof. }
      { reflexivity. }
      { rewrite Hs1. exact Hrest. }
      { rewrite Hs1. exact Hcut. }
      { exact Hgrant1. }
      rewrite Hloop.
      do 2 eexists. split; [| split; [| split]].
      * cbn [firstn map]. rewrite Hs1, Hn1. reflexivity.
      * congruence.
      * congruence.
      * cbn [length skipn]. destruct Hwhere as [(? & ? & ?) | [? ?]]; [left | right].
        -- split; [lia | split; assumption].
        -- split; [lia | assumption].
Qed.

Hypothesis room : (0 < duckdb_vector_size)%nat.

Lemma scan_wanted fuel :
  forall recs st heap f tail extra,
    (length recs < fuel)%nat ->
    file st = Some f ->
    at_eof f = false ->
    unread f = layout recs ++ tail ->
    Forall (complete_record host (needs_swap st)) recs ->
    cut host (needs_swap st) tail extra ->
    growths_granted duckdb_malloc heap (buffer_size st)
                    (map payload_length recs ++ extra) ->
    Scan fuel (Some st) heap
    = Some (map (row_of host (needs_swap st) (is_nanosecond st)) recs).
Proof.
  induction fuel as [| fuel IH];
    intros recs st heap f tail extra Hfuel Hfile Heof Hbytes Hall Hcut Hgrant;
    [inversion Hfuel |].
  destruct (read_loop_wanted recs duckdb_vector_size st heap f tail extra
              Hfile Heof Hbytes Hall Hcut Hgrant)
    as (st' & heap' & Hloop & Hs & Hn & Hwhere).
  rewrite scan_S.
  rewrite (PcapReaderFunction_open host duckdb_malloc duckdb_vector_size st heap f Hfile).
  rewrite Hloop.
  destruct recs as [| r recs].
  { rewrite firstn_nil. reflexivity. }
  assert (Hne : firstn duckdb_vector_size (r :: recs) <> []).
  { destruct duckdb_vector_size; [inversion room | discriminate]. }
  destruct (firstn duckdb_vector_size (r :: recs)) as [| r0 chunk] eqn:Hchunk;
    [congruence |].
  cbn [map].
  destruct Hwhere as [(Hle & Hf' & Hgrant') | [Hgt Hf']].
  - erewrite (IH (skipn duckdb_vector_size (r :: recs)) st' heap' _ tail extra).
    + rewrite Hs, Hn.
      rewrite <- (map_cons (row_of host (needs_swap st) (is_nanosecond st))).
      rewrite <- map_app, <- Hchunk, firstn_skipn. reflexivity.
    + rewrite length_skipn. cbn [length] in *. lia.
    + exact Hf'.
    + reflexivity.
    + reflexivity.
    + rewrite Hs. apply Forall_forall. intros x Hx.
      rewrite Forall_forall in Hall. apply Hall.
      rewrite <- (firstn_skipn duckdb_vector_size (r :: recs)).
      apply in_or_app. right. exact Hx.
    + rewrite Hs. exact Hcut.
    + exact Hgrant'.
  - destruct fuel as [| fuel]; [cbn [length] in Hfuel; lia |].
    rewrite (scan_at_eof host duckdb_malloc duckdb_vector_size fuel st' heap' Hf').
    rewrite app_nil_r.
    rewrite <- (map_cons (row_of host (needs_swap st) (is_nanosecond st))).
    rewrite <- Hchunk, firstn_all2 by lia.
    reflexivity.
Qed.

End Truncated.




(** ** Records without payload *)

(** C8: a record whose header announces a captured length of zero is stored
    as a row with capture_len 0 and an empty payload, whatever follows it;
    the zero-byte read leaves the end-of-file indicator clear, the loop goes
    on with the bytes after the header, and at a clean end of the stream the
    chunk holds the row. *)
Theorem zero_length_record_is_a_row :
  forall host duckdb_malloc st f heap h rest,
    file st = Some f ->
    at_eof f = false ->
    unread f = h ++ rest ->
    length h = 16%nat ->
    caplen (decode_packet_header host (needs_swap st) h) = 0 ->
    let hd := decode_packet_header host (needs_swap st) h in
    let r := {| timestamp_ns := convert_timestamp (is_nanosecond st) hd;
                original_len := len hd;
                capture_len := 0;
                data := [] |} in
    exists st',
      read_packet host duckdb_malloc st f heap = (Some r, st', heap) /\
      file st' = Some {| unread := rest; at_eof := false |} /\
      buffer_size st' = buffer_size st /\
      (forall todo,
          read_loop host duckdb_malloc (S todo) st heap =
            let '(rows, st2, heap2) := read_loop host duckdb_malloc todo st' heap in
            (r :: rows, st2, heap2)) /\
      (rest = [] ->
       forall todo, fst (fst (read_loop host duckdb_malloc (S todo) st heap)) = [r]).
Proof.
  intros host duckdb_malloc st f heap h rest Hfile Heof Hbytes Hh Hzero hd r.
  pose proof (read_packet_complete host duckdb_malloc st f heap h [] rest) as Hread.
  cbn [length N.of_nat app] in Hread.
  specialize (Hread Hbytes (conj Hh Hzero)).
  rewrite (proj2 (N.ltb_ge (buffer_size st) 0)) in Hread by lia.
  specialize (Hread (fun H => False_ind _ (N.nlt_0_r _ H))).
  assert (Hrow : row_of host (needs_swap st) (is_nanosecond st) (h, []) = r).
  { subst r hd. unfold row_of. cbn [fst snd]. rewrite Hzero. reflexivity. }
  rewrite Hrow, Heof in Hread.
  eexists. split; [exact Hread |].
  assert (Hgrow : after_growth st 0 = st).
  { unfold after_growth. rewrite (proj2 (N.ltb_ge _ _)) by lia. reflexivity. }
  rewrite Hgrow.
  split; [reflexivity |]. split; [reflexivity |].
  assert (Hloop : forall todo,
             read_loop host duckdb_malloc (S todo) st heap =
               let '(rows, st2, heap2) :=
                 read_loop host duckdb_malloc todo
                   (after_payload st [] {| unread := rest; at_eof := false |}) heap in
               (r :: rows, st2, heap2)).
  { intros todo. rewrite read_loop_S, Hfile. unfold feof.
    rewrite Heof, Hread, Hgrow. reflexivity. }
  split; [exact Hloop |].
  intros -> todo. rewrite Hloop.
  destruct todo as [| todo]; [reflexivity |].
  rewrite read_loop_S. cbn [after_payload set_file file feof at_eof].
  rewrite read_packet_eq. reflexivity.
Qed.

Lemma zero_length_record_is_a_row_witness :
  let h := packet_header_bytes LittleEndian 2 7 0 61 in
  let st := init_data_of h false true 65535 in
  caplen (decode_packet_header LittleEndian false h) = 0 /\
  fst (fst (read_loop LittleEndian always_granted 2048 st 4))
  = [ {| timestamp_ns := 2000000007; original_len := 61; capture_len := 0;
         data := [] |} ].
Proof.
  intros h st.
  split; [reflexivity |].
  destruct (zero_length_record_is_a_row
              LittleEndian always_granted st {| unread := h; at_eof := false |} 4 h []
              eq_refl eq_refl eq_refl eq_refl eq_refl)
    as (st' & _ & _ & _ & _ & Hend).
  exact (Hend eq_refl 2047%nat).
Defined.

(** ** A snapshot length of zero *)

Lemma negotiate_hint hdr swap nano hint :
  negotiate hdr = Some (swap, nano, hint) ->
  hint = if swap then swap32 (snaplen hdr) else snaplen hdr.
Proof.
  unfold negotiate.
  repeat match goal with
         | |- context [if ?c then _ else _] => destruct c
         end;
    intros E; inversion E; reflexivity.
Qed.

(** C6: with one of the four magic numbers and a snapshot length of zero,
    [PcapReaderInit] succeeds with a buffer of size zero, and the first
    record with a payload is stored as its row with its bytes intact, the
    buffer having grown to the captured length; the allocator is taken to
    grant the state, the zero-byte buffer and the grown buffer. *)
Theorem zero_snaplen_still_decodes :
  forall host duckdb_malloc fopen stdin duckdb_vector_size sizeof_state
         bind_state heap f hd h p rest swap nano hint,
    duckdb_malloc heap sizeof_state = true ->
    open_input fopen stdin bind_state = Some f ->
    unread f = hd ++ h ++ p ++ rest ->
    length hd = 24%nat ->
    negotiate (parse_file_header host hd) = Some (swap, nano, hint) ->
    snaplen (parse_file_header host hd) = 0 ->
    complete_record host swap (h, p) ->
    p <> [] ->
    duckdb_malloc (S heap) 0 = true ->
    duckdb_malloc (S (S heap)) (N.of_nat (length p)) = true ->
    (0 < duckdb_vector_size)%nat ->
    let f1 := {| unread := h ++ p ++ rest; at_eof := false |} in
    let r := row_of host swap nano (h, p) in
    exists st st',
      PcapReaderInit host duckdb_malloc fopen stdin sizeof_state bind_state heap
      = (InitData st, S (S heap)) /\
      file st = Some f1 /\
      buffer_size st = 0 /\
      needs_swap st = swap /\
      is_nanosecond st = nano /\
      read_packet host duckdb_malloc st f1 (S (S heap)) = (Some r, st', S (S (S heap))) /\
      data r = p /\
      capture_len r = N.of_nat (length p) /\
      buffer_size st' = N.of_nat (length p) /\
      exists rows,
        fst (fst (PcapReaderFunction host duckdb_malloc duckdb_vector_size
                    (Some st) (S (S heap))))
        = r :: rows.
Proof.
  intros host duckdb_malloc fopen stdin vs sizeof_state bind_state heap f hd h p rest
         swap nano hint Hstate Hopen Hbytes Hhd Hneg Hsnap Hrec Hp Hbuf Hgrow Hroom f1 r.
  assert (Hhint : hint = 0).
  { rewrite (negotiate_hint _ _ _ _ Hneg), Hsnap. destruct swap; reflexivity. }
  subst hint.
  pose proof (PcapReaderInit_header host duckdb_malloc fopen stdin sizeof_state
                bind_state heap f Hstate Hopen) as Hinit.
  rewrite Hbytes in Hinit.
  rewrite firstn_app, firstn_all2, Hhd, Nat.sub_diag in Hinit by lia.
  cbn [firstn] in Hinit. rewrite app_nil_r in Hinit.
  rewrite skipn_app, skipn_all2, Hhd, Nat.sub_diag in Hinit by lia.
  cbn [skipn app] in Hinit. cbv zeta in Hinit.
  rewrite Hneg, Hbuf in Hinit.
  specialize (Hinit ltac:(rewrite length_app; lia)).
  set (st := {| file := Some {| unread := h ++ p ++ rest; at_eof := false |};
                file_header := Some (with_snaplen (parse_file_header host hd) 0);
                needs_swap := swap; is_nanosecond := nano;
                filename := filename bind_state; is_stdin := is_stdin bind_state;
                packet_buffer := Some []; buffer_size := 0 |}) in *.
  assert (Hlen : 0 < N.of_nat (length p)) by (destruct p; [congruence | cbn; lia]).
  pose proof (read_packet_complete host duckdb_malloc st f1 (S (S heap)) h p rest
                eq_refl Hrec (fun _ => Hgrow)) as Hread.
  cbn [buffer_size needs_swap is_nanosecond st] in Hread.
  rewrite (proj2 (N.ltb_lt 0 (N.of_nat (length p))) Hlen) in Hread.
  exists st. eexists.
  split; [exact Hinit |].
  split; [reflexivity |]. split; [reflexivity |].
  split; [reflexivity |]. split; [reflexivity |].
  split; [exact Hread |].
  split; [reflexivity |].
  split; [exact (proj2 Hrec) |].
  split.
  { unfold after_payload. cbn [set_file set_buffer buffer_size].
    rewrite after_growth_size. cbn [buffer_size st]. lia. }
  unfold PcapReaderFunction. cbn [file st].
  destruct vs as [| vs]; [inversion Hroom |].
  rewrite read_loop_S. cbn [file st feof at_eof].
  fold f1. rewrite Hread.
  destruct (read_loop host duckdb_malloc vs _ _) as [[rows st2] heap2].
  exists rows. reflexivity.
Qed.

Lemma zero_snaplen_still_decodes_witness :
  let hd := file_header_bytes BigEndian PCAP_MAGIC_NANO_NATIVE 0 in
  let h := packet_header_bytes BigEndian 1 500 3 60 in
  let p := ["a"; "b"; "c"]%byte in
  let content := hd ++ h ++ p ++ [] in
  snaplen (parse_file_header LittleEndian hd) = 0 /\
  exists st st',
    PcapReaderInit LittleEndian always_granted (one_file content) [] 80
                   (bind_state_of "capture.pcap" false) 2
    = (InitData st, 4%nat) /\
    buffer_size st = 0 /\
    read_packet LittleEndian always_granted st
                {| unread := h ++ p ++ []; at_eof := false |} 4
    = (Some {| timestamp_ns := 1000000500; original_len := 60; capture_len := 3;
               data := p |}, st', 5%nat) /\
    buffer_size st' = 3.
Proof.
  intros hd h p content.
  split; [reflexivity |].
  destruct (zero_snaplen_still_decodes
              LittleEndian always_granted (one_file content) [] 2048%nat 80
              (bind_state_of "capture.pcap" false) 2
              {| unread := content; at_eof := false |} hd h p [] true true 0)
    as (st & st' & Hinit & _ & Hsize & _ & _ & Hread & _ & _ & Hgrown & _).
  - reflexivity.
  - reflexivity.
  - reflexivity.
  - reflexivity.
  - reflexivity.
  - reflexivity.
  - split; reflexivity.
  - discriminate.
  - reflexivity.
  - reflexivity.
  - lia.
  - exists st, st'. repeat split; assumption.
Defined.

(** ** The packet buffer *)

Section Buffer.

Variable host : endianness.
Variable duckdb_malloc : nat -> N -> bool.

Local Abbreviation Packet := (read_packet host duckdb_malloc).
Local Abbreviation Loop := (read_loop host duckdb_malloc).

(** The buffer size after one turn of the loop: the captured length when the
    header was read whole, announces more than the buffer holds and the
    allocation is granted; the size before the turn otherwise. *)
Lemma read_packet_buffer_size st f heap :
  let c := caplen (decode_packet_header host (needs_swap st) (firstn 16 (unread f))) in
  buffer_size (snd (fst (Packet st f heap))) =
    if (16 <=? N.of_nat (length (unread f)))
       && (buffer_size st <? c) && duckdb_malloc heap c
    then c else buffer_size st.
Proof.
  intros c. subst c. rewrite read_packet_eq. cbv zeta.
  set (c := caplen (decode_packet_header host (needs_swap st) (firstn 16 (unread f)))).
  destruct (N.ltb_spec (N.of_nat (length (unread f))) 16) as [Hshort | Hlong].
  - rewrite (proj2 (N.leb_gt _ _)) by lia. reflexivity.
  - rewrite (proj2 (N.leb_le _ _)) by lia. cbn [andb].
    destruct (N.ltb_spec (buffer_size st) c) as [Hgrow | Hfit]; cbn [andb].
    + destruct (duckdb_malloc heap c); cbn [negb]; [| reflexivity].
      destruct (N.of_nat (length (skipn 16 (unread f))) <? c);
        cbn [fst snd after_payload set_file set_buffer buffer_size];
        rewrite after_growth_size; lia.
    + destruct (N.of_nat (length (skipn 16 (unread f))) <? c);
        cbn [fst snd after_payload set_file set_buffer buffer_size];
        rewrite after_growth_size; lia.
Qed.

Lemma read_packet_buffer_grows st f heap :
  buffer_size st <= buffer_size (snd (fst (Packet st f heap))).
Proof.
  rewrite read_packet_buffer_size. cbv zeta.
  destruct (16 <=? N.of_nat (length (unread f))); cbn [andb]; [| lia].
  destruct (N.ltb_spec (buffer_size st)
              (caplen (decode_packet_header host (needs_swap st)
                         (firstn 16 (unread f))))); cbn [andb]; [| lia].
  destruct (duckdb_malloc heap _); lia.
Qed.

Lemma read_loop_buffer_grows todo :
  forall st heap, buffer_size st <= buffer_size (snd (fst (Loop todo st heap))).
Proof.
  induction todo as [| todo IH]; intros st heap; [cbn; lia |].
  cbn [read_loop].
  destruct (file st) as [f |]; [| cbn; lia].
  destruct (feof f); [cbn; lia |].
  pose proof (read_packet_buffer_grows st f heap) as Hstep.
  destruct (read_packet host duckdb_malloc st f heap) as [[[r |] st1] heap1];
    cbn [fst snd] in Hstep; [| cbn; lia].
  specialize (IH st1 heap1).
  destruct (read_loop host duckdb_malloc todo st1 heap1) as [[rows st2] heap2].
  cbn [fst snd] in *. lia.
Qed.

End Buffer.

(** What is known of the init data [PcapReaderInit] hands back. *)
Lemma PcapReaderInit_InitData
      host duckdb_malloc fopen stdin sizeof_state bind_state heap st heap' :
  PcapReaderInit host duckdb_malloc fopen stdin sizeof_state bind_state heap
  = (InitData st, heap') ->
  exists f,
    open_input fopen stdin bind_state = Some f /\
    (24 <= length (unread f))%nat /\
    negotiate (parse_file_header host (firstn 24 (unread f)))
    = Some (needs_swap st, is_nanosecond st, buffer_size st) /\
    file st = Some {| unread := skipn 24 (unread f); at_eof := false |} /\
    packet_buffer st = Some [].
Proof.
  intros Hinit.
  destruct (duckdb_malloc heap sizeof_state) eqn:Hstate;
    [| unfold PcapReaderInit in Hinit; rewrite Hstate in Hinit; discriminate].
  destruct (open_input fopen stdin bind_state) as [f |] eqn:Hopen;
    [| unfold PcapReaderInit in Hinit; rewrite Hstate, Hopen in Hinit; discriminate].
  destruct (Nat.le_gt_cases 24 (length (unread f))) as [Hlen | Hlen].
  - rewrite (PcapReaderInit_header host duckdb_malloc fopen stdin sizeof_state
               bind_state heap f Hstate Hopen Hlen) in Hinit.
    cbv zeta in Hinit.
    destruct (negotiate _) as [[[swap nano] snap] |] eqn:Hneg; [| discriminate].
    destruct (duckdb_malloc (S heap) snap); [| discriminate].
    inversion Hinit; subst. cbn.
    exists f. repeat split; auto.
  - rewrite (PcapReaderInit_truncated host duckdb_malloc fopen stdin sizeof_state
               bind_state heap f Hstate Hopen Hlen) in Hinit.
    discriminate.
Qed.

(** C7: the buffer starts with the size negotiated from the snapshot length;
    a turn of the loop replaces it by a buffer of exactly the captured
    length when the header was read whole, announces more than the buffer
    holds and the allocation is granted, and leaves its size alone in every
    other case, so that the size never goes down, within a call and from
    call to call; and whatever the sizes of the payloads of consecutive
    records, each row carries the bytes of its own record. *)
Theorem buffer_only_grows :
  forall host duckdb_malloc fopen stdin duckdb_vector_size sizeof_state,
    (forall bind_state heap st heap',
        PcapReaderInit host duckdb_malloc fopen stdin sizeof_state bind_state heap
        = (InitData st, heap') ->
        exists f,
          open_input fopen stdin bind_state = Some f /\
          negotiate (parse_file_header host (firstn 24 (unread f)))
          = Some (needs_swap st, is_nanosecond st, buffer_size st)) /\
    (forall st f heap,
        let c := caplen (decode_packet_header host (needs_swap st)
                           (firstn 16 (unread f))) in
        let st' := snd (fst (read_packet host duckdb_malloc st f heap)) in
        buffer_size st' =
          (if (16 <=? N.of_nat (length (unread f)))
              && (buffer_size st <? c) && duckdb_malloc heap c
           then c else buffer_size st) /\
        buffer_size st <= buffer_size st') /\
    (forall st heap,
        exists st',
          snd (fst (PcapReaderFunction host duckdb_malloc duckdb_vector_size
                      (Some st) heap)) = Some st' /\
          buffer_size st <= buffer_size st') /\
    (forall st heap f recs fuel,
        (forall n size, duckdb_malloc n size = true) ->
        (0 < duckdb_vector_size)%nat ->
        file st = Some f ->
        at_eof f = false ->
        unread f = layout recs ->
        Forall (complete_record host (needs_swap st)) recs ->
        (length recs < fuel)%nat ->
        exists rows,
          scan host duckdb_malloc duckdb_vector_size fuel (Some st) heap = Some rows /\
          map data rows = map snd recs /\
          map capture_len rows = map (fun r => N.of_nat (length (snd r))) recs).
Proof.
  intros host duckdb_malloc fopen stdin vs sizeof_state.
  split; [| split; [| split]].
  - intros bind_state heap st heap' Hinit.
    apply PcapReaderInit_InitData in Hinit as (f & Hopen & _ & Hneg & _).
    exists f. split; assumption.
  - intros st f heap c st'. split.
    + apply read_packet_buffer_size.
    + apply read_packet_buffer_grows.
  - intros st heap. unfold PcapReaderFunction.
    destruct (file st) as [f |]; [| exists st; split; [reflexivity | lia]].
    pose proof (read_loop_buffer_grows host duckdb_malloc vs st heap) as Hgrow.
    destruct (read_loop host duckdb_malloc vs st heap) as [[rows st1] heap1].
    exists st1. split; [reflexivity | exact Hgrow].
  - intros st heap f recs fuel Hgranted Hroom Hfile Heof Hbytes Hall Hfuel.
    eexists. split.
    + apply (scan_records host duckdb_malloc vs Hgranted Hroom fuel recs st heap f []);
        try assumption.
      * rewrite app_nil_r. exact Hbytes.
      * apply clean_end.
    + rewrite !map_map. split; [reflexivity |].
      apply map_ext_in. intros r Hr.
      rewrite Forall_forall in Hall. destruct (Hall r Hr) as [_ Hcap].
      unfold row_of. cbn [capture_len]. exact Hcap.
Qed.

Lemma buffer_only_grows_witness :
  let p1 := repeat "a"%byte 10 in
  let p2 := repeat "b"%byte 10 in
  let p3 := repeat "c"%byte 1000 in
  let recs := [ (packet_header_bytes LittleEndian 1 0 10 10, p1);
                (packet_header_bytes LittleEndian 2 0 10 10, p2);
                (packet_header_bytes LittleEndian 3 0 1000 1000, p3) ] in
  let st := init_data_of (layout recs) false false 10 in
  exists rows,
    scan LittleEndian always_granted 2048 4 (Some st) 4 = Some rows /\
    map data rows = [p1; p2; p3] /\
    map capture_len rows = [10; 10; 1000].
Proof.
  intros p1 p2 p3 recs st.
  destruct (buffer_only_grows LittleEndian always_granted no_file [] 2048%nat 80)
    as (_ & _ & _ & H).
  apply (H st 4%nat {| unread := layout recs; at_eof := false |} recs 4%nat).
  - reflexivity.
  - lia.
  - reflexivity.
  - reflexivity.
  - reflexivity.
  - repeat constructor.
  - simpl. lia.
Defined.

(** ** Empty chunks *)

Section EmptyChunk.

Variable host : endianness.
Variable duckdb_malloc : nat -> N -> bool.
Variable duckdb_vector_size : nat.

Local Abbreviation Packet := (read_packet host duckdb_malloc).
Local Abbreviation Loop := (read_loop host duckdb_malloc).
Local Abbreviation Function := (PcapReaderFunction host duckdb_malloc duckdb_vector_size).

(** A refused growth ends the loop with no further row; the header is
    consumed and the payload stays in the stream. *)
Lemma read_loop_refused todo st heap f :
  file st = Some f ->
  at_eof f = false ->
  16 <= N.of_nat (length (unread f)) ->
  let c := caplen (decode_packet_header host (needs_swap st) (firstn 16 (unread f))) in
  buffer_size st < c ->
  duckdb_malloc heap c = false ->
  Loop (S todo) st heap =
    ([], set_file st {| unread := skipn 16 (unread f); at_eof := false |}, S heap).
Proof.
  intros Hfile Heof Hlong c Hgrow Hrefused.
  rewrite read_loop_S, Hfile. unfold feof. rewrite Heof.
  rewrite read_packet_eq. cbv zeta. fold c.
  rewrite (proj2 (N.ltb_ge _ _)) by lia.
  rewrite (proj2 (N.ltb_lt _ _) Hgrow), Hrefused, Heof. reflexivity.
Qed.

(** The ways a call can hand back an empty chunk. *)
Lemma empty_chunk_cases st heap f :
  (0 < duckdb_vector_size)%nat ->
  file st = Some f ->
  stream_ok f ->
  fst (fst (Function (Some st) heap)) = [] ->
  unread_of (snd (fst (Function (Some st) heap))) = [] \/
  (let c := caplen (decode_packet_header host (needs_swap st) (firstn 16 (unread f))) in
   16 <= N.of_nat (length (unread f)) /\
   buffer_size st < c /\
   duckdb_malloc heap c = false /\
   unread_of (snd (fst (Function (Some st) heap))) = skipn 16 (unread f)).
Proof.
  intros Hroom Hfile Hok.
  unfold PcapReaderFunction. rewrite Hfile.
  destruct duckdb_vector_size as [| vs]; [inversion Hroom |].
  rewrite read_loop_S, Hfile. unfold feof.
  destruct (at_eof f) eqn:Heof.
  { intros _. left. cbn [fst snd unread_of]. rewrite Hfile. apply Hok, Heof. }
  rewrite read_packet_eq. cbv zeta.
  set (c := caplen (decode_packet_header host (needs_swap st) (firstn 16 (unread f)))).
  destruct (N.ltb_spec (N.of_nat (length (unread f))) 16) as [Hshort | Hlong].
  { intros _. left. reflexivity. }
  destruct (N.ltb_spec (buffer_size st) c) as [Hgrow | Hfit]; cbn [andb].
  - destruct (duckdb_malloc heap c) eqn:Hgrant; cbn [negb].
    + destruct (N.of_nat (length (skipn 16 (unread f))) <? c).
      * intros _. left. reflexivity.
      * destruct (read_loop host duckdb_malloc vs _ _) as [[rows st2] heap2].
        cbn [fst]. discriminate.
    + intros _. right. repeat split; auto.
  - destruct (N.of_nat (length (skipn 16 (unread f))) <? c).
    + intros _. left. reflexivity.
    + destruct (read_loop host duckdb_malloc vs _ _) as [[rows st2] heap2].
      cbn [fst]. discriminate.
Qed.

(** The stream a call leaves behind is again one whose end-of-file
    indicator is set only when nothing is left to read. *)
Lemma read_packet_stream_ok st f heap :
  at_eof f = false ->
  exists f', file (snd (fst (Packet st f heap))) = Some f' /\ stream_ok f'.
Proof.
  intros Heof. rewrite read_packet_eq. cbv zeta. rewrite Heof.
  destruct (N.of_nat (length (unread f)) <? 16).
  { exists exhausted. split; [reflexivity | intros _; reflexivity]. }
  destruct ((buffer_size st <? _) && negb (duckdb_malloc heap _)).
  { eexists. split; [reflexivity | intros E; discriminate E]. }
  destruct (N.of_nat (length (skipn 16 (unread f))) <? _).
  { exists exhausted. split; [reflexivity | intros _; reflexivity]. }
  eexists. split; [reflexivity | intros E; discriminate E].
Qed.

Lemma read_loop_stream_ok todo :
  forall st heap f,
    file st = Some f -> stream_ok f ->
    exists f', file (snd (fst (Loop todo st heap))) = Some f' /\ stream_ok f'.
Proof.
  induction todo as [| todo IH]; intros st heap f Hfile Hok.
  - exists f. split; assumption.
  - rewrite read_loop_S, Hfile. unfold feof.
    destruct (at_eof f) eqn:Heof; [exists f; split; assumption |].
    destruct (read_packet_stream_ok st f heap Heof) as (f1 & Hf1 & Hok1).
    destruct (read_packet host duckdb_malloc st f heap) as [[[r |] st1] heap1];
      cbn [fst snd] in Hf1.
    + destruct (IH st1 heap1 f1 Hf1 Hok1) as (f2 & Hf2 & Hok2).
      destruct (read_loop host duckdb_malloc todo st1 heap1) as [[rows st2] heap2].
      exists f2. split; assumption.
    + exists f1. split; assumption.
Qed.

Lemma PcapReaderFunction_stream_ok st heap f :
  file st = Some f -> stream_ok f ->
  exists st' f',
    snd (fst (Function (Some st) heap)) = Some st' /\
    file st' = Some f' /\ stream_ok f'.
Proof.
  intros Hfile Hok. unfold PcapReaderFunction. rewrite Hfile.
  destruct (read_loop_stream_ok duckdb_vector_size st heap f Hfile Hok)
    as (f' & Hf' & Hok').
  destruct (read_loop host duckdb_malloc duckdb_vector_size st heap)
    as [[rows st'] heap'].
  exists st', f'. repeat split; assumption.
Qed.

End EmptyChunk.

(** C5, with the exception the code makes for a refused growth: with room
    for a row in the chunk, an empty chunk is handed back only when nothing
    is left to read in the stream, or when
    the growth of the buffer for the first record of the call was refused;
    a refused growth ends the call at once with the rows stored so far,
    possibly none, the bytes after the header of that record staying
    unread; with every allocation granted an empty chunk means an exhausted
    stream.  The streams meant are those whose end-of-file indicator is set
    only when nothing is left to read: the one [PcapReaderInit] opens is
    such a stream, and a call leaves such a stream behind. *)
Theorem empty_chunk_means_exhausted_or_refused :
  forall host duckdb_malloc duckdb_vector_size st heap f,
    (0 < duckdb_vector_size)%nat ->
    file st = Some f ->
    stream_ok f ->
    let result := PcapReaderFunction host duckdb_malloc duckdb_vector_size (Some st) heap in
    let c := caplen (decode_packet_header host (needs_swap st) (firstn 16 (unread f))) in
    (fst (fst result) = [] ->
     unread_of (snd (fst result)) = [] \/
     (16 <= N.of_nat (length (unread f)) /\ buffer_size st < c /\
      duckdb_malloc heap c = false /\
      unread_of (snd (fst result)) = skipn 16 (unread f))) /\
    ((forall n size, duckdb_malloc n size = true) ->
     fst (fst result) = [] -> unread_of (snd (fst result)) = []) /\
    (forall todo,
        at_eof f = false ->
        16 <= N.of_nat (length (unread f)) ->
        buffer_size st < c ->
        duckdb_malloc heap c = false ->
        read_loop host duckdb_malloc (S todo) st heap =
          ([], set_file st {| unread := skipn 16 (unread f); at_eof := false |}, S heap)) /\
    (exists st' f',
        snd (fst result) = Some st' /\ file st' = Some f' /\ stream_ok f').
Proof.
  intros host duckdb_malloc vs st heap f Hroom Hfile Hok result c.
  pose proof (empty_chunk_cases host duckdb_malloc vs st heap f Hroom Hfile Hok)
    as Hcases.
  cbv zeta in Hcases. fold result c in Hcases.
  split; [exact Hcases |].
  split.
  - intros Hgranted Hempty.
    destruct (Hcases Hempty) as [Hdone | (_ & _ & Hrefused & _)]; [exact Hdone |].
    rewrite Hgranted in Hrefused. discriminate.
  - split.
    + intros todo Heof Hlong Hgrow Hrefused.
      apply read_loop_refused; assumption.
    + apply (PcapReaderFunction_stream_ok host duckdb_malloc vs st heap f);
        assumption.
Qed.

Lemma empty_chunk_means_exhausted_or_refused_witness :
  let content := firstn 5 (packet_header_bytes LittleEndian 1 0 16 16) in
  let st := init_data_of content false false 0 in
  let result := PcapReaderFunction LittleEndian always_granted 2048 (Some st) 4 in
  fst (fst result) = [] /\ unread_of (snd (fst result)) = [].
Proof.
  intros content st result.
  split; [reflexivity |].
  destruct (empty_chunk_means_exhausted_or_refused
              LittleEndian always_granted 2048%nat st 4%nat
              {| unread := content; at_eof := false |})
    as (_ & H & _).
  - lia.
  - reflexivity.
  - intros E. discriminate E.
  - apply H; reflexivity.
Defined.

(** An empty chunk before the stream is exhausted (C5 without the
    exception): the capture holds one complete record of 16 payload bytes,
    the buffer starts empty and the allocator refuses the growth.  The first
    call hands back an empty chunk although the end-of-file indicator is
    clear and the 16 payload bytes are unread, and a further call would read
    them as a record header and store a row. *)
Lemma empty_chunk_before_exhaustion :
  let h1 := packet_header_bytes LittleEndian 1 0 16 16 in
  let p1 := packet_header_bytes LittleEndian 9 9 0 0 in
  let content := file_header_bytes LittleEndian PCAP_MAGIC_NATIVE 0 ++ h1 ++ p1 in
  complete_record LittleEndian false (h1, p1) /\
  exists st st',
    PcapReaderInit LittleEndian (granted_before 4) (one_file content) [] 80
                   (bind_state_of "capture.pcap" false) 2
    = (InitData st, 4%nat) /\
    PcapReaderFunction LittleEndian (granted_before 4) 2048 (Some st) 4
    = ([], Some st', 5%nat) /\
    file st' = Some {| unread := p1; at_eof := false |} /\
    fst (fst (PcapReaderFunction LittleEndian (granted_before 4) 2048 (Some st') 5))
    = [ {| timestamp_ns := 9000009000; original_len := 0; capture_len := 0;
           data := [] |} ].
Proof.
  intros h1 p1 content.
  split; [split; reflexivity |].
  do 2 eexists.
  split; [reflexivity |].
  split; [reflexivity |].
  split; reflexivity.
Qed.

(** ** Captures in the other byte order *)

Tactic Notation "bytes_of" ident(h) integer(n) :=
  do n (destruct h as [| ? h]; [discriminate |]);
  destruct h; [| discriminate].

Lemma length_swap_packet_header_bytes h :
  length (swap_packet_header_bytes h) = 16%nat.
Proof. reflexivity. Qed.

Lemma length_swap_file_header_bytes h :
  length (swap_file_header_bytes h) = 24%nat.
Proof. reflexivity. Qed.

(** Reading the reversed header with the opposite flag gives the fields of
    the header itself. *)
Lemma decode_swapped_header host swap h :
  length h = 16%nat ->
  decode_packet_header host (negb swap) (swap_packet_header_bytes h)
  = decode_packet_header host swap h.
Proof.
  intros Hh. bytes_of h 16.
  unfold decode_packet_header, parse_packet_header, swap_packet_header,
    swap_packet_header_bytes, rev4, load32.
  destruct host, swap; cbn [negb nth Nat.add app ts_sec ts_usec caplen len];
    rewrite ?swap32_le32; reflexivity.
Qed.

Lemma parse_swapped_file_header host hd :
  length hd = 24%nat ->
  magic_number (parse_file_header host (swap_file_header_bytes hd))
  = swap32 (magic_number (parse_file_header host hd)) /\
  snaplen (parse_file_header host (swap_file_header_bytes hd))
  = swap32 (snaplen (parse_file_header host hd)).
Proof.
  intros Hhd. bytes_of hd 24.
  unfold parse_file_header, swap_file_header_bytes, rev4, rev2, load32.
  destruct host; cbn [nth Nat.add app magic_number snaplen];
    rewrite ?swap32_le32; split; reflexivity.
Qed.

Lemma negotiate_swapped hdr hdr' :
  magic_number hdr' = swap32 (magic_number hdr) ->
  snaplen hdr' = swap32 (snaplen hdr) ->
  swap32 (swap32 (magic_number hdr)) = magic_number hdr ->
  swap32 (swap32 (snaplen hdr)) = snaplen hdr ->
  negotiate hdr' =
    match negotiate hdr with
    | Some (swap, nano, hint) => Some (negb swap, nano, hint)
    | None => None
    end.
Proof.
  intros Hm Hs Im Is.
  unfold negotiate. rewrite Hm, Hs, Is.
  unfold PCAP_MAGIC_NATIVE, PCAP_MAGIC_SWAPPED, PCAP_MAGIC_NANO_NATIVE,
    PCAP_MAGIC_NANO_SWAPPED.
  destruct (N.eqb_spec (magic_number hdr) 0xa1b2c3d4) as [E | N1];
    [rewrite E; reflexivity |].
  destruct (N.eqb_spec (magic_number hdr) 0xd4c3b2a1) as [E | N2];
    [rewrite E; reflexivity |].
  destruct (N.eqb_spec (magic_number hdr) 0xa1b23c4d) as [E | N3];
    [rewrite E; reflexivity |].
  destruct (N.eqb_spec (magic_number hdr) 0x4d3cb2a1) as [E | N4];
    [rewrite E; reflexivity |].
  destruct (N.eqb_spec (swap32 (magic_number hdr)) 0xa1b2c3d4) as [E | _];
    [rewrite E in Im; exfalso; apply N2; rewrite <- Im; reflexivity |].
  destruct (N.eqb_spec (swap32 (magic_number hdr)) 0xd4c3b2a1) as [E | _];
    [rewrite E in Im; exfalso; apply N1; rewrite <- Im; reflexivity |].
  destruct (N.eqb_spec (swap32 (magic_number hdr)) 0xa1b23c4d) as [E | _];
    [rewrite E in Im; exfalso; apply N4; rewrite <- Im; reflexivity |].
  destruct (N.eqb_spec (swap32 (magic_number hdr)) 0x4d3cb2a1) as [E | _];
    [rewrite E in Im; exfalso; apply N3; rewrite <- Im; reflexivity |].
  reflexivity.
Qed.

Lemma negotiate_swapped_bytes host hd :
  length hd = 24%nat ->
  negotiate (parse_file_header host (swap_file_header_bytes hd)) =
    match negotiate (parse_file_header host hd) with
    | Some (swap, nano, hint) => Some (negb swap, nano, hint)
    | None => None
    end.
Proof.
  intros Hhd.
  destruct (parse_swapped_file_header host hd Hhd) as [Hm Hs].
  apply negotiate_swapped; try assumption;
    unfold parse_file_header; cbn [magic_number snaplen];
    apply swap32_involutive_load32.
Qed.

Lemma swap_records_short host swap k bs :
  N.of_nat (length bs) < 16 -> swap_records host swap k bs = bs.
Proof.
  intros Hshort. destruct k as [| k]; [reflexivity |].
  cbn [swap_records]. rewrite (proj2 (N.ltb_lt _ _) Hshort). reflexivity.
Qed.

Lemma twin_core_after st1 st2 c bytes g1 g2 :
  twin_core st1 st2 ->
  twin_core (after_payload (after_growth st1 c) bytes g1)
            (after_payload (after_growth st2 c) bytes g2).
Proof.
  intros (Hs & Hn & Hsz & Hb).
  unfold after_payload, after_growth, buffer_bytes. rewrite Hsz.
  destruct (buffer_size st1 <? c);
    cbn [set_file set_buffer needs_swap is_nanosecond buffer_size packet_buffer];
    rewrite ?Hb; repeat split; assumption.
Qed.

Lemma after_payload_swap st c bytes g :
  needs_swap (after_payload (after_growth st c) bytes g) = needs_swap st.
Proof. unfold after_payload. cbn. apply after_growth_flags. Qed.

Section Twins.

Variable host : endianness.
Variable duckdb_malloc : nat -> N -> bool.
Variable duckdb_vector_size : nat.

Local Abbreviation Packet := (read_packet host duckdb_malloc).
Local Abbreviation Loop := (read_loop host duckdb_malloc).
Local Abbreviation Function := (PcapReaderFunction host duckdb_malloc duckdb_vector_size).
Local Abbreviation Scan := (scan host duckdb_malloc duckdb_vector_size).

(** [read_packet] when its request for a larger buffer, if it makes one, is
    granted. *)
Lemma read_packet_granted_at st f heap :
  (forall c, duckdb_malloc heap c = true) ->
  Packet st f heap =
    if N.of_nat (length (unread f)) <? 16
    then (None, set_file st exhausted, heap)
    else
      let h := decode_packet_header host (needs_swap st) (firstn 16 (unread f)) in
      let rest := skipn 16 (unread f) in
      let c := caplen h in
      let heap1 := if buffer_size st <? c then S heap else heap in
      if N.of_nat (length rest) <? c
      then (None, after_payload (after_growth st c) rest exhausted, heap1)
      else
        (Some {| timestamp_ns := convert_timestamp (is_nanosecond st) h;
                 original_len := len h;
                 capture_len := c;
                 data := firstn (N.to_nat c) rest |},
         after_payload (after_growth st c) (firstn (N.to_nat c) rest)
                       {| unread := skipn (N.to_nat c) rest; at_eof := at_eof f |},
         heap1).
Proof.
  intros Hgranted. rewrite read_packet_eq. cbv zeta.
  rewrite Hgranted. cbn [negb]. rewrite andb_false_r. reflexivity.
Qed.

(** [read_packet] when no allocation is refused. *)
Lemma read_packet_granted :
  (forall n size, duckdb_malloc n size = true) ->
  forall st f heap,
    Packet st f heap =
      if N.of_nat (length (unread f)) <? 16
      then (None, set_file st exhausted, heap)
      else
        let h := decode_packet_header host (needs_swap st) (firstn 16 (unread f)) in
        let rest := skipn 16 (unread f) in
        let c := caplen h in
        let heap1 := if buffer_size st <? c then S heap else heap in
        if N.of_nat (length rest) <? c
        then (None, after_payload (after_growth st c) rest exhausted, heap1)
        else
          (Some {| timestamp_ns := convert_timestamp (is_nanosecond st) h;
                   original_len := len h;
                   capture_len := c;
                   data := firstn (N.to_nat c) rest |},
           after_payload (after_growth st c) (firstn (N.to_nat c) rest)
                         {| unread := skipn (N.to_nat c) rest; at_eof := at_eof f |},
           heap1).
Proof.
  intros Hgranted st f heap. apply read_packet_granted_at. intros c. apply Hgranted.
Qed.

(** From here on the requests made after the first [base] ones are granted:
    the earlier ones may be refused. *)
Variable base : nat.
Hypothesis granted : forall n size, (base <= n)%nat -> duckdb_malloc n size = true.

(** One turn of the loop on twin readers: the same row or the same stop,
    and twin readers again. *)
Lemma twin_read_packet st1 st2 f1 f2 heap :
  (base <= heap)%nat ->
  twin_core st1 st2 ->
  twin_files host (needs_swap st1) f1 f2 ->
  exists r st1' st2' heap',
    Packet st1 f1 heap = (r, st1', heap') /\
    Packet st2 f2 heap = (r, st2', heap') /\
    (base <= heap')%nat /\
    twin_states host st1' st2'.
Proof.
  intros Hbase Hcore (Heof & k & Hk & Hu2).
  pose proof Hcore as (Hs & Hn & Hsz & Hb).
  rewrite !read_packet_granted_at by (intros c0; apply granted; exact Hbase).
  cbv zeta. rewrite Hs, Hn, Hsz, Heof.
  destruct (N.ltb_spec (N.of_nat (length (unread f1))) 16) as [Hshort | Hlong].
  - rewrite Hu2, (swap_records_short host _ k _ Hshort).
    rewrite (proj2 (N.ltb_lt _ _) Hshort).
    do 4 eexists. split; [reflexivity |]. split; [reflexivity |].
    split; [first [exact Hbase | destruct (buffer_size st1 <? c); lia] |].
    split; [exact Hcore |].
    exists exhausted, exhausted. repeat split.
    exists 0%nat. split; [cbn; lia | reflexivity].
  - destruct k as [| k]; [lia |].
    cbn [swap_records] in Hu2.
    rewrite (proj2 (N.ltb_ge _ _) Hlong) in Hu2. cbv zeta in Hu2.
    set (h := firstn 16 (unread f1)) in *.
    set (rest := skipn 16 (unread f1)) in *.
    assert (Hh : length h = 16%nat) by (subst h; rewrite length_firstn; lia).
    assert (Hrest : (length rest <= k)%nat) by (subst rest; rewrite length_skipn; lia).
    set (c := caplen (decode_packet_header host (needs_swap st1) h)) in *.
    destruct (N.ltb_spec (N.of_nat (length rest)) c) as [Hcut | Hfull].
    + rewrite Hu2.
      assert (E16 : (N.of_nat (length (swap_packet_header_bytes h ++ rest)) <? 16) = false)
        by (apply N.ltb_ge; rewrite length_app; cbn; lia).
      rewrite E16.
      rewrite firstn_app_exact, skipn_app_exact by reflexivity.
      rewrite decode_swapped_header by exact Hh. fold c.
      rewrite (proj2 (N.ltb_lt _ _) Hcut).
      do 4 eexists. split; [reflexivity |]. split; [reflexivity |].
    split; [first [exact Hbase | destruct (buffer_size st1 <? c); lia] |].
      split; [apply twin_core_after; exact Hcore |].
      exists exhausted, exhausted. repeat split.
      exists 0%nat. split; [cbn; lia | reflexivity].
    + rewrite Hu2.
      set (tl := swap_records host (needs_swap st1) k (skipn (N.to_nat c) rest)) in *.
      assert (E16 : (N.of_nat (length (swap_packet_header_bytes h
                                         ++ firstn (N.to_nat c) rest ++ tl)) <? 16) = false)
        by (apply N.ltb_ge; rewrite length_app; cbn; lia).
      rewrite E16.
      rewrite firstn_app_exact, skipn_app_exact by reflexivity.
      rewrite decode_swapped_header by exact Hh. fold c.
      assert (Hc : length (firstn (N.to_nat c) rest) = N.to_nat c)
        by (rewrite length_firstn; lia).
      assert (Ec : (N.of_nat (length (firstn (N.to_nat c) rest ++ tl)) <? c) = false)
        by (apply N.ltb_ge; rewrite length_app; lia).
      rewrite Ec.
      rewrite firstn_app_exact, skipn_app_exact by exact Hc.
      do 4 eexists. split; [reflexivity |]. split; [reflexivity |].
    split; [first [exact Hbase | destruct (buffer_size st1 <? c); lia] |].
      split; [apply twin_core_after; exact Hcore |].
      do 2 eexists. split; [reflexivity |]. split; [reflexivity |].
      rewrite after_payload_swap.
      split; [reflexivity |].
      exists k. split; [| reflexivity].
      cbn [unread]. rewrite length_skipn. lia.
Qed.

Lemma twin_read_loop todo :
  forall st1 st2 heap,
    (base <= heap)%nat ->
    twin_states host st1 st2 ->
    exists rows st1' st2' heap',
      Loop todo st1 heap = (rows, st1', heap') /\
      Loop todo st2 heap = (rows, st2', heap') /\
      (base <= heap')%nat /\
      twin_states host st1' st2'.
Proof.
  induction todo as [| todo IH]; intros st1 st2 heap Hbase Htwin.
  - do 4 eexists. split; [reflexivity |]. split; [reflexivity |].
    split; [exact Hbase | exact Htwin].
  - pose proof Htwin as (Hcore & f1 & f2 & Hf1 & Hf2 & Hfiles).
    rewrite !read_loop_S, Hf1, Hf2. unfold feof.
    rewrite (proj1 Hfiles).
    destruct (at_eof f1).
    + do 4 eexists. split; [reflexivity |]. split; [reflexivity |].
      split; [exact Hbase | exact Htwin].
    + destruct (twin_read_packet st1 st2 f1 f2 heap Hbase Hcore Hfiles)
        as (r & st1' & st2' & heap' & H1 & H2 & Hbase' & Htwin').
      rewrite H1, H2.
      destruct r as [r |].
      * destruct (IH st1' st2' heap' Hbase' Htwin')
          as (rows & st1'' & st2'' & heap'' & L1 & L2 & Hbase'' & Htwin'').
        rewrite L1, L2.
        do 4 eexists. split; [reflexivity |]. split; [reflexivity |].
        split; [exact Hbase'' | exact Htwin''].
      * do 4 eexists. split; [reflexivity |]. split; [reflexivity |].
        split; [exact Hbase' | exact Htwin'].
Qed.

Lemma twin_scan fuel :
  forall st1 st2 heap,
    (base <= heap)%nat ->
    twin_states host st1 st2 ->
    Scan fuel (Some st2) heap = Scan fuel (Some st1) heap.
Proof.
  induction fuel as [| fuel IH]; intros st1 st2 heap Hbase Htwin; [reflexivity |].
  pose proof Htwin as (_ & f1 & f2 & Hf1 & Hf2 & _).
  rewrite !scan_S.
  rewrite (PcapReaderFunction_open host duckdb_malloc duckdb_vector_size st1 heap f1 Hf1).
  rewrite (PcapReaderFunction_open host duckdb_malloc duckdb_vector_size st2 heap f2 Hf2).
  destruct (twin_read_loop duckdb_vector_size st1 st2 heap Hbase Htwin)
    as (rows & st1' & st2' & heap' & L1 & L2 & Hbase' & Htwin').
  rewrite L1, L2.
  destruct rows as [| r rows]; [reflexivity |].
  rewrite (IH st1' st2' heap' Hbase' Htwin'). reflexivity.
Qed.

End Twins.

Section SwappedCapture.

Variable host : endianness.
Variable duckdb_malloc : nat -> N -> bool.
Variable fopen : string -> option (list byte).
Variable stdin : list byte.
Variable duckdb_vector_size : nat.
Variable sizeof_state : N.

Local Abbreviation fopen' := (swapped_fopen host fopen).
Local Abbreviation stdin' := (byte_swap_header_and_records host stdin).

Lemma open_input_swapped bind_state :
  open_input fopen' stdin' bind_state =
    option_map
      (fun f => {| unread := byte_swap_header_and_records host (unread f);
                   at_eof := false |})
      (open_input fopen stdin bind_state).
Proof.
  unfold open_input, swapped_fopen.
  destruct (is_stdin bind_state); [reflexivity |].
  destruct (fopen (filename bind_state)); reflexivity.
Qed.

(** [PcapReaderInit] on a capture and on its swapped form, whatever the
    allocator grants: the same error, or twin readers after two requests. *)
Lemma twin_init bind_state heap :
  match PcapReaderInit host duckdb_malloc fopen stdin sizeof_state bind_state heap,
        PcapReaderInit host duckdb_malloc fopen' stdin' sizeof_state bind_state heap with
  | (InitError e1 _, heap1), (InitError e2 _, heap2) => e1 = e2 /\ heap1 = heap2
  | (InitData st1, heap1), (InitData st2, heap2) =>
      twin_states host st1 st2 /\ heap1 = heap2 /\ heap2 = S (S heap)
  | _, _ => False
  end.
Proof.
  destruct (duckdb_malloc heap sizeof_state) eqn:Hstate.
  2: { unfold PcapReaderInit. rewrite Hstate. cbn. split; reflexivity. }
  destruct (open_input fopen stdin bind_state) as [f |] eqn:Hopen.
  2: { unfold PcapReaderInit. rewrite open_input_swapped, Hopen, Hstate.
       cbn. split; reflexivity. }
  pose proof (open_input_swapped bind_state) as Hopen'.
  rewrite Hopen in Hopen'. cbn [option_map] in Hopen'.
  destruct (Nat.le_gt_cases 24 (length (unread f))) as [Hlen | Hlen].
  - set (hd := firstn 24 (unread f)).
    set (rest := skipn 24 (unread f)).
    assert (Hhd : length hd = 24%nat) by (subst hd; rewrite length_firstn; lia).
    assert (Hform :
              byte_swap_header_and_records host (unread f) =
                swap_file_header_bytes hd
                ++ match negotiate (parse_file_header host hd) with
                   | Some (swap, _, _) => swap_records host swap (length rest) rest
                   | None => rest
                   end).
    { unfold byte_swap_header_and_records.
      rewrite (proj2 (N.ltb_ge _ _)) by lia.
      fold hd rest.
      destruct (negotiate (parse_file_header host hd)) as [[[swap nano] hint] |];
        reflexivity. }
    rewrite (PcapReaderInit_header host duckdb_malloc fopen stdin sizeof_state
               bind_state heap f Hstate Hopen Hlen).
    rewrite (PcapReaderInit_header host duckdb_malloc fopen' stdin' sizeof_state
               bind_state heap _ Hstate Hopen')
      by (cbn [unread]; rewrite Hform, length_app; cbn; lia).
    cbn [unread]. cbv zeta. rewrite Hform.
    rewrite firstn_app_exact, skipn_app_exact by reflexivity.
    rewrite negotiate_swapped_bytes by exact Hhd.
    fold hd rest.
    destruct (negotiate (parse_file_header host hd)) as [[[swap nano] hint] |].
    + destruct (duckdb_malloc (S heap) hint); [| split; reflexivity].
      split; [| split; reflexivity].
      split; [repeat split |].
      do 2 eexists. split; [reflexivity |]. split; [reflexivity |].
      split; [reflexivity |].
      exists (length rest). split; [cbn; lia | reflexivity].
    + split; reflexivity.
  - assert (Hsame : byte_swap_header_and_records host (unread f) = unread f).
    { unfold byte_swap_header_and_records.
      rewrite (proj2 (N.ltb_lt _ _)) by lia. reflexivity. }
    rewrite (PcapReaderInit_truncated host duckdb_malloc fopen stdin sizeof_state
               bind_state heap f Hstate Hopen Hlen).
    rewrite (PcapReaderInit_truncated host duckdb_malloc fopen' stdin' sizeof_state
               bind_state heap _ Hstate Hopen')
      by (cbn [unread]; rewrite Hsame; exact Hlen).
    split; reflexivity.
Qed.

End SwappedCapture.

(** ** The scan comes to an end *)

Section Termination.

Variable host : endianness.
Variable duckdb_malloc : nat -> N -> bool.
Variable duckdb_vector_size : nat.

Local Abbreviation Packet := (read_packet host duckdb_malloc).
Local Abbreviation Loop := (read_loop host duckdb_malloc).
Local Abbreviation Function := (PcapReaderFunction host duckdb_malloc duckdb_vector_size).
Local Abbreviation Scan := (scan host duckdb_malloc duckdb_vector_size).

(** A turn never gives bytes back, and a row costs 16 bytes at least. *)
Lemma read_packet_progress st f heap :
  exists f',
    file (snd (fst (Packet st f heap))) = Some f' /\
    (length (unread f')
     + match fst (fst (Packet st f heap)) with Some _ => 16 | None => 0 end
     <= length (unread f))%nat.
Proof.
  rewrite read_packet_eq. cbv zeta.
  destruct (N.ltb_spec (N.of_nat (length (unread f))) 16) as [Hshort | Hlong].
  { eexists. split; [reflexivity |]. cbn [fst snd exhausted unread length]. lia. }
  destruct ((buffer_size st <? _) && negb (duckdb_malloc heap _)).
  { eexists. split; [reflexivity |].
    cbn [fst snd unread]. rewrite length_skipn. lia. }
  destruct (N.of_nat (length (skipn 16 (unread f))) <? _).
  { eexists. split; [reflexivity |]. cbn [fst snd exhausted unread length]. lia. }
  eexists. split; [reflexivity |].
  cbn [fst snd unread]. rewrite !length_skipn. lia.
Qed.

Lemma read_loop_progress todo :
  forall st heap f,
    file st = Some f ->
    exists f',
      file (snd (fst (Loop todo st heap))) = Some f' /\
      (length (unread f') + 16 * length (fst (fst (Loop todo st heap)))
       <= length (unread f))%nat.
Proof.
  induction todo as [| todo IH]; intros st heap f Hfile.
  - exists f. split; [exact Hfile | cbn; lia].
  - rewrite read_loop_S, Hfile.
    destruct (feof f); [exists f; split; [exact Hfile | cbn; lia] |].
    destruct (read_packet_progress st f heap) as (f1 & Hf1 & Hlen1).
    destruct (read_packet host duckdb_malloc st f heap) as [[[r |] st1] heap1];
      cbn [fst snd] in Hf1, Hlen1.
    + destruct (IH st1 heap1 f1 Hf1) as (f2 & Hf2 & Hlen2).
      destruct (read_loop host duckdb_malloc todo st1 heap1) as [[rows st2] heap2].
      cbn [fst snd length] in *. exists f2. split; [exact Hf2 | lia].
    + exists f1. split; [exact Hf1 | cbn; lia].
Qed.

(** With more fuel than bytes to read, the scan ends with its rows. *)
Lemma scan_terminates fuel :
  forall data heap,
    (length (unread_of data) < fuel)%nat ->
    exists rows, Scan fuel data heap = Some rows.
Proof.
  induction fuel as [| fuel IH]; intros data heap Hfuel; [inversion Hfuel |].
  rewrite scan_S. unfold PcapReaderFunction.
  destruct data as [st |]; [| exists []; reflexivity].
  destruct (file st) as [f |] eqn:Hfile; [| exists []; reflexivity].
  destruct (read_loop_progress duckdb_vector_size st heap f Hfile)
    as (f' & Hf' & Hlen).
  destruct (read_loop host duckdb_malloc duckdb_vector_size st heap)
    as [[rows st'] heap'].
  cbn [fst snd] in Hf', Hlen.
  destruct rows as [| r rows]; [exists []; reflexivity |].
  destruct (IH (Some st') heap') as (more & Hmore).
  { cbn [unread_of]. rewrite Hf'. cbn [unread_of] in Hfuel. rewrite Hfile in Hfuel.
    cbn [length] in Hlen. lia. }
  rewrite Hmore. eexists. reflexivity.
Qed.

End Termination.

Lemma swapped_form_magic host bs :
  (24 <= length bs)%nat ->
  magic_number (parse_file_header host
                  (firstn 24 (byte_swap_header_and_records host bs)))
  = swap32 (magic_number (parse_file_header host (firstn 24 bs))).
Proof.
  intros Hlen.
  unfold byte_swap_header_and_records.
  rewrite (proj2 (N.ltb_ge _ _)) by lia.
  assert (Hhd : length (firstn 24 bs) = 24%nat) by (rewrite length_firstn; lia).
  destruct (negotiate (parse_file_header host (firstn 24 bs)))
    as [[[swap nano] hint] |];
    rewrite firstn_app_exact by reflexivity;
    apply parse_swapped_file_header; exact Hhd.
Qed.

Lemma read_pcap_terminates
      host duckdb_malloc fopen stdin duckdb_vector_size sizeof_state
      filename_value fuel :
  (length stdin < fuel)%nat ->
  (forall name content, fopen name = Some content -> (length content < fuel)%nat) ->
  read_pcap host duckdb_malloc fopen stdin duckdb_vector_size sizeof_state
            filename_value fuel
  <> inr None.
Proof.
  intros Hstdin Hfiles.
  unfold read_pcap.
  destruct (PcapReaderBind duckdb_malloc sizeof_state filename_value 0)
    as [[e | bind_state] heap]; [discriminate |].
  destruct (PcapReaderInit host duckdb_malloc fopen stdin sizeof_state bind_state heap)
    as [[e closed | st] heap1] eqn:Hinit; [discriminate |].
  apply PcapReaderInit_InitData in Hinit as (f & Hopen & _ & _ & Hfile & _).
  assert (Hlen : (length (unread f) < fuel)%nat).
  { unfold open_input in Hopen.
    destruct (is_stdin bind_state).
    - inversion Hopen; subst; exact Hstdin.
    - destruct (fopen (filename bind_state)) as [content |] eqn:Hcontent;
        [| discriminate].
      inversion Hopen; subst. exact (Hfiles _ _ Hcontent). }
  destruct (scan_terminates host duckdb_malloc duckdb_vector_size fuel (Some st) heap1)
    as (rows & Hrows).
  { cbn [unread_of]. rewrite Hfile. cbn [unread]. rewrite length_skipn. lia. }
  rewrite Hrows. discriminate.
Qed.

Lemma PcapReaderBind_heap duckdb_malloc sizeof_state filename_value heap bind_state heap' :
  PcapReaderBind duckdb_malloc sizeof_state filename_value heap = (BindData bind_state, heap') ->
  heap' = S (S heap).
Proof.
  unfold PcapReaderBind.
  destruct filename_value as [name |]; [| discriminate].
  destruct (duckdb_malloc heap sizeof_state); cbn [negb]; [| discriminate].
  destruct (duckdb_malloc (S heap) _); cbn [negb]; [| discriminate].
  intros E. inversion E. reflexivity.
Qed.




(** * Further properties of the reader *)

(** ** [swap32] on every value *)

Lemma byte_val_byte_of n : byte_val (byte_of n) = n mod 2 ^ 8.
Proof.
  unfold byte_of, byte_val. change (2 ^ 8) with 256.
  destruct (Byte.of_N (n mod 256)) as [b |] eqn:E.
  - apply Byte.to_of_N. exact E.
  - apply Byte.of_N_None_iff in E.
    pose proof (N.mod_lt n 256). lia.
Qed.

Ltac bits_step :=
  first [ rewrite N.lor_spec
        | rewrite N.shiftl_spec_low by lia
        | rewrite N.shiftl_spec_high' by lia
        | rewrite N.mod_pow2_bits_low by lia
        | rewrite N.mod_pow2_bits_high by lia
        | rewrite N.shiftr_spec' ].

(** Every 32-bit value is the value of its four bytes. *)
Lemma le32_byte_of n :
  le32 (byte_of n) (byte_of (N.shiftr n 8)) (byte_of (N.shiftr n 16))
       (byte_of (N.shiftr n 24))
  = wrap32 n.
Proof.
  unfold le32, wrap32. rewrite !byte_val_byte_of.
  apply N.bits_inj; intro i.
  destruct (N.lt_ge_cases i 8); [| destruct (N.lt_ge_cases i 16);
    [| destruct (N.lt_ge_cases i 24); [| destruct (N.lt_ge_cases i 32)]]];
    repeat bits_step;
    rewrite ?orb_false_r, ?orb_false_l; try reflexivity;
    f_equal; lia.
Qed.

(** Only the low 32 bits of the argument matter. *)
Lemma swap32_wrap32 x : swap32 (wrap32 x) = swap32 x.
Proof.
  unfold wrap32 at 1. rewrite <- N.land_ones.
  unfold swap32. rewrite <- !N.land_assoc. reflexivity.
Qed.

(** X1: [swap32] reverses the four bytes of a value, its result always fits
    32 bits, and applying it twice gives back the low 32 bits of the
    argument, so that it is its own inverse on [uint32_t]. *)
Theorem swap32_reverses_bytes :
  (forall b0 b1 b2 b3, swap32 (le32 b0 b1 b2 b3) = le32 b3 b2 b1 b0) /\
  (forall x, swap32 x < 2 ^ 32) /\
  (forall x, swap32 (swap32 x) = x mod 2 ^ 32).
Proof.
  split; [exact swap32_le32 |].
  split; intros x; rewrite <- (swap32_wrap32 x), <- (le32_byte_of x).
  - rewrite swap32_le32. apply le32_lt.
  - rewrite !swap32_le32. apply le32_byte_of.
Qed.

(** ** When [PcapReaderInit] succeeds, and what it releases when it fails *)

(** X2: [PcapReaderInit] hands back init data exactly when the state is
    allocated, the input opens, it holds the 24 bytes of a capture header,
    the magic number is one of the four and the packet buffer is granted;
    the init data then reads the bytes after the header with the
    end-of-file indicator clear, keeps the name and the standard-input mark
    of the bind data, and two allocation requests were made. *)
Theorem PcapReaderInit_succeeds_iff :
  forall host duckdb_malloc fopen stdin sizeof_state bind_state heap,
    ((exists st heap',
         PcapReaderInit host duckdb_malloc fopen stdin sizeof_state bind_state heap
         = (InitData st, heap'))
     <->
     (duckdb_malloc heap sizeof_state = true /\
      exists f swap nano hint,
        open_input fopen stdin bind_state = Some f /\
        (24 <= length (unread f))%nat /\
        negotiate (parse_file_header host (firstn 24 (unread f)))
        = Some (swap, nano, hint) /\
        duckdb_malloc (S heap) hint = true)) /\
    (forall st heap',
        PcapReaderInit host duckdb_malloc fopen stdin sizeof_state bind_state heap
        = (InitData st, heap') ->
        heap' = S (S heap) /\
        filename st = filename bind_state /\
        is_stdin st = is_stdin bind_state /\
        packet_buffer st = Some [] /\
        exists f,
          open_input fopen stdin bind_state = Some f /\
          file st = Some {| unread := skipn 24 (unread f); at_eof := false |}).
Proof.
  intros host duckdb_malloc fopen stdin sizeof_state bind_state heap.
  destruct (duckdb_malloc heap sizeof_state) eqn:Hstate.
  2: { unfold PcapReaderInit. rewrite Hstate. cbn [negb].
       split; [split |].
       - intros (st & heap' & E). discriminate E.
       - intros [E _]. discriminate E.
       - intros st heap' E. discriminate E. }
  destruct (open_input fopen stdin bind_state) as [f |] eqn:Hopen.
  2: { unfold PcapReaderInit. rewrite Hstate, Hopen. cbn [negb].
       split; [split |].
       - intros (st & heap' & E). discriminate E.
       - intros [_ (f & swap & nano & hint & E & _)]. discriminate E.
       - intros st heap' E. discriminate E. }
  destruct (Nat.le_gt_cases 24 (length (unread f))) as [Hlen | Hlen].
  2: { rewrite (PcapReaderInit_truncated host duckdb_malloc fopen stdin sizeof_state
                  bind_state heap f Hstate Hopen Hlen).
       split; [split |].
       - intros (st & heap' & E). discriminate E.
       - intros [_ (f' & swap & nano & hint & E & Hlen' & _)].
         inversion E; subst f'. lia.
       - intros st heap' E. discriminate E. }
  rewrite (PcapReaderInit_header host duckdb_malloc fopen stdin sizeof_state
             bind_state heap f Hstate Hopen Hlen).
  cbv zeta.
  destruct (negotiate (parse_file_header host (firstn 24 (unread f))))
    as [[[swap nano] hint] |] eqn:Hneg.
  2: { split; [split |].
       - intros (st & heap' & E). discriminate E.
       - intros [_ (f' & swap & nano & hint & E & _ & Hneg' & _)].
         inversion E; subst f'. rewrite Hneg in Hneg'. discriminate Hneg'.
       - intros st heap' E. discriminate E. }
  destruct (duckdb_malloc (S heap) hint) eqn:Hbuf.
  - split; [split |].
    + intros _. split; [reflexivity |].
      exists f, swap, nano, hint. repeat split; assumption.
    + intros _. do 2 eexists. reflexivity.
    + intros st heap' E. inversion E; subst. cbn.
      repeat split. exists f. split; reflexivity.
  - split; [split |].
    + intros (st & heap' & E). discriminate E.
    + intros [_ (f' & swap' & nano' & hint' & E & _ & Hneg' & Hbuf')].
      inversion E; subst f'. rewrite Hneg in Hneg'. inversion Hneg'; subst.
      rewrite Hbuf in Hbuf'. discriminate Hbuf'.
    + intros st heap' E. discriminate E.
Qed.

Lemma PcapReaderInit_succeeds_iff_witness :
  let content := file_header_bytes BigEndian PCAP_MAGIC_NATIVE 1500 ++ [x00] in
  exists st,
    PcapReaderInit LittleEndian always_granted (one_file content) [] 80
                   (bind_state_of "capture.pcap" false) 2
    = (InitData st, 4%nat) /\
    needs_swap st = true /\ buffer_size st = 1500 /\
    file st = Some {| unread := [x00]; at_eof := false |}.
Proof.
  intros content.
  destruct (PcapReaderInit_succeeds_iff
              LittleEndian always_granted (one_file content) [] 80
              (bind_state_of "capture.pcap" false) 2) as [[_ Hyes] Hdata].
  destruct Hyes as (st & heap' & Hinit).
  { split; [reflexivity |].
    exists {| unread := content; at_eof := false |}, true, false, 1500.
    repeat split. vm_compute. lia. }
  destruct (Hdata st heap' Hinit) as (-> & _ & _ & _ & f & Hopen & Hfile).
  exists st. split; [exact Hinit |].
  inversion Hopen; subst f.
  vm_compute in Hinit. inversion Hinit; subst st.
  repeat split.
Defined.

Ltac init_case :=
  let E := fresh "E" in
  intros E; inversion E; subst;
  repeat split; intros;
  repeat match goal with
         | H : _ /\ _ |- _ => destruct H
         end;
  try discriminate; try congruence; auto.

(** X3: when [PcapReaderInit] fails, the stream is closed exactly when a
    file had been opened with [fopen]: standard input is never closed and
    an opened file is never left open.  The open error is reported exactly
    when the name is not marked as standard input and [fopen] gives NULL,
    and a failure costs one or two allocation requests. *)
Theorem PcapReaderInit_failure_closes_file :
  forall host duckdb_malloc fopen stdin sizeof_state bind_state heap e closed heap',
    PcapReaderInit host duckdb_malloc fopen stdin sizeof_state bind_state heap
    = (InitError e closed, heap') ->
    (closed = true <->
     duckdb_malloc heap sizeof_state = true /\
     is_stdin bind_state = false /\
     fopen (filename bind_state) <> None) /\
    (e = OpenFailure <->
     duckdb_malloc heap sizeof_state = true /\
     is_stdin bind_state = false /\
     fopen (filename bind_state) = None) /\
    (heap' = S heap \/ heap' = S (S heap)).
Proof.
  intros host duckdb_malloc fopen stdin sizeof_state bind_state heap e closed heap'.
  unfold PcapReaderInit, open_input.
  destruct (duckdb_malloc heap sizeof_state); cbn [negb]; [| init_case].
  destruct (is_stdin bind_state) eqn:Hstdin.
  - destruct (fread sizeof_pcap_file_header_t 1 _) as [[block items] f1].
    destruct (items =? 1); cbn [negb];
      [destruct (negotiate _) as [[[swap nano] snap] |];
       [destruct (duckdb_malloc (S heap) snap); cbn [negb] |] |];
      init_case.
  - destruct (fopen (filename bind_state)) as [content |]; [| init_case].
    destruct (fread sizeof_pcap_file_header_t 1 _) as [[block items] f1].
    destruct (items =? 1); cbn [negb];
      [destruct (negotiate _) as [[[swap nano] snap] |];
       [destruct (duckdb_malloc (S heap) snap); cbn [negb] |] |];
      init_case.
Qed.

Lemma PcapReaderInit_failure_closes_file_witness :
  let content := file_header_bytes LittleEndian 0x0a0d0d0a 1500 in
  PcapReaderInit LittleEndian always_granted (one_file content) [] 80
                 (bind_state_of "capture.pcapng" false) 2
  = (InitError UnsupportedMagic true, 3%nat) /\
  (true = true <->
   always_granted 2 80 = true /\
   is_stdin (bind_state_of "capture.pcapng" false) = false /\
   one_file content "capture.pcapng"%string <> None).
Proof.
  intros content.
  split; [reflexivity |].
  exact (proj1 (PcapReaderInit_failure_closes_file
                  LittleEndian always_granted (one_file content) [] 80
                  (bind_state_of "capture.pcapng" false) 2
                  UnsupportedMagic true 3%nat eq_refl)).
Defined.

(** ** What every call keeps *)

Section Calls.

Variable host : endianness.
Variable duckdb_malloc : nat -> N -> bool.
Variable duckdb_vector_size : nat.

Local Abbreviation Packet := (read_packet host duckdb_malloc).
Local Abbreviation Loop := (read_loop host duckdb_malloc).
Local Abbreviation Function := (PcapReaderFunction host duckdb_malloc duckdb_vector_size).
Local Abbreviation Scan := (scan host duckdb_malloc duckdb_vector_size).

(** One turn makes at most one allocation request. *)
Lemma read_packet_heap st f heap :
  (heap <= snd (Packet st f heap) <= S heap)%nat.
Proof.
  rewrite read_packet_eq. cbv zeta.
  destruct (N.of_nat (length (unread f)) <? 16); [cbn; lia |].
  destruct (buffer_size st <? _); cbn [andb].
  - destruct (duckdb_malloc heap _); cbn [negb]; [| cbn; lia].
    destruct (N.of_nat (length (skipn 16 (unread f))) <? _); cbn; lia.
  - destruct (N.of_nat (length (skipn 16 (unread f))) <? _); cbn; lia.
Qed.

Lemma read_loop_bounds todo :
  forall st heap,
    (length (fst (fst (Loop todo st heap))) <= todo)%nat /\
    (heap <= snd (Loop todo st heap)
     <= heap + length (fst (fst (Loop todo st heap))) + 1)%nat.
Proof.
  induction todo as [| todo IH]; intros st heap; [cbn; lia |].
  rewrite read_loop_S.
  destruct (file st) as [f |]; [| cbn; lia].
  destruct (feof f); [cbn; lia |].
  pose proof (read_packet_heap st f heap) as Hstep.
  destruct (read_packet host duckdb_malloc st f heap) as [[[r |] st1] heap1];
    cbn [fst snd] in Hstep; [| cbn; lia].
  specialize (IH st1 heap1).
  destruct (read_loop host duckdb_malloc todo st1 heap1) as [[rows st2] heap2].
  cbn [fst snd length] in *. lia.
Qed.

(** The row a turn stores fits the columns. *)
Lemma read_packet_row_ok st f heap r st' heap' :
  Packet st f heap = (Some r, st', heap') -> row_ok r.
Proof.
  intros Hread. apply read_packet_Some in Hread. cbv zeta in Hread.
  destruct Hread as (_ & Hfull & _ & -> & _).
  destruct (decode_packet_header_bounds host (needs_swap st) (firstn 16 (unread f)))
    as (_ & _ & Hcap & Hlen).
  unfold row_ok. cbn [data capture_len original_len timestamp_ns].
  repeat split; try assumption.
  - rewrite length_firstn. lia.
  - rewrite convert_timestamp_mod. apply N.mod_lt. discriminate.
Qed.

Lemma read_loop_rows_ok todo :
  forall st heap, Forall row_ok (fst (fst (Loop todo st heap))).
Proof.
  induction todo as [| todo IH]; intros st heap; [constructor |].
  rewrite read_loop_S.
  destruct (file st) as [f |]; [| constructor].
  destruct (feof f); [constructor |].
  destruct (read_packet host duckdb_malloc st f heap) as [[[r |] st1] heap1] eqn:Hread;
    [| constructor].
  specialize (IH st1 heap1).
  destruct (read_loop host duckdb_malloc todo st1 heap1) as [[rows st2] heap2].
  cbn [fst] in *. constructor; [| exact IH].
  exact (read_packet_row_ok _ _ _ _ _ _ Hread).
Qed.

Lemma PcapReaderFunction_rows_ok data heap :
  Forall row_ok (fst (fst (Function data heap))).
Proof.
  unfold PcapReaderFunction.
  destruct data as [st |]; [| constructor].
  destruct (file st); [| constructor].
  pose proof (read_loop_rows_ok duckdb_vector_size st heap) as H.
  destruct (read_loop host duckdb_malloc duckdb_vector_size st heap) as [[rows st1] heap1].
  exact H.
Qed.

Lemma scan_rows_ok fuel :
  forall data heap rows, Scan fuel data heap = Some rows -> Forall row_ok rows.
Proof.
  induction fuel as [| fuel IH]; intros data heap rows; [discriminate |].
  rewrite scan_S.
  pose proof (PcapReaderFunction_rows_ok data heap) as Hchunk.
  destruct (PcapReaderFunction host duckdb_malloc duckdb_vector_size data heap)
    as [[chunk data1] heap1].
  cbn [fst] in Hchunk.
  destruct chunk as [| r chunk].
  - intros E; inversion E. constructor.
  - destruct (scan host duckdb_malloc duckdb_vector_size fuel data1 heap1)
      as [more |] eqn:Hmore; [| discriminate].
    intros E; inversion E; subst.
    change (r :: chunk ++ more) with ((r :: chunk) ++ more).
    apply Forall_app. split; [exact Hchunk | exact (IH _ _ _ Hmore)].
Qed.

End Calls.

(** X4: a call stores at most [duckdb_vector_size()] rows, whatever the
    stream holds, never gives an allocation request back and makes at most
    one request more than it stores rows. *)
Theorem call_stays_within_bounds :
  forall host duckdb_malloc duckdb_vector_size data heap,
    let result := PcapReaderFunction host duckdb_malloc duckdb_vector_size data heap in
    (length (fst (fst result)) <= duckdb_vector_size)%nat /\
    (heap <= snd result <= heap + length (fst (fst result)) + 1)%nat.
Proof.
  intros host duckdb_malloc vs data heap result. subst result.
  unfold PcapReaderFunction.
  destruct data as [st |]; [| cbn; lia].
  destruct (file st); [| cbn; lia].
  pose proof (read_loop_bounds host duckdb_malloc vs st heap) as H.
  destruct (read_loop host duckdb_malloc vs st heap) as [[rows st1] heap1].
  exact H.
Qed.

(** X5: every row of every chunk, and so of every scan, fits the columns
    declared for it: the payload has exactly capture_len bytes, capture_len
    and original_len are below 2^32 and timestamp_ns is below 2^64. *)
Theorem every_row_fits_its_columns :
  forall host duckdb_malloc duckdb_vector_size data heap fuel,
    Forall row_ok
      (fst (fst (PcapReaderFunction host duckdb_malloc duckdb_vector_size data heap))) /\
    match scan host duckdb_malloc duckdb_vector_size fuel data heap with
    | Some rows => Forall row_ok rows
    | None => True
    end.
Proof.
  intros host duckdb_malloc vs data heap fuel.
  split; [apply PcapReaderFunction_rows_ok |].
  destruct (scan host duckdb_malloc vs fuel data heap) as [rows |] eqn:Hscan;
    [| exact I].
  exact (scan_rows_ok host duckdb_malloc vs fuel data heap rows Hscan).
Qed.

(** ** Rows come from the stream *)

Section Sound.

Variable host : endianness.
Variable duckdb_malloc : nat -> N -> bool.
Variable duckdb_vector_size : nat.

Local Abbreviation Packet := (read_packet host duckdb_malloc).
Local Abbreviation Loop := (read_loop host duckdb_malloc).
Local Abbreviation Function := (PcapReaderFunction host duckdb_malloc duckdb_vector_size).

Lemma is_suffix_refl l : is_suffix l l.
Proof. exists []. reflexivity. Qed.

Lemma is_suffix_nil l : is_suffix [] l.
Proof. exists l. symmetry. apply app_nil_r. Qed.

Lemma is_suffix_skipn n l : is_suffix (skipn n l) l.
Proof. exists (firstn n l). symmetry. apply firstn_skipn. Qed.

Lemma is_suffix_trans a b c : is_suffix a b -> is_suffix b c -> is_suffix a c.
Proof.
  intros [x ->] [y ->]. exists (y ++ x). apply app_assoc.
Qed.

(** Whatever a turn does, what it leaves unread is an end of what it found. *)
Lemma read_packet_suffix st f heap :
  exists f',
    file (snd (fst (Packet st f heap))) = Some f' /\
    is_suffix (unread f') (unread f).
Proof.
  rewrite read_packet_eq. cbv zeta.
  destruct (N.of_nat (length (unread f)) <? 16).
  { eexists. split; [reflexivity | apply is_suffix_nil]. }
  destruct ((buffer_size st <? _) && negb (duckdb_malloc heap _)).
  { eexists. split; [reflexivity | apply is_suffix_skipn]. }
  destruct (N.of_nat (length (skipn 16 (unread f))) <? _).
  { eexists. split; [reflexivity | apply is_suffix_nil]. }
  eexists. split; [reflexivity |].
  cbn [unread].
  eapply is_suffix_trans; [apply is_suffix_skipn | apply is_suffix_skipn].
Qed.

(** A row stored by a turn is the row of a complete record at the front of
    the stream, and the turn leaves the bytes after that record. *)
Lemma read_packet_record st f heap r st' heap' :
  Packet st f heap = (Some r, st', heap') ->
  exists h p f',
    complete_record host (needs_swap st) (h, p) /\
    r = row_of host (needs_swap st) (is_nanosecond st) (h, p) /\
    file st' = Some f' /\
    unread f = h ++ p ++ unread f' /\
    needs_swap st' = needs_swap st /\
    is_nanosecond st' = is_nanosecond st.
Proof.
  intros Hread. apply read_packet_Some in Hread. cbv zeta in Hread.
  destruct Hread as (Hlong & Hfull & _ & -> & -> & _).
  set (u := unread f) in *.
  set (c := caplen (decode_packet_header host (needs_swap st) (firstn 16 u))) in *.
  exists (firstn 16 u), (firstn (N.to_nat c) (skipn 16 u)).
  eexists. split; [| split; [| split; [reflexivity | split; [| split]]]].
  - split; cbn [fst snd].
    + rewrite length_firstn. lia.
    + rewrite length_firstn. fold c. lia.
  - reflexivity.
  - cbn [unread]. rewrite !firstn_skipn. reflexivity.
  - unfold after_payload. cbn. apply after_growth_flags.
  - unfold after_payload. cbn. apply after_growth_flags.
Qed.

Lemma read_loop_sound todo :
  forall st heap f,
    file st = Some f ->
    exists recs rest f',
      Forall (complete_record host (needs_swap st)) recs /\
      fst (fst (Loop todo st heap))
      = map (row_of host (needs_swap st) (is_nanosecond st)) recs /\
      unread f = layout recs ++ rest /\
      file (snd (fst (Loop todo st heap))) = Some f' /\
      is_suffix (unread f') rest.
Proof.
  induction todo as [| todo IH]; intros st heap f Hfile.
  - exists [], (unread f), f. cbn [read_loop fst snd].
    repeat split; [constructor | exact Hfile | apply is_suffix_refl].
  - rewrite read_loop_S, Hfile.
    destruct (feof f).
    { exists [], (unread f), f. cbn [fst snd].
      repeat split; [constructor | exact Hfile | apply is_suffix_refl]. }
    destruct (read_packet host duckdb_malloc st f heap) as [[[r |] st1] heap1] eqn:Hread.
    + destruct (read_packet_record st f heap r st1 heap1 Hread)
        as (h & p & f1 & Hrec & -> & Hf1 & Hbytes & Hs & Hn).
      destruct (IH st1 heap1 f1 Hf1) as (recs & rest & f' & Hall & Hrows & Hlay & Hf' & Hsuf).
      destruct (read_loop host duckdb_malloc todo st1 heap1) as [[rows st2] heap2].
      cbn [fst snd] in *.
      exists ((h, p) :: recs), rest, f'.
      split; [| split; [| split; [| split]]].
      * constructor; [exact Hrec | rewrite <- Hs; exact Hall].
      * cbn [map]. rewrite Hrows, Hs, Hn. reflexivity.
      * rewrite Hbytes, Hlay. unfold layout. cbn [map concat fst snd].
        rewrite <- !app_assoc. reflexivity.
      * exact Hf'.
      * exact Hsuf.
    + destruct (read_packet_suffix st f heap) as (f' & Hf' & Hsuf).
      rewrite Hread in Hf'. cbn [fst snd] in Hf'.
      exists [], (unread f), f'. cbn [fst snd].
      repeat split; [constructor | exact Hf' | exact Hsuf].
Qed.

(** The members set by [PcapReaderInit] stay as they are, and the stream
    and the buffer stay allocated. *)
Lemma read_packet_context st f heap :
  same_context st (snd (fst (Packet st f heap))) /\
  file (snd (fst (Packet st f heap))) <> None /\
  (packet_buffer st <> None -> packet_buffer (snd (fst (Packet st f heap))) <> None).
Proof.
  rewrite read_packet_eq. cbv zeta.
  destruct (N.of_nat (length (unread f)) <? 16).
  { cbn. repeat split; auto; discriminate. }
  destruct ((buffer_size st <? _) && negb (duckdb_malloc heap _)).
  { cbn. repeat split; auto; discriminate. }
  unfold after_payload, after_growth.
  destruct (N.of_nat (length (skipn 16 (unread f))) <? _);
    destruct (buffer_size st <? _); cbn; repeat split; auto; discriminate.
Qed.

Lemma same_context_trans a b c : same_context a b -> same_context b c -> same_context a c.
Proof.
  unfold same_context. intros (? & ? & ? & ? & ?) (? & ? & ? & ? & ?).
  repeat split; congruence.
Qed.

Lemma same_context_refl a : same_context a a.
Proof. repeat split. Qed.

Lemma read_loop_context todo :
  forall st heap,
    file st <> None ->
    packet_buffer st <> None ->
    same_context st (snd (fst (Loop todo st heap))) /\
    file (snd (fst (Loop todo st heap))) <> None /\
    packet_buffer (snd (fst (Loop todo st heap))) <> None.
Proof.
  induction todo as [| todo IH]; intros st heap Hfile Hbuf.
  - cbn. repeat split; auto.
  - rewrite read_loop_S.
    destruct (file st) as [f |] eqn:Hf; [| contradiction].
    destruct (feof f).
    { cbn [fst snd]. rewrite Hf. repeat split; auto. }
    destruct (read_packet_context st f heap) as (Hctx & Hfile1 & Hbuf1).
    destruct (read_packet host duckdb_malloc st f heap) as [[[r |] st1] heap1];
      cbn [fst snd] in *.
    + destruct (IH st1 heap1 Hfile1 (Hbuf1 Hbuf)) as (Hctx2 & Hfile2 & Hbuf2).
      destruct (read_loop host duckdb_malloc todo st1 heap1) as [[rows st2] heap2].
      cbn [fst snd] in *.
      split; [exact (same_context_trans _ _ _ Hctx Hctx2) | split; assumption].
    + split; [exact Hctx | split; auto].
Qed.

End Sound.

(** X6: the rows of a chunk are the rows of complete records that lie one
    after the other at the front of the unread bytes, in that order: no row
    is made up, none is stored out of order, and what the call leaves
    unread is an end of what came after those records. *)
Theorem rows_come_from_the_stream :
  forall host duckdb_malloc duckdb_vector_size st heap f,
    file st = Some f ->
    let result :=
      PcapReaderFunction host duckdb_malloc duckdb_vector_size (Some st) heap in
    exists recs rest,
      Forall (complete_record host (needs_swap st)) recs /\
      fst (fst result)
      = map (row_of host (needs_swap st) (is_nanosecond st)) recs /\
      unread f = layout recs ++ rest /\
      is_suffix (unread_of (snd (fst result))) rest.
Proof.
  intros host duckdb_malloc vs st heap f Hfile result. subst result.
  unfold PcapReaderFunction. rewrite Hfile.
  destruct (read_loop_sound host duckdb_malloc vs st heap f Hfile)
    as (recs & rest & f' & Hall & Hrows & Hlay & Hf' & Hsuf).
  destruct (read_loop host duckdb_malloc vs st heap) as [[rows st1] heap1].
  cbn [fst snd unread_of] in *. rewrite Hf'.
  exists recs, rest. repeat split; assumption.
Qed.

Lemma rows_come_from_the_stream_witness :
  let h := packet_header_bytes LittleEndian 1 500000 3 60 in
  let p := ["a"; "b"; "c"]%byte in
  let content := h ++ p ++ [x00; x00] in
  exists recs rest,
    Forall (complete_record LittleEndian false) recs /\
    fst (fst (PcapReaderFunction LittleEndian always_granted 2048
                (Some (init_data_of content false false 0)) 4))
    = map (row_of LittleEndian false false) recs /\
    content = layout recs ++ rest.
Proof.
  intros h p content.
  destruct (rows_come_from_the_stream
              LittleEndian always_granted 2048%nat
              (init_data_of content false false 0) 4%nat
              {| unread := content; at_eof := false |} eq_refl)
    as (recs & rest & Hall & Hrows & Hlay & _).
  exists recs, rest. repeat split; assumption.
Defined.

(** X7: a call never changes what [PcapReaderInit] has set (file header,
    swap flag, timestamp unit, name, standard-input mark) and leaves the
    stream and the packet buffer allocated, so that the destructor run
    after any call releases the buffer and the state once each and closes
    the stream exactly when it is not standard input. *)
Theorem call_keeps_context :
  forall host duckdb_malloc duckdb_vector_size st heap,
    file st <> None ->
    packet_buffer st <> None ->
    exists st',
      snd (fst (PcapReaderFunction host duckdb_malloc duckdb_vector_size (Some st) heap))
      = Some st' /\
      same_context st st' /\
      file st' <> None /\
      packet_buffer st' <> None /\
      PcapReaderInitDataFree (Some st')
      = (if is_stdin st then [] else [Fclose]) ++ [FreePacketBuffer; FreeState].
Proof.
  intros host duckdb_malloc vs st heap Hfile Hbuf.
  unfold PcapReaderFunction.
  destruct (file st) as [f |] eqn:Hf; [| contradiction].
  destruct (read_loop_context host duckdb_malloc vs st heap) as (Hctx & Hfile' & Hbuf').
  { rewrite Hf. discriminate. }
  { exact Hbuf. }
  destruct (read_loop host duckdb_malloc vs st heap) as [[rows st1] heap1].
  cbn [fst snd] in *.
  exists st1.
  split; [reflexivity |]. split; [exact Hctx |].
  split; [exact Hfile' |]. split; [exact Hbuf' |].
  unfold PcapReaderInitDataFree.
  destruct Hctx as (_ & _ & _ & _ & Hstdin). rewrite <- Hstdin.
  destruct (file st1); [| contradiction].
  destruct (packet_buffer st1); [| contradiction].
  destruct (is_stdin st); reflexivity.
Qed.

Lemma call_keeps_context_witness :
  let content := packet_header_bytes LittleEndian 1 500000 3 60 ++ ["a"; "b"; "c"]%byte in
  exists st',
    snd (fst (PcapReaderFunction LittleEndian always_granted 2048
                (Some (init_data_of content true true 0)) 4))
    = Some st' /\
    needs_swap st' = true /\ is_nanosecond st' = true /\
    PcapReaderInitDataFree (Some st') = [Fclose; FreePacketBuffer; FreeState].
Proof.
  intros content.
  destruct (call_keeps_context
              LittleEndian always_granted 2048%nat
              (init_data_of content true true 0) 4%nat)
    as (st' & Hst' & (_ & Hs & Hn & _) & _ & _ & Hfree).
  - discriminate.
  - discriminate.
  - exists st'. repeat split; [exact Hst' | symmetry; exact Hs
                              | symmetry; exact Hn | exact Hfree].
Defined.

(** ** The last chunk *)

Section LastChunk.

Variable host : endianness.
Variable duckdb_malloc : nat -> N -> bool.
Variable duckdb_vector_size : nat.

Local Abbreviation Loop := (read_loop host duckdb_malloc).
Local Abbreviation Function := (PcapReaderFunction host duckdb_malloc duckdb_vector_size).

(** With the end-of-file indicator set, a call stores nothing and touches
    nothing. *)
Lemma PcapReaderFunction_at_eof st heap f :
  file st = Some f -> at_eof f = true ->
  Function (Some st) heap = ([], Some st, heap).
Proof.
  intros Hfile Heof. unfold PcapReaderFunction. rewrite Hfile.
  destruct duckdb_vector_size; [reflexivity |].
  rewrite read_loop_S, Hfile. unfold feof. rewrite Heof. reflexivity.
Qed.

Hypothesis granted : forall n size, duckdb_malloc n size = true.

(** A loop that stops before its turns are used up has met the end of the
    stream. *)
Lemma read_loop_short todo :
  forall st heap f,
    file st = Some f ->
    (length (fst (fst (Loop todo st heap))) < todo)%nat ->
    exists f',
      file (snd (fst (Loop todo st heap))) = Some f' /\ at_eof f' = true.
Proof.
  induction todo as [| todo IH]; intros st heap f Hfile; [cbn; lia |].
  rewrite read_loop_S, Hfile. unfold feof.
  destruct (at_eof f) eqn:Heof.
  { intros _. exists f. split; assumption. }
  rewrite (read_packet_granted host duckdb_malloc granted). cbv zeta.
  destruct (N.of_nat (length (unread f)) <? 16).
  { intros _. exists exhausted. split; reflexivity. }
  destruct (N.of_nat (length (skipn 16 (unread f))) <? _).
  { intros _. exists exhausted. split; reflexivity. }
  set (st1 := after_payload _ _ _).
  set (heap1 := if _ <? _ then _ else _).
  specialize (IH st1 heap1 _ eq_refl).
  destruct (read_loop host duckdb_malloc todo st1 heap1) as [[rows st2] heap2].
  cbn [fst snd length] in *.
  intros Hshort. apply IH. lia.
Qed.

End LastChunk.

(** X8: with every allocation granted, a chunk with fewer rows than
    [duckdb_vector_size()] is the last one that has rows: the call after it
    stores nothing and changes neither the state nor the allocation count.
    In any case a call on a stream whose end-of-file indicator is set
    stores nothing and changes nothing. *)
Theorem short_chunk_is_the_last :
  forall host duckdb_malloc duckdb_vector_size st heap f,
    file st = Some f ->
    let result :=
      PcapReaderFunction host duckdb_malloc duckdb_vector_size (Some st) heap in
    ((forall n size, duckdb_malloc n size = true) ->
     (length (fst (fst result)) < duckdb_vector_size)%nat ->
     PcapReaderFunction host duckdb_malloc duckdb_vector_size
                        (snd (fst result)) (snd result)
     = ([], snd (fst result), snd result)) /\
    (at_eof f = true -> result = ([], Some st, heap)).
Proof.
  intros host duckdb_malloc vs st heap f Hfile result. subst result.
  split.
  - intros Hgranted.
    rewrite (PcapReaderFunction_open host duckdb_malloc vs st heap f Hfile).
    pose proof (read_loop_short host duckdb_malloc Hgranted vs st heap f Hfile) as Hshort.
    destruct (read_loop host duckdb_malloc vs st heap) as [[rows st1] heap1].
    cbn [fst snd] in *.
    intros Hlen. destruct (Hshort Hlen) as (f' & Hf' & Heof').
    apply (PcapReaderFunction_at_eof host duckdb_malloc vs st1 heap1 f' Hf' Heof').
  - apply PcapReaderFunction_at_eof. exact Hfile.
Qed.

Lemma short_chunk_is_the_last_witness :
  let content := packet_header_bytes LittleEndian 1 500000 3 60 ++ ["a"; "b"; "c"]%byte in
  let result :=
    PcapReaderFunction LittleEndian always_granted 2048
                       (Some (init_data_of content false false 0)) 4 in
  length (fst (fst result)) = 1%nat /\
  PcapReaderFunction LittleEndian always_granted 2048 (snd (fst result)) (snd result)
  = ([], snd (fst result), snd result).
Proof.
  intros content result.
  split; [reflexivity |].
  destruct (short_chunk_is_the_last
              LittleEndian always_granted 2048%nat
              (init_data_of content false false 0) 4%nat
              {| unread := content; at_eof := false |} eq_refl) as [H _].
  apply H.
  - reflexivity.
  - vm_compute. lia.
Defined.

(** ** Captures that fit the buffer *)

Section Fit.

Variable host : endianness.
Variable duckdb_malloc : nat -> N -> bool.
Variable duckdb_vector_size : nat.

Local Abbreviation Packet := (read_packet host duckdb_malloc).
Local Abbreviation Loop := (read_loop host duckdb_malloc).
Local Abbreviation Function := (PcapReaderFunction host duckdb_malloc duckdb_vector_size).
Local Abbreviation Scan := (scan host duckdb_malloc duckdb_vector_size).

(** The loop over complete records none of which is larger than the
    buffer: the allocator is not asked for anything. *)
Lemma read_loop_records_fit recs :
  forall todo st heap f tail,
    file st = Some f ->
    at_eof f = false ->
    unread f = layout recs ++ tail ->
    Forall (complete_record host (needs_swap st)) recs ->
    Forall (fun r => N.of_nat (length (snd r)) <= buffer_size st) recs ->
    (length tail <= 15)%nat ->
    exists st',
      Loop todo st heap =
        (map (row_of host (needs_swap st) (is_nanosecond st)) (firstn todo recs),
         st', heap) /\
      needs_swap st' = needs_swap st /\
      is_nanosecond st' = is_nanosecond st /\
      buffer_size st' = buffer_size st /\
      ((todo <= length recs)%nat /\
       file st' = Some {| unread := layout (skipn todo recs) ++ tail; at_eof := false |}
       \/ (length recs < todo)%nat /\ file st' = Some exhausted).
Proof.
  induction recs as [| [h p] recs IH];
    intros todo st heap f tail Hfile Heof Hbytes Hall Hfit Htail.
  - destruct todo as [| todo]; [cbn [read_loop] | rewrite read_loop_S].
    + eexists. repeat split. left. split; [cbn; lia |].
      rewrite Hfile. destruct f; cbn in *; subst; reflexivity.
    + rewrite Hfile. unfold feof. rewrite Heof.
      cbn [layout map concat app] in Hbytes.
      rewrite read_packet_eq, Hbytes.
      rewrite (proj2 (N.ltb_lt _ _)) by lia.
      eexists. repeat split. right. split; [cbn; lia | reflexivity].
  - destruct todo as [| todo]; [cbn [read_loop] | rewrite read_loop_S].
    + eexists. repeat split. left. split; [cbn; lia |].
      rewrite Hfile. destruct f; cbn in *; subst; reflexivity.
    + rewrite Hfile. unfold feof. rewrite Heof.
      inversion Hall as [| r rs Hrec Hrest]; subst r rs.
      inversion Hfit as [| r rs Hp Hfits]; subst r rs.
      cbn [snd] in Hp.
      cbn [layout map concat fst snd] in Hbytes. rewrite <- !app_assoc in Hbytes.
      assert (Hnone : buffer_size st < N.of_nat (length p) ->
                      duckdb_malloc heap (N.of_nat (length p)) = true) by lia.
      rewrite (read_packet_complete host duckdb_malloc st f heap h p _ Hbytes Hrec Hnone).
      rewrite (proj2 (N.ltb_ge (buffer_size st) (N.of_nat (length p))) Hp).
      set (st1 := after_payload _ _ _).
      assert (Hs1 : needs_swap st1 = needs_swap st).
      { subst st1. unfold after_payload. cbn. apply after_growth_flags. }
      assert (Hn1 : is_nanosecond st1 = is_nanosecond st).
      { subst st1. unfold after_payload. cbn. apply after_growth_flags. }
      assert (Hb1 : buffer_size st1 = buffer_size st).
      { subst st1. unfold after_payload. cbn [set_file set_buffer buffer_size].
        rewrite after_growth_size. lia. }
      destruct (IH todo st1 heap
                   {| unread := concat (map (fun r => fst r ++ snd r) recs) ++ tail;
                      at_eof := at_eof f |} tail)
        as (st' & Hloop & Hs & Hn & Hb & Hwhere).
      { reflexivity. }
      { exact Heof. }
      { reflexivity. }
      { rewrite Hs1. exact Hrest. }
      { rewrite Hb1. exact Hfits. }
      { exact Htail. }
      rewrite Hloop.
      eexists. split; [| split; [| split; [| split]]].
      * cbn [firstn map]. rewrite Hs1, Hn1. reflexivity.
      * congruence.
      * congruence.
      * congruence.
      * cbn [length skipn]. destruct Hwhere as [[? ?] | [? ?]]; [left | right];
          (split; [lia | assumption]).
Qed.

Hypothesis room : (0 < duckdb_vector_size)%nat.

Lemma scan_records_fit fuel :
  forall recs st heap f tail,
    (length recs < fuel)%nat ->
    file st = Some f ->
    at_eof f = false ->
    unread f = layout recs ++ tail ->
    Forall (complete_record host (needs_swap st)) recs ->
    Forall (fun r => N.of_nat (length (snd r)) <= buffer_size st) recs ->
    (length tail <= 15)%nat ->
    Scan fuel (Some st) heap
    = Some (map (row_of host (needs_swap st) (is_nanosecond st)) recs).
Proof.
  induction fuel as [| fuel IH];
    intros recs st heap f tail Hfuel Hfile Heof Hbytes Hall Hfit Htail;
    [inversion Hfuel |].
  destruct (read_loop_records_fit recs duckdb_vector_size st heap f tail
              Hfile Heof Hbytes Hall Hfit Htail)
    as (st' & Hloop & Hs & Hn & Hb & Hwhere).
  rewrite scan_S.
  rewrite (PcapReaderFunction_open host duckdb_malloc duckdb_vector_size st heap f Hfile).
  rewrite Hloop.
  destruct recs as [| r recs].
  { rewrite firstn_nil. reflexivity. }
  assert (Hne : firstn duckdb_vector_size (r :: recs) <> []).
  { destruct duckdb_vector_size; [inversion room | discriminate]. }
  destruct (firstn duckdb_vector_size (r :: recs)) as [| r0 chunk] eqn:Hchunk;
    [congruence |].
  cbn [map].
  destruct Hwhere as [[Hle Hf'] | [Hgt Hf']].
  - erewrite (IH (skipn duckdb_vector_size (r :: recs)) st' heap).
    + rewrite Hs, Hn.
      rewrite <- (map_cons (row_of host (needs_swap st) (is_nanosecond st))).
      rewrite <- map_app, <- Hchunk, firstn_skipn. reflexivity.
    + rewrite length_skipn. cbn [length] in *. lia.
    + exact Hf'.
    + reflexivity.
    + reflexivity.
    + rewrite Hs. apply Forall_forall. intros x Hx.
      rewrite Forall_forall in Hall. apply Hall.
      rewrite <- (firstn_skipn duckdb_vector_size (r :: recs)).
      apply in_or_app. right. exact Hx.
    + rewrite Hb. apply Forall_forall. intros x Hx.
      rewrite Forall_forall in Hfit. apply Hfit.
      rewrite <- (firstn_skipn duckdb_vector_size (r :: recs)).
      apply in_or_app. right. exact Hx.
    + exact Htail.
  - destruct fuel as [| fuel]; [cbn [length] in Hfuel; lia |].
    rewrite (scan_at_eof host duckdb_malloc duckdb_vector_size fuel st' heap Hf').
    rewrite app_nil_r.
    rewrite <- (map_cons (row_of host (needs_swap st) (is_nanosecond st))).
    rewrite <- Hchunk, firstn_all2 by lia.
    reflexivity.
Qed.

End Fit.

(** X9: when no record of the capture is larger than the buffer (as when
    the captures respect the snapshot length), a call asks the allocator for
    nothing and keeps the buffer as it is, and the scan returns the rows of
    all the records whatever the allocator would have answered; the stream
    may end at a record boundary or inside a record header. *)
Theorem no_allocation_when_records_fit :
  forall host duckdb_malloc duckdb_vector_size st heap f recs tail fuel,
    (0 < duckdb_vector_size)%nat ->
    file st = Some f ->
    at_eof f = false ->
    unread f = layout recs ++ tail ->
    Forall (complete_record host (needs_swap st)) recs ->
    Forall (fun r => N.of_nat (length (snd r)) <= buffer_size st) recs ->
    (length tail <= 15)%nat ->
    (length recs < fuel)%nat ->
    (exists st',
        PcapReaderFunction host duckdb_malloc duckdb_vector_size (Some st) heap
        = (map (row_of host (needs_swap st) (is_nanosecond st))
               (firstn duckdb_vector_size recs),
           Some st', heap) /\
        buffer_size st' = buffer_size st) /\
    scan host duckdb_malloc duckdb_vector_size fuel (Some st) heap
    = Some (map (row_of host (needs_swap st) (is_nanosecond st)) recs).
Proof.
  intros host duckdb_malloc vs st heap f recs tail fuel
         Hroom Hfile Heof Hbytes Hall Hfit Htail Hfuel.
  split.
  - destruct (read_loop_records_fit host duckdb_malloc recs vs st heap f tail
                Hfile Heof Hbytes Hall Hfit Htail)
      as (st' & Hloop & _ & _ & Hb & _).
    exists st'. split; [| exact Hb].
    rewrite (PcapReaderFunction_open host duckdb_malloc vs st heap f Hfile), Hloop.
    reflexivity.
  - apply (scan_records_fit host duckdb_malloc vs Hroom fuel recs st heap f tail);
      assumption.
Qed.

Lemma no_allocation_when_records_fit_witness :
  let r1 := (packet_header_bytes LittleEndian 1 500000 3 60, ["a"; "b"; "c"]%byte) in
  let r2 := (packet_header_bytes LittleEndian 2 7 0 61, []) in
  let content := layout [r1; r2] in
  scan LittleEndian (granted_before 0) 1 3 (Some (init_data_of content false false 3)) 4
  = Some [ {| timestamp_ns := 1500000000; original_len := 60; capture_len := 3;
              data := ["a"; "b"; "c"]%byte |};
           {| timestamp_ns := 2000007000; original_len := 61; capture_len := 0;
              data := [] |} ].
Proof.
  intros r1 r2 content.
  apply (no_allocation_when_records_fit
           LittleEndian (granted_before 0) 1 (init_data_of content false false 3) 4
           {| unread := content; at_eof := false |} [r1; r2] [] 3).
  - lia.
  - reflexivity.
  - reflexivity.
  - reflexivity.
  - repeat constructor.
  - repeat constructor; cbn; lia.
  - cbn. lia.
  - cbn. lia.
Defined.

(** ** The informational fields of the capture header *)

Section Informational.

Variable host : endianness.
Variable duckdb_malloc : nat -> N -> bool.
Variable duckdb_vector_size : nat.
Variable sizeof_state : N.

Local Abbreviation Packet := (read_packet host duckdb_malloc).
Local Abbreviation Loop := (read_loop host duckdb_malloc).
Local Abbreviation Scan := (scan host duckdb_malloc duckdb_vector_size).

(** A turn looks at the stream, the two flags and the buffer only. *)
Lemma same_reader_read_packet st1 st2 f heap :
  same_reader st1 st2 ->
  fst (fst (Packet st1 f heap)) = fst (fst (Packet st2 f heap)) /\
  snd (Packet st1 f heap) = snd (Packet st2 f heap) /\
  same_reader (snd (fst (Packet st1 f heap))) (snd (fst (Packet st2 f heap))).
Proof.
  intros (Hf & Hs & Hn & Hb & Hz).
  rewrite !read_packet_eq. cbv zeta. rewrite <- Hs, <- Hn, <- Hz.
  destruct (N.of_nat (length (unread f)) <? 16).
  { cbn. repeat split; assumption. }
  destruct ((buffer_size st1 <? _) && negb (duckdb_malloc heap _)).
  { cbn. repeat split; assumption. }
  unfold after_payload, after_growth, buffer_bytes. rewrite <- Hz.
  destruct (N.of_nat (length (skipn 16 (unread f))) <? _);
    destruct (buffer_size st1 <? _); cbn; rewrite <- ?Hb; repeat split; assumption.
Qed.

Lemma same_reader_read_loop todo :
  forall st1 st2 heap,
    same_reader st1 st2 ->
    fst (fst (Loop todo st1 heap)) = fst (fst (Loop todo st2 heap)) /\
    snd (Loop todo st1 heap) = snd (Loop todo st2 heap) /\
    same_reader (snd (fst (Loop todo st1 heap))) (snd (fst (Loop todo st2 heap))).
Proof.
  induction todo as [| todo IH]; intros st1 st2 heap Hsame.
  - cbn. repeat split; try apply Hsame.
  - rewrite !read_loop_S.
    pose proof Hsame as (Hf & _). rewrite <- Hf.
    destruct (file st1) as [f |]; [| cbn; repeat split; try apply Hsame].
    destruct (feof f); [cbn; repeat split; try apply Hsame |].
    destruct (same_reader_read_packet st1 st2 f heap Hsame) as (Hr & Hh & Hsame1).
    destruct (read_packet host duckdb_malloc st1 f heap) as [[r1 s1] h1].
    destruct (read_packet host duckdb_malloc st2 f heap) as [[r2 s2] h2].
    cbn [fst snd] in Hr, Hh, Hsame1. subst r2 h2.
    destruct r1 as [r |]; [| cbn; repeat split; try apply Hsame1].
    destruct (IH s1 s2 h1 Hsame1) as (Hrows & Hheap & Hsame2).
    destruct (read_loop host duckdb_malloc todo s1 h1) as [[rows1 t1] k1].
    destruct (read_loop host duckdb_malloc todo s2 h1) as [[rows2 t2] k2].
    cbn [fst snd] in *. subst. repeat split; apply Hsame2.
Qed.

Lemma same_reader_scan fuel :
  forall st1 st2 heap,
    same_reader st1 st2 ->
    Scan fuel (Some st1) heap = Scan fuel (Some st2) heap.
Proof.
  induction fuel as [| fuel IH]; intros st1 st2 heap Hsame; [reflexivity |].
  rewrite !scan_S. unfold PcapReaderFunction.
  pose proof Hsame as (Hf & _). rewrite <- Hf.
  destruct (file st1) as [f |]; [| reflexivity].
  destruct (same_reader_read_loop duckdb_vector_size st1 st2 heap Hsame)
    as (Hrows & Hheap & Hsame1).
  destruct (read_loop host duckdb_malloc duckdb_vector_size st1 heap) as [[rows1 t1] k1].
  destruct (read_loop host duckdb_malloc duckdb_vector_size st2 heap) as [[rows2 t2] k2].
  cbn [fst snd] in *. subst.
  destruct rows2 as [| r rows]; [reflexivity |].
  rewrite (IH t1 t2 k2 Hsame1). reflexivity.
Qed.

(** The negotiation looks at the magic number and the snapshot length. *)
Lemma negotiate_decisive hd1 hd2 :
  length hd1 = 24%nat -> length hd2 = 24%nat ->
  decisive_bytes hd1 = decisive_bytes hd2 ->
  negotiate (parse_file_header host hd1) = negotiate (parse_file_header host hd2).
Proof.
  intros H1 H2 Hd.
  bytes_of hd1 24. bytes_of hd2 24.
  unfold decisive_bytes in Hd. cbn in Hd. inversion Hd; subst.
  reflexivity.
Qed.

Lemma open_input_one_file content bind_state :
  open_input (one_file content) content bind_state
  = Some {| unread := content; at_eof := false |}.
Proof. unfold open_input, one_file. destruct (is_stdin bind_state); reflexivity. Qed.

Lemma PcapReaderInit_decisive hd1 hd2 rest bind_state heap :
  length hd1 = 24%nat -> length hd2 = 24%nat ->
  decisive_bytes hd1 = decisive_bytes hd2 ->
  match PcapReaderInit host duckdb_malloc (one_file (hd1 ++ rest)) (hd1 ++ rest)
                       sizeof_state bind_state heap,
        PcapReaderInit host duckdb_malloc (one_file (hd2 ++ rest)) (hd2 ++ rest)
                       sizeof_state bind_state heap with
  | (InitError e1 _, heap1), (InitError e2 _, heap2) => e1 = e2 /\ heap1 = heap2
  | (InitData st1, heap1), (InitData st2, heap2) =>
      same_reader st1 st2 /\ heap1 = heap2
  | _, _ => False
  end.
Proof.
  intros H1 H2 Hd.
  destruct (duckdb_malloc heap sizeof_state) eqn:Hstate.
  2: { unfold PcapReaderInit. rewrite Hstate. cbn. split; reflexivity. }
  rewrite (PcapReaderInit_header host duckdb_malloc _ _ sizeof_state bind_state heap _
             Hstate (open_input_one_file (hd1 ++ rest) bind_state))
    by (cbn [unread]; rewrite length_app; lia).
  rewrite (PcapReaderInit_header host duckdb_malloc _ _ sizeof_state bind_state heap _
             Hstate (open_input_one_file (hd2 ++ rest) bind_state))
    by (cbn [unread]; rewrite length_app; lia).
  cbn [unread]. cbv zeta.
  rewrite !firstn_app_exact, !skipn_app_exact by assumption.
  rewrite (negotiate_decisive hd1 hd2 H1 H2 Hd).
  destruct (negotiate (parse_file_header host hd2)) as [[[swap nano] hint] |].
  - destruct (duckdb_malloc (S heap) hint).
    + split; [repeat split | reflexivity].
    + split; reflexivity.
  - split; reflexivity.
Qed.

End Informational.

(** X10: the fields of the capture header other than the magic number and
    the snapshot length (version, time zone, accuracy, link type) have no
    effect: two captures that differ only there give the same outcome of
    the query, the same rows or the same error, whatever their values and
    whatever the allocator answers. *)
Theorem informational_fields_are_ignored :
  forall host duckdb_malloc duckdb_vector_size sizeof_state filename_value fuel
         hd1 hd2 rest,
    length hd1 = 24%nat ->
    length hd2 = 24%nat ->
    decisive_bytes hd1 = decisive_bytes hd2 ->
    read_pcap host duckdb_malloc (one_file (hd1 ++ rest)) (hd1 ++ rest)
              duckdb_vector_size sizeof_state filename_value fuel
    = read_pcap host duckdb_malloc (one_file (hd2 ++ rest)) (hd2 ++ rest)
                duckdb_vector_size sizeof_state filename_value fuel.
Proof.
  intros host duckdb_malloc vs sizeof_state filename_value fuel hd1 hd2 rest H1 H2 Hd.
  unfold read_pcap.
  destruct (PcapReaderBind duckdb_malloc sizeof_state filename_value 0)
    as [[e | bind_state] heap]; [reflexivity |].
  pose proof (PcapReaderInit_decisive host duckdb_malloc sizeof_state
                hd1 hd2 rest bind_state heap H1 H2 Hd) as Hinit.
  destruct (PcapReaderInit host duckdb_malloc (one_file (hd1 ++ rest)) (hd1 ++ rest)
              sizeof_state bind_state heap) as [[e1 c1 | st1] heap1];
    destruct (PcapReaderInit host duckdb_malloc (one_file (hd2 ++ rest)) (hd2 ++ rest)
                sizeof_state bind_state heap) as [[e2 c2 | st2] heap2];
    try contradiction.
  - destruct Hinit as [-> _]. reflexivity.
  - destruct Hinit as [Hsame ->].
    rewrite (same_reader_scan host duckdb_malloc vs fuel st1 st2 heap2 Hsame).
    reflexivity.
Qed.

Lemma informational_fields_are_ignored_witness :
  let hd1 := write_file_header LittleEndian
               (mk_file_header PCAP_MAGIC_NATIVE 2 4 0 0 65535 1) in
  let hd2 := write_file_header LittleEndian
               (mk_file_header PCAP_MAGIC_NATIVE 9 9 (-3600) 6 65535 105) in
  let rest := packet_header_bytes LittleEndian 1 500000 3 60 ++ ["a"; "b"; "c"]%byte in
  hd1 <> hd2 /\
  read_pcap LittleEndian always_granted (one_file (hd2 ++ rest)) (hd2 ++ rest)
            2048 80 (Some "capture.pcap"%string) 2
  = inr (Some [ {| timestamp_ns := 1500000000; original_len := 60; capture_len := 3;
                   data := ["a"; "b"; "c"]%byte |} ]).
Proof.
  intros hd1 hd2 rest.
  split; [discriminate |].
  rewrite <- (informational_fields_are_ignored
                LittleEndian always_granted 2048%nat 80 (Some "capture.pcap"%string)
                2%nat hd1 hd2 rest eq_refl eq_refl eq_refl).
  reflexivity.
Defined.

(** ** The outcome of a query *)

Section Outcome.

Variable host : endianness.
Variable duckdb_malloc : nat -> N -> bool.
Variable fopen : string -> option (list byte).
Variable stdin : list byte.
Variable duckdb_vector_size : nat.
Variable sizeof_state : N.
Hypothesis granted : forall n size, duckdb_malloc n size = true.

Lemma open_input_of_name name :
  nul_free name = true ->
  open_input fopen stdin
    {| file := None; file_header := None; needs_swap := false;
       is_nanosecond := false; filename := name;
       is_stdin := (strncmp name "/dev/stdin" 11 =? 0)%Z
                   || (strncmp name "-" 2 =? 0)%Z;
       packet_buffer := None; buffer_size := 0 |}
  = option_map (fun content => {| unread := content; at_eof := false |})
               (input_of fopen stdin name).
Proof.
  intros Hname. unfold open_input, input_of. cbn [is_stdin filename].
  pose proof (is_stdin_flag_iff name Hname) as Hflag.
  destruct ((strncmp name "/dev/stdin" 11 =? 0)%Z || (strncmp name "-" 2 =? 0)%Z).
  - destruct (proj1 Hflag eq_refl) as [-> | ->]; reflexivity.
  - destruct (String.eqb_spec name "-") as [E | _];
      [discriminate (proj2 Hflag (or_introl E)) |].
    destruct (String.eqb_spec name "/dev/stdin") as [E | _];
      [discriminate (proj2 Hflag (or_intror E)) |].
    cbn [orb]. destruct (fopen name); reflexivity.
Qed.

(** The query on a named input when no allocation is refused. *)
Lemma read_pcap_granted name fuel :
  nul_free name = true ->
  let outcome :=
    read_pcap host duckdb_malloc fopen stdin duckdb_vector_size sizeof_state
              (Some name) fuel in
  match input_of fopen stdin name with
  | None => outcome = inl OpenFailure
  | Some content =>
      if (length content <? 24)%nat then outcome = inl TruncatedHeader
      else
        match negotiate (parse_file_header host (firstn 24 content)) with
        | None => outcome = inl UnsupportedMagic
        | Some _ =>
            exists st heap,
              outcome = inr (scan host duckdb_malloc duckdb_vector_size fuel
                                  (Some st) heap) /\
              unread_of (Some st) = skipn 24 content
        end
  end.
Proof.
  intros Hname outcome. subst outcome.
  unfold read_pcap, PcapReaderBind. rewrite !granted. cbn [negb].
  pose proof (open_input_of_name name Hname) as Hopen.
  destruct (input_of fopen stdin name) as [content |]; cbn [option_map] in Hopen.
  - destruct (Nat.ltb_spec (length content) 24) as [Hshort | Hlong].
    + rewrite (PcapReaderInit_truncated host duckdb_malloc fopen stdin sizeof_state
                 _ _ _ (granted _ _) Hopen Hshort).
      reflexivity.
    + rewrite (PcapReaderInit_header host duckdb_malloc fopen stdin sizeof_state
                 _ _ _ (granted _ _) Hopen Hlong).
      cbn [unread]. cbv zeta.
      destruct (negotiate (parse_file_header host (firstn 24 content)))
        as [[[swap nano] hint] |]; [| reflexivity].
      rewrite granted. do 2 eexists. split; reflexivity.
  - unfold PcapReaderInit. rewrite granted, Hopen. reflexivity.
Qed.

End Outcome.

Ltac outcome_case :=
  repeat split; intros;
  repeat match goal with
         | H : exists _, _ |- _ => destruct H
         | H : _ /\ _ |- _ => destruct H
         | H : Some _ = Some _ |- _ => inversion H; subst; clear H
         end;
  try discriminate; try congruence; try lia;
  try (eexists; repeat split; try reflexivity; try eassumption; try lia; congruence).

(** X11: with every allocation granted, a query without a file name ends
    with the missing-name error, and a query on a name ends with the open
    error exactly when the name is not one of the two names of standard
    input and [fopen] gives NULL, with the header-read error exactly when
    the input has fewer than 24 bytes, with the invalid-magic error exactly
    when it has 24 bytes but none of the four magic numbers, and goes on to
    the scan in every other case; the scan then ends with a list of rows,
    the host being given more calls than the input has bytes. *)
Theorem query_outcome_by_input :
  forall host duckdb_malloc fopen stdin duckdb_vector_size sizeof_state name fuel,
    (forall n size, duckdb_malloc n size = true) ->
    nul_free name = true ->
    let outcome :=
      read_pcap host duckdb_malloc fopen stdin duckdb_vector_size sizeof_state
                (Some name) fuel in
    let input := input_of fopen stdin name in
    read_pcap host duckdb_malloc fopen stdin duckdb_vector_size sizeof_state None fuel
    = inl MissingInput /\
    (outcome = inl OpenFailure <-> input = None) /\
    (outcome = inl TruncatedHeader <->
     exists content, input = Some content /\ (length content < 24)%nat) /\
    (outcome = inl UnsupportedMagic <->
     exists content,
       input = Some content /\ (24 <= length content)%nat /\
       negotiate (parse_file_header host (firstn 24 content)) = None) /\
    ((exists result, outcome = inr result) <->
     exists content,
       input = Some content /\ (24 <= length content)%nat /\
       negotiate (parse_file_header host (firstn 24 content)) <> None) /\
    ((forall content, input = Some content -> (length content < fuel)%nat) ->
     ((exists rows, outcome = inr (Some rows)) <->
      exists content,
        input = Some content /\ (24 <= length content)%nat /\
        negotiate (parse_file_header host (firstn 24 content)) <> None)).
Proof.
  intros host duckdb_malloc fopen stdin vs sizeof_state name fuel Hgranted Hname
         outcome input.
  pose proof (read_pcap_granted host duckdb_malloc fopen stdin vs sizeof_state
                Hgranted name fuel Hname) as H.
  cbv zeta in H. fold outcome input in H.
  split; [reflexivity |].
  destruct input as [content |].
  - destruct (Nat.ltb_spec (length content) 24) as [Hshort | Hlong].
    + rewrite H. outcome_case.
    + destruct (negotiate (parse_file_header host (firstn 24 content)))
        as [sel |] eqn:Hneg.
      * destruct H as (st & heap & -> & Hunread).
        split; [outcome_case |]. split; [outcome_case |]. split; [outcome_case |].
        split; [outcome_case |].
        intros Hfuel.
        destruct (scan_terminates host duckdb_malloc vs fuel (Some st) heap)
          as (rows & ->).
        { rewrite Hunread, length_skipn.
          pose proof (Hfuel content eq_refl). lia. }
        outcome_case.
      * rewrite H. outcome_case.
  - rewrite H. outcome_case.
Qed.

Lemma query_outcome_by_input_witness :
  let content :=
    file_header_bytes LittleEndian PCAP_MAGIC_NATIVE 65535
    ++ packet_header_bytes LittleEndian 1 500000 3 60 ++ ["a"; "b"; "c"]%byte in
  nul_free "capture.pcap" = true /\
  exists rows,
    read_pcap LittleEndian always_granted (one_file content) [] 2048 80
              (Some "capture.pcap"%string) 100
    = inr (Some rows).
Proof.
  intros content.
  split; [reflexivity |].
  destruct (query_outcome_by_input
              LittleEndian always_granted (one_file content) [] 2048%nat 80
              "capture.pcap"%string 100%nat (fun _ _ => eq_refl) eq_refl)
    as (_ & _ & _ & _ & _ & Hrows).
  apply Hrows.
  - intros c E. inversion E. apply Nat.ltb_lt. reflexivity.
  - exists content. split; [reflexivity |]. split; [apply Nat.leb_le; reflexivity |].
    discriminate.
Defined.

(** ** Reading back what was written *)

Lemma length_write_packet_header w pk : length (write_packet_header w pk) = 16%nat.
Proof. destruct w; reflexivity. Qed.

Lemma length_write_file_header w hdr : length (write_file_header w hdr) = 24%nat.
Proof. destruct w; reflexivity. Qed.

(** The header of a frame written on a machine of order [w] and read on a
    machine of order [host], swapped when the orders differ, has the fields
    of the frame. *)
Lemma decode_written_header host w pk :
  packet_ok pk ->
  decode_packet_header host (negb (same_order host w)) (write_packet_header w pk)
  = {| ts_sec := pk_sec pk;
       ts_usec := pk_usec pk;
       caplen := N.of_nat (length (pk_data pk));
       len := pk_len pk |}.
Proof.
  intros (Hs & Hu & Hl & Hc).
  unfold decode_packet_header, parse_packet_header, swap_packet_header,
    write_packet_header, store32, load32.
  destruct host, w;
    cbn [same_order negb app nth Nat.add ts_sec ts_usec caplen len];
    rewrite ?swap32_le32, !le32_byte_of; unfold wrap32;
    rewrite !N.mod_small by assumption; reflexivity.
Qed.

Lemma parse_written_file_header host w hdr :
  magic_number hdr < 2 ^ 32 ->
  snaplen hdr < 2 ^ 32 ->
  magic_number (parse_file_header host (write_file_header w hdr))
  = (if same_order host w then magic_number hdr else swap32 (magic_number hdr)) /\
  (if same_order host w
   then snaplen (parse_file_header host (write_file_header w hdr))
   else swap32 (snaplen (parse_file_header host (write_file_header w hdr))))
  = snaplen hdr.
Proof.
  intros Hm Hs.
  unfold parse_file_header, write_file_header, store32, store16, load32.
  destruct host, w;
    cbn [same_order app nth Nat.add magic_number snaplen];
    rewrite ?swap32_le32;
    rewrite <- ?(swap32_le32 (byte_of (magic_number hdr)));
    rewrite !le32_byte_of; unfold wrap32;
    rewrite !N.mod_small by assumption; split; reflexivity.
Qed.

(** The negotiation on a header written with the writer's own magic. *)
Lemma negotiate_written host w hdr (nano : bool) :
  magic_number hdr = (if nano then PCAP_MAGIC_NANO_NATIVE else PCAP_MAGIC_NATIVE) ->
  snaplen hdr < 2 ^ 32 ->
  negotiate (parse_file_header host (write_file_header w hdr))
  = Some (negb (same_order host w), nano, snaplen hdr).
Proof.
  intros Hmagic Hsnap.
  destruct (parse_written_file_header host w hdr) as [Hm Hs];
    [rewrite Hmagic; destruct nano; reflexivity | exact Hsnap |].
  unfold negotiate. rewrite Hm, Hmagic.
  destruct (same_order host w); destruct nano; cbn [negb] in *;
    rewrite ?Hs; reflexivity.
Qed.

Lemma row_of_written host w nano pk :
  packet_ok pk ->
  row_of host (negb (same_order host w)) nano (write_packet w pk)
  = row_of_packet nano pk.
Proof.
  intros Hok. unfold row_of, write_packet. cbn [fst snd].
  rewrite (decode_written_header host w pk Hok).
  destruct Hok as (Hs & Hu & _).
  rewrite convert_timestamp_exact by assumption.
  reflexivity.
Qed.

(** X12: a capture written on a machine of either byte order, with the
    writer's own magic number for microseconds or nanoseconds, any snapshot
    length and any sequence of frames whose fields fit 32 bits, is read back
    on a machine of either byte order as one row per frame, in order:
    timestamp_ns is seconds times 1_000_000_000 plus the fraction in
    nanoseconds, original_len the length on the wire, capture_len the
    number of bytes saved and the payload those bytes.  Allocations are
    taken to be granted. *)
Theorem written_capture_reads_back :
  forall host w duckdb_malloc fopen stdin duckdb_vector_size sizeof_state
         name fuel hdr (nano : bool) pks,
    (forall n size, duckdb_malloc n size = true) ->
    (0 < duckdb_vector_size)%nat ->
    nul_free name = true ->
    input_of fopen stdin name = Some (write_capture w hdr pks) ->
    magic_number hdr = (if nano then PCAP_MAGIC_NANO_NATIVE else PCAP_MAGIC_NATIVE) ->
    snaplen hdr < 2 ^ 32 ->
    Forall packet_ok pks ->
    (length pks < fuel)%nat ->
    read_pcap host duckdb_malloc fopen stdin duckdb_vector_size sizeof_state
              (Some name) fuel
    = inr (Some (map (row_of_packet nano) pks)).
Proof.
  intros host w duckdb_malloc fopen stdin vs sizeof_state name fuel hdr nano pks
         Hgranted Hroom Hname Hinput Hmagic Hsnap Hok Hfuel.
  unfold read_pcap, PcapReaderBind. rewrite !Hgranted. cbn [negb].
  pose proof (open_input_of_name fopen stdin name Hname) as Hopen.
  rewrite Hinput in Hopen. cbn [option_map] in Hopen.
  rewrite (PcapReaderInit_header host duckdb_malloc fopen stdin sizeof_state
             _ _ _ (Hgranted _ _) Hopen)
    by (cbn [unread]; unfold write_capture;
        rewrite length_app, length_write_file_header; lia).
  cbn [unread]. cbv zeta. unfold write_capture.
  rewrite firstn_app_exact, skipn_app_exact by apply length_write_file_header.
  rewrite (negotiate_written host w hdr nano Hmagic Hsnap).
  rewrite Hgranted.
  f_equal.
  erewrite (scan_records host duckdb_malloc vs Hgranted Hroom fuel
              (map (write_packet w) pks) _ _ _ []).
  - cbn [needs_swap is_nanosecond]. f_equal.
    rewrite map_map. apply map_ext_in. intros pk Hpk.
    rewrite Forall_forall in Hok.
    apply row_of_written, Hok, Hpk.
  - rewrite length_map. exact Hfuel.
  - reflexivity.
  - reflexivity.
  - cbn [unread]. rewrite app_nil_r. reflexivity.
  - cbn [needs_swap]. apply Forall_forall. intros r Hr.
    apply in_map_iff in Hr as (pk & <- & Hpk).
    rewrite Forall_forall in Hok. specialize (Hok pk Hpk).
    split; cbn [fst snd write_packet].
    + apply length_write_packet_header.
    + rewrite (decode_written_header host w pk Hok). reflexivity.
  - apply clean_end.
Qed.

Lemma written_capture_reads_back_witness :
  let hdr := mk_file_header PCAP_MAGIC_NANO_NATIVE 2 4 0 0 65535 1 in
  let pks := [ mk_packet 1 500 60 ["a"; "b"; "c"]%byte; mk_packet 2 7 0 [] ] in
  read_pcap BigEndian always_granted no_file (write_capture LittleEndian hdr pks)
            1 80 (Some "-"%string) 3
  = inr (Some [ {| timestamp_ns := 1000000500; original_len := 60; capture_len := 3;
                   data := ["a"; "b"; "c"]%byte |};
                {| timestamp_ns := 2000000007; original_len := 0; capture_len := 0;
                   data := [] |} ]).
Proof.
  intros hdr pks.
  apply (written_capture_reads_back
           BigEndian LittleEndian always_granted no_file
           (write_capture LittleEndian hdr pks) 1 80 "-"%string 3 hdr true pks).
  - reflexivity.
  - lia.
  - reflexivity.
  - reflexivity.
  - reflexivity.
  - reflexivity.
  - repeat constructor.
  - cbn. lia.
Defined.

(** ** Timestamps that keep their order *)

(** X13: when the fraction is a proper one (below 10^9 in a nanosecond
    file, below 10^6 in a microsecond file), the seconds and the fraction
    are recovered from timestamp_ns by division by 10^9, a record of a
    microsecond file has the timestamp of the nanosecond record with 1000
    times its fraction, and a record that is later by its (seconds,
    fraction) pair has the larger timestamp_ns. *)
Theorem timestamp_keeps_order :
  forall (nano : bool) h1 h2,
    let unit := if nano then 1000000000 else 1000000 in
    ts_sec h1 < 2 ^ 32 -> ts_usec h1 < unit ->
    ts_sec h2 < 2 ^ 32 -> ts_usec h2 < unit ->
    convert_timestamp nano h1 / 1000000000 = ts_sec h1 /\
    convert_timestamp nano h1 mod 1000000000
    = (if nano then ts_usec h1 else ts_usec h1 * 1000) /\
    convert_timestamp nano h1
    = convert_timestamp true
        {| ts_sec := ts_sec h1;
           ts_usec := (if nano then ts_usec h1 else ts_usec h1 * 1000);
           caplen := caplen h1; len := len h1 |} /\
    (ts_sec h1 < ts_sec h2 \/ ts_sec h1 = ts_sec h2 /\ ts_usec h1 < ts_usec h2 ->
     convert_timestamp nano h1 < convert_timestamp nano h2).
Proof.
  intros nano h1 h2 unit Hs1 Hu1 Hs2 Hu2.
  assert (Hu1' : ts_usec h1 < 2 ^ 32)
    by (subst unit; change (2 ^ 32) with 4294967296; destruct nano; lia).
  assert (Hu2' : ts_usec h2 < 2 ^ 32)
    by (subst unit; change (2 ^ 32) with 4294967296; destruct nano; lia).
  rewrite (convert_timestamp_exact nano h1), (convert_timestamp_exact nano h2)
    by assumption.
  set (f1 := if nano then ts_usec h1 else ts_usec h1 * 1000).
  set (f2 := if nano then ts_usec h2 else ts_usec h2 * 1000).
  assert (Hf1 : f1 < 1000000000) by (subst f1 unit; destruct nano; lia).
  assert (Hf2 : f2 < 1000000000) by (subst f2 unit; destruct nano; lia).
  split; [| split; [| split]].
  - symmetry. apply (N.div_unique _ _ _ f1); [exact Hf1 | lia].
  - symmetry. apply (N.mod_unique _ _ (ts_sec h1)); [exact Hf1 | lia].
  - rewrite convert_timestamp_exact; cbn [ts_sec ts_usec];
      [reflexivity | exact Hs1 |].
    fold f1. change (2 ^ 32) with 4294967296. lia.
  - intros [Hlt | [Heq Hlt]].
    + lia.
    + assert (f1 < f2) by (subst f1 f2; destruct nano; lia). lia.
Qed.

Lemma timestamp_keeps_order_witness :
  convert_timestamp false (mk_packet_header 1 999999 0 0)
  < convert_timestamp false (mk_packet_header 2 0 0 0).
Proof.
  apply (timestamp_keeps_order false (mk_packet_header 1 999999 0 0)
                               (mk_packet_header 2 0 0 0));
    cbn; lia.
Defined.

(** ** Allocations before the first row *)

(** X14: a query gives rows only if the four allocations made before the
    first call were all granted: the state and the copy of the name in
    [PcapReaderBind], the state and the packet buffer in [PcapReaderInit].
    A refusal of the first or the third ends the query with the
    state-allocation error, a refusal of the second with the
    name-allocation error. *)
Theorem rows_need_the_setup_allocations :
  forall host duckdb_malloc fopen stdin duckdb_vector_size sizeof_state name fuel,
    let outcome :=
      read_pcap host duckdb_malloc fopen stdin duckdb_vector_size sizeof_state
                (Some name) fuel in
    (duckdb_malloc 0%nat sizeof_state = false -> outcome = inl StateAllocationFailure) /\
    (duckdb_malloc 0%nat sizeof_state = true ->
     duckdb_malloc 1%nat (strlen name + 1) = false ->
     outcome = inl FilenameAllocationFailure) /\
    (duckdb_malloc 0%nat sizeof_state = true ->
     duckdb_malloc 1%nat (strlen name + 1) = true ->
     duckdb_malloc 2%nat sizeof_state = false ->
     outcome = inl StateAllocationFailure) /\
    (forall result,
        outcome = inr result ->
        duckdb_malloc 0%nat sizeof_state = true /\
        duckdb_malloc 1%nat (strlen name + 1) = true /\
        duckdb_malloc 2%nat sizeof_state = true /\
        exists hint, hint < 2 ^ 32 /\ duckdb_malloc 3%nat hint = true).
Proof.
  intros host duckdb_malloc fopen stdin vs sizeof_state name fuel outcome.
  subst outcome. unfold read_pcap, PcapReaderBind.
  destruct (duckdb_malloc 0%nat sizeof_state) eqn:H0; cbn [negb].
  2: { repeat split; intros; try discriminate; reflexivity. }
  destruct (duckdb_malloc 1%nat (strlen name + 1)) eqn:H1; cbn [negb].
  2: { repeat split; intros; try discriminate; reflexivity. }
  set (bind_state := {| file := None; file_header := None; needs_swap := false;
                        is_nanosecond := false; filename := name;
                        is_stdin := _; packet_buffer := None; buffer_size := 0 |}).
  destruct (PcapReaderInit host duckdb_malloc fopen stdin sizeof_state bind_state 2)
    as [[e closed | st] heap1] eqn:Hinit.
  - split; [intros; discriminate |]. split; [intros; discriminate |].
    split; [| intros result E; discriminate E].
    intros _ _ H2. unfold PcapReaderInit in Hinit. rewrite H2 in Hinit.
    inversion Hinit. reflexivity.
  - split; [intros; discriminate |]. split; [intros; discriminate |].
    destruct (duckdb_malloc 2%nat sizeof_state) eqn:H2.
    2: { unfold PcapReaderInit in Hinit. rewrite H2 in Hinit. discriminate Hinit. }
    split; [intros _ _ E; discriminate E |].
    intros result _. repeat split.
    pose proof Hinit as Hdata.
    apply PcapReaderInit_InitData in Hdata as (f & Hopen & Hlen & Hneg & _).
    rewrite (PcapReaderInit_header host duckdb_malloc fopen stdin sizeof_state
               bind_state 2 f H2 Hopen Hlen) in Hinit.
    cbv zeta in Hinit. rewrite Hneg in Hinit.
    exists (buffer_size st). split.
    + rewrite (negotiate_hint _ _ _ _ Hneg).
      unfold parse_file_header. cbn [snaplen].
      destruct (needs_swap st); [rewrite swap32_load32 |]; apply load32_lt.
    + destruct (duckdb_malloc 3%nat (buffer_size st)); [reflexivity | discriminate Hinit].
Qed.

Lemma rows_need_the_setup_allocations_witness :
  granted_before 1 1%nat (strlen "capture.pcap" + 1) = false /\
  read_pcap LittleEndian (granted_before 1) no_file [] 2048 80
            (Some "capture.pcap"%string) 1
  = inl FilenameAllocationFailure.
Proof.
  split; [reflexivity |].
  destruct (rows_need_the_setup_allocations
              LittleEndian (granted_before 1) no_file [] 2048%nat 80
              "capture.pcap"%string 1%nat) as (_ & H & _).
  apply H; reflexivity.
Defined.
